(** * nf-rest-plugin: the REST executor service and its gateway variant

    A shallow embedding of [src/nf-server/src/app.py] (the executor, module
    [V1]) and of [src/nf-server/v2/src/gateway/app.py] (the gateway, module
    [V2]), followed by the properties of the job life cycle that the
    specification states about them.

    Layout: Python values and the few built-ins the services call; the
    [jobs] table and its SQL statements; the two services; the theorems.

    A Python [str] is carried as the bytes of its UTF-8 encoding, so what
    the services do character by character ([strip], slicing) is spelled
    out on the encoding. *)

From Stdlib Require Import ZArith QArith Qround String Ascii List Lia DecimalString.
From stdpp Require Import base gmap strings list.

Set Warnings "-register-all".
#[local] Open Scope string_scope.
#[local] Open Scope Z_scope.

(* ===================================================================== *)
(** * Python values, exceptions and built-ins                             *)
(* ===================================================================== *)

Module Py.

(** A Python [float].  Every finite double is a rational number; the
    operations the services apply to floats (comparison with a constant,
    division by [2^30] of a value above [10^6], [math.ceil], [int]) are exact
    on doubles, so a finite float is carried as its exact value. *)
Inductive pyfloat :=
| FFinite (q : Q)
| FInf (negative : bool)
| FNan.

(** The values that [json.loads] yields and that flow through the resource
    and storage dictionaries. *)
Inductive value :=
| VNone
| VBool (b : bool)
| VInt (z : Z)
| VFloat (f : pyfloat)
| VStr (s : string)
| VList (l : list value)
| VDict (d : gmap string value).

Inductive exn :=
| TypeError
| ValueError
| OverflowError
| AttributeError
| ValidationError
| IntegrityError
| RuntimeError (msg : string)
| HTTPException (status_code : Z) (detail : string)
| OSError (msg : string)
| UnicodeDecodeError.

Inductive result (A : Type) :=
| Ok (a : A)
| Raise (e : exn).
Arguments Ok {A} a.
Arguments Raise {A} e.

#[global] Instance result_ret : MRet result := fun A a => Ok a.

#[global] Instance result_bind : MBind result := fun A B k r =>
  match r with
  | Ok a => k a
  | Raise e => Raise e
  end.

(** Library functions whose exact behaviour lives outside the repository:
    the JSON codec, the string grammars of [int()] and [float()], what
    [dict()] makes of a non-dict, the [repr] of containers and floats, the
    lax coercions of the validating models, and [Path.expanduser].  A parser
    that answers [None] stands for one that raises. *)
Class Runtime := {
  json_loads : string -> option value;
  json_dumps : value -> string;
  json_dumps_indent : Z -> value -> string;
  int_of_str : string -> option Z;
  float_of_str : string -> option pyfloat;
  dict_of_iterable : value -> option (gmap string value);
  py_repr : value -> string;
  lax_int : value -> option Z;
  lax_str : value -> option string;
  exn_str : exn -> string;
  expanduser : string -> string
}.

Definition string_of_Z (z : Z) : string :=
  NilZero.string_of_int (Z.to_int z).

Definition dquote : string := String "034"%char EmptyString.
Definition nl : string := String "010"%char EmptyString.

(** Every line followed by a line feed, as in a triple-quoted template. *)
Definition unlines (ls : list string) : string :=
  List.fold_right (fun l rest => l ++ nl ++ rest) EmptyString ls.

(** [f"{z:05d}"]. *)
Definition zero_pad (width : nat) (digits : string) : string :=
  String.concat EmptyString
    (List.repeat "0" (width - String.length digits)) ++ digits.

Definition format_05d (z : Z) : string :=
  if z <? 0 then "-" ++ zero_pad 4 (string_of_Z (Z.abs z))
  else zero_pad 5 (string_of_Z z).

(** [str.join]. *)
Definition join (sep : string) (parts : list string) : string :=
  String.concat sep parts.

(** A byte that continues a character of more than one byte. *)
Definition is_continuation (c : ascii) : bool :=
  let n := nat_of_ascii c in ((128 <=? n) && (n <=? 191))%nat.

(** [s[:n]]: the first [n] characters, each with the bytes that continue
    it. *)
Fixpoint take_prefix (n : nat) (s : string) : string :=
  match s with
  | EmptyString => EmptyString
  | String c rest =>
      if is_continuation c then String c (take_prefix n rest)
      else
        match n with
        | O => EmptyString
        | S m => String c (take_prefix m rest)
        end
  end.

(** Truthiness, as [if x], [x or y] and [not x] use it. *)
Definition truthy (v : value) : bool :=
  match v with
  | VNone => false
  | VBool b => b
  | VInt z => negb (z =? 0)
  | VFloat (FFinite q) => negb (Qeq_bool q 0)
  | VFloat _ => true
  | VStr s => negb (String.eqb s "")
  | VList l => negb (Nat.eqb (List.length l) 0)
  | VDict d => negb (Nat.eqb (size d) 0)
  end.

(** [x or y]. *)
Definition py_or (x y : value) : value :=
  if truthy x then x else y.

Definition of_opt_int (o : option Z) : value :=
  match o with
  | Some z => VInt z
  | None => VNone
  end.

Definition of_opt_str (o : option string) : value :=
  match o with
  | Some s => VStr s
  | None => VNone
  end.

Definition is_none (v : value) : bool :=
  match v with
  | VNone => true
  | _ => false
  end.

(** [d.get(key)] on a dict. *)
Definition dict_get (d : gmap string value) (key : string) : value :=
  default VNone (d !! key).

(** [x.get(key)] on an arbitrary object: only a dict has the method. *)
Definition py_get (x : value) (key : string) : result value :=
  match x with
  | VDict d => Ok (dict_get d key)
  | _ => Raise AttributeError
  end.

(** [float(z)] for an [int]: the nearest double, ties to even; an [int]
    beyond the largest double raises [OverflowError]. *)
Definition float_of_int (z : Z) : result pyfloat :=
  let a := Z.abs z in
  if a <? 2 ^ 53 then Ok (FFinite (inject_Z z))
  else
    let e := Z.log2 a - 52 in
    let m := a / 2 ^ e in
    let r := a mod 2 ^ e in
    let half := 2 ^ (e - 1) in
    let m' := if (r <? half) || ((r =? half) && Z.even m) then m else m + 1 in
    let v := m' * 2 ^ e in
    if 2 ^ 1024 <=? v then Raise OverflowError
    else Ok (FFinite (inject_Z (Z.sgn z * v))).

(** Truncation toward zero. *)
Definition Qtrunc (q : Q) : Z :=
  if Qle_bool 0 q then Qfloor q else Qceiling q.

Definition int_of_float (f : pyfloat) : result Z :=
  match f with
  | FFinite q => Ok (Qtrunc q)
  | FInf _ => Raise OverflowError
  | FNan => Raise ValueError
  end.

(** [math.ceil]. *)
Definition math_ceil (f : pyfloat) : result Z :=
  match f with
  | FFinite q => Ok (Qceiling q)
  | FInf _ => Raise OverflowError
  | FNan => Raise ValueError
  end.

(** [f <= 0]. *)
Definition float_le_0 (f : pyfloat) : bool :=
  match f with
  | FFinite q => Qle_bool q 0
  | FInf negative => negative
  | FNan => false
  end.

(** [f > z] for an [int] constant [z]. *)
Definition float_gt (f : pyfloat) (z : Z) : bool :=
  match f with
  | FFinite q => negb (Qle_bool q (inject_Z z))
  | FInf negative => negb negative
  | FNan => false
  end.

(** [f / z] for a positive power of two [z]. *)
Definition float_div (f : pyfloat) (z : Z) : pyfloat :=
  match f with
  | FFinite q => FFinite (q / inject_Z z)
  | other => other
  end.

Section Builtins.
Context `{Runtime}.

(** [int(v)]. *)
Definition py_int (v : value) : result Z :=
  match v with
  | VInt z => Ok z
  | VBool b => Ok (if b then 1 else 0)
  | VFloat f => int_of_float f
  | VStr s =>
      match int_of_str s with
      | Some z => Ok z
      | None => Raise ValueError
      end
  | VNone | VList _ | VDict _ => Raise TypeError
  end.

(** [float(v)]. *)
Definition py_float (v : value) : result pyfloat :=
  match v with
  | VInt z => float_of_int z
  | VBool b => Ok (FFinite (if b then 1 else 0)%Q)
  | VFloat f => Ok f
  | VStr s =>
      match float_of_str s with
      | Some f => Ok f
      | None => Raise ValueError
      end
  | VNone | VList _ | VDict _ => Raise TypeError
  end.

(** [str(v)]. *)
Definition py_str (v : value) : string :=
  match v with
  | VStr s => s
  | VInt z => string_of_Z z
  | VBool true => "True"
  | VBool false => "False"
  | VNone => "None"
  | other => py_repr other
  end.

(** [dict(v)]. *)
Definition py_dict (v : value) : result (gmap string value) :=
  match v with
  | VDict d => Ok d
  | other =>
      match dict_of_iterable other with
      | Some d => Ok d
      | None => Raise TypeError
      end
  end.

(** Validation of an [Optional[int]] model field. *)
Definition validate_opt_int (v : value) : result (option Z) :=
  match v with
  | VNone => Ok None
  | VInt z => Ok (Some z)
  | other =>
      match lax_int other with
      | Some z => Ok (Some z)
      | None => Raise ValidationError
      end
  end.

(** Validation of an [Optional[str]] model field. *)
Definition validate_opt_str (v : value) : result (option string) :=
  match v with
  | VNone => Ok None
  | VStr s => Ok (Some s)
  | other =>
      match lax_str other with
      | Some s => Ok (Some s)
      | None => Raise ValidationError
      end
  end.

End Builtins.

(** [s.strip()].  The white space of Python ([str.isspace]) is one byte for
    the ASCII characters (9 to 13, 28 to 32) and two or three bytes for the
    others: U+0085 and U+00A0; U+1680, U+2000 to U+200A, U+2028, U+2029,
    U+202F, U+205F and U+3000. *)
Definition is_space (c : ascii) : bool :=
  let n := nat_of_ascii c in
  ((9 <=? n) && (n <=? 13))%nat || ((28 <=? n) && (n <=? 32))%nat.

(** [C2 85] and [C2 A0]. *)
Definition is_space2 (c d : ascii) : bool :=
  let m := nat_of_ascii c in
  let n := nat_of_ascii d in
  ((m =? 194) && ((n =? 133) || (n =? 160)))%nat.

(** [E1 9A 80]; [E2 80 80] to [E2 80 8A], [E2 80 A8], [E2 80 A9],
    [E2 80 AF]; [E2 81 9F]; [E3 80 80]. *)
Definition is_space3 (c d e : ascii) : bool :=
  let l := nat_of_ascii c in
  let m := nat_of_ascii d in
  let n := nat_of_ascii e in
  ((l =? 225) && (m =? 154) && (n =? 128)
   || (l =? 226) && (m =? 128)
      && ((128 <=? n) && (n <=? 138) || (n =? 168) || (n =? 169) || (n =? 175))
   || (l =? 226) && (m =? 129) && (n =? 159)
   || (l =? 227) && (m =? 128) && (n =? 128))%nat.

(** [s.lstrip()]. *)
Fixpoint lstrip (s : string) : string :=
  match s with
  | String c rest =>
      if is_space c then lstrip rest
      else
        match rest with
        | String d rest1 =>
            if is_space2 c d then lstrip rest1
            else
              match rest1 with
              | String e rest2 => if is_space3 c d e then lstrip rest2 else s
              | EmptyString => s
              end
        | EmptyString => s
        end
  | EmptyString => EmptyString
  end.

(** [s] holds nothing but white space. *)
Fixpoint blank (s : string) : bool :=
  match s with
  | String c rest =>
      if is_space c then blank rest
      else
        match rest with
        | String d rest1 =>
            if is_space2 c d then blank rest1
            else
              match rest1 with
              | String e rest2 => is_space3 c d e && blank rest2
              | EmptyString => false
              end
        | EmptyString => false
        end
  | EmptyString => true
  end.

(** [s.rstrip()]: [s] up to where only white space follows. *)
Fixpoint rstrip (s : string) : string :=
  match s with
  | String c rest => if blank s then EmptyString else String c (rstrip rest)
  | EmptyString => EmptyString
  end.

Definition strip (s : string) : string := rstrip (lstrip s).

(** [s.endswith(suffix)] for a one-character suffix. *)
Fixpoint ends_with_char (c : ascii) (s : string) : bool :=
  match s with
  | EmptyString => false
  | String d EmptyString => Ascii.eqb c d
  | String _ rest => ends_with_char c rest
  end.

End Py.
Export Py.

(* ===================================================================== *)
(** * The [jobs] table                                                    *)
(* ===================================================================== *)

Module Store.

(** One row of [jobs], as [init_db] declares it.  [updated_at] is kept by
    the store on its own and no statement of the services reads it; it is
    left out. *)
Record job := mk_job {
  job_id : string;
  status : string;
  command : string;
  workdir : string;
  env : option string;
  metadata : option string;
  resources : option string;
  returncode : option Z;
  stdout : option string;
  stderr : option string;
  pid : option Z;
  created_at : Z
}.

#[global] Instance job_eq_dec : EqDecision job.
Proof. solve_decision. Defined.

(** [SET status = s]. *)
Definition set_status (s : string) (j : job) : job :=
  {| job_id := job_id j; status := s; command := command j;
     workdir := workdir j; env := env j; metadata := metadata j;
     resources := resources j; returncode := returncode j;
     stdout := stdout j; stderr := stderr j; pid := pid j;
     created_at := created_at j |}.

(** [SET status = s, stderr = err]. *)
Definition set_status_stderr (s err : string) (j : job) : job :=
  {| job_id := job_id j; status := s; command := command j;
     workdir := workdir j; env := env j; metadata := metadata j;
     resources := resources j; returncode := returncode j;
     stdout := stdout j; stderr := Some err; pid := pid j;
     created_at := created_at j |}.

(** [SET returncode = rc, stdout = out, stderr = err, status = s]. *)
Definition set_outcome (rc : Z) (out err s : string) (j : job) : job :=
  {| job_id := job_id j; status := s; command := command j;
     workdir := workdir j; env := env j; metadata := metadata j;
     resources := resources j; returncode := Some rc;
     stdout := Some out; stderr := Some err; pid := pid j;
     created_at := created_at j |}.

Definition has_status (s : string) (j : job) : bool :=
  String.eqb (status j) s.

Definition has_id (id : string) (j : job) : bool :=
  String.eqb (job_id j) id.

(** [UPDATE jobs SET ... WHERE ...]: the new table and the cursor's
    [rowcount], which counts the rows the statement changed. *)
Definition sql_update (where_ : job -> bool) (set_ : job -> job)
    (t : list job) : list job * Z :=
  (List.map (fun j => if where_ j then set_ j else j) t,
   Z.of_nat (List.length
     (List.filter (fun j => where_ j && negb (bool_decide (set_ j = j))) t))).

(** The row of least [created_at] in a list; among equals the first. *)
Fixpoint oldest (cands : list job) : option job :=
  match cands with
  | [] => None
  | j :: rest =>
      match oldest rest with
      | None => Some j
      | Some k => if created_at j <=? created_at k then Some j else Some k
      end
  end.

(** [SELECT job_id FROM jobs WHERE status = s ORDER BY created_at LIMIT 1],
    then [fetchone]. *)
Definition select_oldest (s : string) (t : list job) : option job :=
  oldest (List.filter (has_status s) t).

(** [SELECT * FROM jobs WHERE job_id = id], then [fetchone]. *)
Definition select_by_id (id : string) (t : list job) : option job :=
  List.find (has_id id) t.

(** [INSERT INTO jobs ...]; [job_id] is the primary key. *)
Definition sql_insert (j : job) (t : list job) : result (list job) :=
  match select_by_id (job_id j) t with
  | Some _ => Raise IntegrityError
  | None => Ok (t ++ [j])%list
  end.

(** [SELECT status, COUNT( * ) FROM jobs GROUP BY status], read at one
    status. *)
Definition count_status (s : string) (t : list job) : Z :=
  Z.of_nat (List.length (List.filter (has_status s) t)).

End Store.
Export Store.

(* ===================================================================== *)
(** * The process and what it can do to the outside                       *)
(* ===================================================================== *)

Module Sys.

(** What [subprocess.run] hands back. *)
Record completed := mk_completed {
  proc_returncode : Z;
  proc_stdout : string;
  proc_stderr : string
}.

(** What the service does to the outside, as calls: a line printed, a
    directory made, a file written or copied, a subprocess run to its end or
    launched, a signal sent, a thread started, a pause. *)
Inductive event :=
| Log (msg : string)
| Mkdir (path : string)
| WriteText (path content : string)
| CopyFile (src dst : string)
| Run (cmd : list string) (cwd : string)
| Popen (cmd : list string) (cwd : string)
| SigTerm (pid : Z)
| StartThread (worker_id : Z)
| Sleep (seconds : Z).

(** The host the service runs on: environment variables, the directory of
    [app.py], the files next to [autorun.sh], and how the calls to the
    outside turn out.  [fails] answers [Some e] when the call raises [e]
    instead of returning: [Path.mkdir], [Path.write_text] and
    [shutil.copy2] raise [OSError]; [subprocess.run] raises [OSError] when
    the program cannot be started and, reading its output as text,
    [UnicodeDecodeError] when what it printed cannot be decoded.  [run] is
    what [subprocess.run] hands back when it returns.  [popen] answers
    [Some e] when [subprocess.Popen] raises an exception that prints as
    [e], and so does [os_kill]. *)
Record host := mk_host {
  getenv : string -> option string;
  app_dir : string;
  autorun_present : bool;
  tf_files : list string;
  yml_files : list string;
  fails : event -> option exn;
  run : list string -> string -> completed;
  popen : list string -> string -> option string;
  os_kill : Z -> option string
}.

Definition getenv_default (h : host) (name dflt : string) : string :=
  default dflt (getenv h name).

(** The mutable world: the table and the effects so far, oldest first. *)
Record world := mk_world {
  db : list job;
  trace : list event
}.

(** A computation reads and writes the world and may raise; what it did
    before raising stays done (every statement is committed on its own). *)
Definition M (A : Type) : Type := world -> result A * world.

#[global] Instance M_ret : MRet M := fun A a w => (Ok a, w).

#[global] Instance M_bind : MBind M := fun A B k m w =>
  match m w with
  | (Ok a, w') => k a w'
  | (Raise e, w') => (Raise e, w')
  end.

Definition raise {A} (e : exn) : M A := fun w => (Raise e, w).

(** [try: m except Exception as e: handler e]. *)
Definition try_except {A} (m : M A) (handler : exn -> M A) : M A := fun w =>
  match m w with
  | (Ok a, w') => (Ok a, w')
  | (Raise e, w') => handler e w'
  end.

Definition lift {A} (r : result A) : M A := fun w => (r, w).

Definition emit (e : event) : M unit := fun w =>
  (Ok tt, {| db := db w; trace := (trace w ++ [e])%list |}).

Definition log (msg : string) : M unit := emit (Log msg).

(** A call to the outside that may raise: the call is recorded, and then it
    raises what the host says it raises, if anything. *)
Definition call (h : host) (e : event) : M unit := fun w =>
  let w' := {| db := db w; trace := (trace w ++ [e])%list |} in
  match fails h e with
  | Some x => (Raise x, w')
  | None => (Ok tt, w')
  end.

Definition get_db : M (list job) := fun w => (Ok (db w), w).

Definition put_db (t : list job) : M unit := fun w =>
  (Ok tt, {| db := t; trace := trace w |}).

(** One [UPDATE] on a fresh connection; answers [rowcount]. *)
Definition execute_update (where_ : job -> bool) (set_ : job -> job) : M Z :=
  fun w =>
    let '(t, n) := sql_update where_ set_ (db w) in
    (Ok n, {| db := t; trace := trace w |}).

(** What other connections do to the table while this thread is between two
    of its statements. *)
Definition interleave (others : list job -> list job) : M unit := fun w =>
  (Ok tt, {| db := others (db w); trace := trace w |}).

(** [Path / name]. *)
Definition path_join (dir name : string) : string :=
  dir ++ "/" ++ name.

(** [for x in xs: body x]. *)
Fixpoint for_each {A} (xs : list A) (body : A -> M unit) : M unit :=
  match xs with
  | [] => mret tt
  | x :: rest => body x;; for_each rest body
  end.

(** [range(n)]. *)
Definition range (n : Z) : list Z :=
  List.map Z.of_nat (List.seq 0 (Z.to_nat n)).

(** How a [Dict[str, int]] prints. *)
Definition format_counts (counts : list (string * Z)) : string :=
  "{" ++ join ", "
    (List.map (fun kv => "'" ++ fst kv ++ "': " ++ string_of_Z (snd kv)) counts)
  ++ "}".

End Sys.
Export Sys.

(* ===================================================================== *)
(** * The executor service: [src/nf-server/src/app.py]                    *)
(* ===================================================================== *)

Module V1.

(** [ResourceSpec]; the model allows extra fields and keeps them. *)
Record ResourceSpec := mk_ResourceSpec {
  cpu : option Z;
  ram : option Z;
  gpu : option Z;
  shape : option string;
  disk : option Z;
  extra : gmap string value
}.

Record StorageConfig := mk_StorageConfig {
  endpoint : option string;
  region : option string;
  bucket : option string;
  accessKey : option string;
  secretKey : option string;
  s3_workdir : option string
}.

Record JobSubmit := mk_JobSubmit {
  submit_command : string;
  submit_workdir : string;
  submit_env : gmap string string;
  submit_metadata : gmap string value;
  submit_resources : option ResourceSpec;
  submit_storage : option StorageConfig
}.

(** [resources.dict()]. *)
Definition ResourceSpec_dict (r : ResourceSpec) : gmap string value :=
  <["cpu" := of_opt_int (cpu r)]>
  (<["ram" := of_opt_int (ram r)]>
  (<["gpu" := of_opt_int (gpu r)]>
  (<["shape" := of_opt_str (shape r)]>
  (<["disk" := of_opt_int (disk r)]> (extra r))))).

Definition insert_some (key : string) (o : option string)
    (d : gmap string value) : gmap string value :=
  match o with
  | Some s => <[key := VStr s]> d
  | None => d
  end.

(** [storage.dict(exclude_none=True)]. *)
Definition StorageConfig_dict (c : StorageConfig) : gmap string value :=
  insert_some "endpoint" (endpoint c)
  (insert_some "region" (region c)
  (insert_some "bucket" (bucket c)
  (insert_some "accessKey" (accessKey c)
  (insert_some "secretKey" (secretKey c)
  (insert_some "s3_workdir" (s3_workdir c) ∅))))).

(** What [normalize_resources] is called with: a model instance, or a plain
    object ([None], or whatever [json.loads] gave). *)
Inductive resources_arg :=
| Model (r : ResourceSpec)
| Plain (v : value).

(** The inner [get_first]: the first key that is present with a value other
    than [None]. *)
Fixpoint get_first (data : gmap string value) (keys : list string) : value :=
  match keys with
  | [] => VNone
  | key :: rest =>
      match data !! key with
      | Some v => if is_none v then get_first data rest else v
      | None => get_first data rest
      end
  end.

Definition shape_keys : list string :=
  ["shape"; "gpushape"; "acceleratorshape"; "accelerator_shape"].

Definition disk_keys : list string :=
  ["disk"; "disk_size"; "disk_gb"; "image_boot_size"; "boot_disk";
   "bootdisk"; "bootdisk_size"].

Section Pure.
Context `{Runtime}.

Definition resources_data (resources : resources_arg)
    : result (gmap string value) :=
  match resources with
  | Model r => Ok (ResourceSpec_dict r)
  | Plain v => py_dict v
  end.

Definition normalize_resources (resources : resources_arg)
    : result (option ResourceSpec) :=
  match resources with
  | Plain VNone => Ok None
  | _ =>
      data ← resources_data resources;
      let gpu :=
        if negb (is_none (dict_get data "gpu")) then dict_get data "gpu"
        else dict_get data "acceleratornum" in
      let shape := get_first data shape_keys in
      let disk := get_first data disk_keys in
      cpu' ← validate_opt_int (dict_get data "cpu");
      ram' ← validate_opt_int (dict_get data "ram");
      gpu' ← validate_opt_int gpu;
      shape' ← validate_opt_str shape;
      disk' ← validate_opt_int disk;
      Ok (Some {| cpu := cpu'; ram := ram'; gpu := gpu'; shape := shape';
                  disk := disk'; extra := ∅ |})
  end.

Definition normalize_ram_gb (value : value) : result (option Z) :=
  match value with
  | VNone => Ok None
  | _ =>
      match py_float value with
      | Raise TypeError | Raise ValueError => Ok None
      | Raise e => Raise e
      | Ok ram =>
          if float_le_0 ram then Ok None
          else if float_gt ram 1000000 then
            ram' ← math_ceil (float_div ram (1024 ^ 3));
            Ok (Some ram')
          else
            ram' ← int_of_float ram;
            Ok (Some ram')
      end
  end.

End Pure.

(** ** Provisioning configuration *)

Record TFVarConfig := mk_TFVarConfig {
  tenancy_ocid : string;
  user_ocid : string;
  fingerprint : string;
  private_key_path : string;
  tf_region : string;
  compartment_id : string;
  subnet_id : string;
  tf_shape : string;
  ocpus : Z;
  memory_gbs : Z;
  image_boot_size : Z;
  cmd_script : string;
  env_vars : string;
  ssh_authorized_key : string;
  bastion_host : string;
  bastion_user : string;
  bastion_private_key_path : string;
  vm_private_key_path : string;
  name : string
}.

(** [cfg.model_dump(exclude_none=True)]; no field can be [None]. *)
Definition TFVarConfig_dump (c : TFVarConfig) : gmap string value :=
  list_to_map
    [("tenancy_ocid", VStr (tenancy_ocid c));
     ("user_ocid", VStr (user_ocid c));
     ("fingerprint", VStr (fingerprint c));
     ("private_key_path", VStr (private_key_path c));
     ("region", VStr (tf_region c));
     ("compartment_id", VStr (compartment_id c));
     ("subnet_id", VStr (subnet_id c));
     ("shape", VStr (tf_shape c));
     ("ocpus", VInt (ocpus c));
     ("memory_gbs", VInt (memory_gbs c));
     ("image_boot_size", VInt (image_boot_size c));
     ("cmd_script", VStr (cmd_script c));
     ("env_vars", VStr (env_vars c));
     ("ssh_authorized_key", VStr (ssh_authorized_key c));
     ("bastion_host", VStr (bastion_host c));
     ("bastion_user", VStr (bastion_user c));
     ("bastion_private_key_path", VStr (bastion_private_key_path c));
     ("vm_private_key_path", VStr (vm_private_key_path c));
     ("name", VStr (name c))].

(** The storage settings [build_tfvars] reads for one job. *)
Record s3_settings := mk_s3_settings {
  s3_bucket : string;
  s3_workdir_ : string;
  s3_endpoint : string;
  s3_region : string;
  s3_access : string;
  s3_secret : string
}.

Definition export_line (var val : string) : string :=
  "export " ++ var ++ "=" ++ dquote ++ val ++ dquote.

Definition env_lines (s : s3_settings) (nxf_command nxf_workdir : string)
    : list string :=
  [export_line "S3_ENDPOINT" (s3_endpoint s);
   export_line "S3_REGION" (s3_region s);
   export_line "S3_BUCKET" (s3_bucket s);
   export_line "S3_ACCESS_KEY" (s3_access s);
   export_line "S3_SECRET_KEY" (s3_secret s);
   export_line "S3_WORKDIR" (s3_workdir_ s);
   export_line "NXF_COMMAND" nxf_command;
   export_line "NXF_WORKDIR" nxf_workdir;
   export_line "NXF_S3_URI" ("s3:/" ++ s3_workdir_ s)].

Definition marker_ok : string :=
  "echo " ++ dquote ++ "ok" ++ dquote ++ " > ok.txt".

Definition marker_done : string :=
  "echo " ++ dquote ++ "done" ++ dquote ++ " > /var/run/bootstrap.done".

(** The template of the branch taken when endpoint and bucket are both
    non-empty. *)
Definition storage_template (s : s3_settings) (env_vars nxf_command : string)
    : string :=
  let s3_url := "s3:/" ++ s3_workdir_ s in
  let localdir := s3_workdir_ s in
  nl ++ unlines
    ["#!/bin/bash";
     "set -euo pipefail";
     env_vars;
     "export AWS_ACCESS_KEY_ID=" ++ s3_access s;
     "export AWS_SECRET_ACCESS_KEY=" ++ s3_secret s;
     "export AWS_DEFAULT_REGION=" ++ s3_region s;
     "export AWS_S3_FORCE_PATH_STYLE=1";
     "mkdir -p " ++ localdir;
     "cd " ++ localdir;
     "aws --endpoint-url " ++ s3_endpoint s ++ " s3 sync " ++ s3_url ++ "/ "
       ++ localdir ++ "/";
     "echo " ++ nxf_command ++ " ";
     "eval " ++ nxf_command;
     marker_ok;
     "aws --endpoint-url " ++ s3_endpoint s ++ " s3 sync " ++ localdir ++ "/ "
       ++ s3_url ++ "/";
     marker_done].

(** The template of the other branch. *)
Definition plain_template (env_vars nxf_command nxf_workdir : string)
    : string :=
  nl ++ unlines
    ["#!/bin/bash";
     "set -euo pipefail";
     env_vars;
     "cd " ++ nxf_workdir;
     "echo " ++ nxf_command ++ " ";
     "eval " ++ nxf_command;
     marker_ok;
     marker_done].

Definition make_cmd_script (s : s3_settings)
    (env_vars nxf_command nxf_workdir : string) : string :=
  if negb (String.eqb (s3_endpoint s) "") && negb (String.eqb (s3_bucket s) "")
  then strip (storage_template s env_vars nxf_command)
  else strip (plain_template env_vars nxf_command nxf_workdir).

Record JobStatus := mk_JobStatus {
  js_job_id : string;
  js_status : string;
  js_returncode : option Z;
  js_stdout : option string;
  js_stderr : option string;
  js_metadata : gmap string value;
  js_resources : option ResourceSpec
}.

Section Service.
Context `{Runtime}.

(** The inner [as_int]. *)
Definition as_int (val : value) (fallback : Z) : Z :=
  match py_int val with
  | Ok z => z
  | Raise _ => fallback
  end.

(** [x or ""] on a nullable text column. *)
Definition text_or (o : option string) (dflt : string) : string :=
  match o with
  | Some s => if String.eqb s "" then dflt else s
  | None => dflt
  end.

(** The [metadata] of a row as [build_tfvars] decodes it. *)
Definition row_metadata (row : job) : value :=
  match json_loads (text_or (metadata row) "{}") with
  | Some v => v
  | None => VDict ∅
  end.

(** [metadata.get("storage") or {}]. *)
Definition row_storage (row : job) : result value :=
  st ← py_get (row_metadata row) "storage";
  Ok (py_or st (VDict ∅)).

(** The six [s3_*] strings. *)
Definition read_storage (storage : value) (row : job) : result s3_settings :=
  bucket ← py_get storage "bucket";
  workdir_ ← py_get storage "s3_workdir";
  endpoint ← py_get storage "endpoint";
  region ← py_get storage "region";
  access ← py_get storage "accessKey";
  secret ← py_get storage "secretKey";
  Ok {| s3_bucket := py_str (py_or bucket (VStr ""));
        s3_workdir_ :=
          py_str (py_or (py_or workdir_ (VStr (workdir row))) (VStr ""));
        s3_endpoint := py_str (py_or endpoint (VStr ""));
        s3_region := py_str (py_or region (VStr "us-east-1"));
        s3_access := py_str (py_or access (VStr ""));
        s3_secret := py_str (py_or secret (VStr "")) |}.

(** [os.getenv(first) or os.getenv(second, "")]. *)
Definition getenv_or (h : host) (first second : string) : string :=
  match getenv h first with
  | Some s => if String.eqb s "" then getenv_default h second "" else s
  | None => getenv_default h second ""
  end.

(** The resources of a row: parsed and normalized, or [None] with a log
    line when either step raises. *)
Definition row_resources (job_id : string) (row : job)
    : M (option ResourceSpec) :=
  match resources row with
  | None => mret None
  | Some raw =>
      if String.eqb raw "" then mret None
      else
        let parsed :=
          match json_loads raw with
          | Some resources_dict => normalize_resources (Plain resources_dict)
          | None => Raise ValueError
          end in
        match parsed with
        | Ok resources_obj => mret resources_obj
        | Raise exc =>
            log ("[executor] unable to parse resources for job " ++ job_id
                 ++ ": " ++ exn_str exc);;
            mret None
        end
  end.

Definition build_tfvars (h : host) (job_id : string) (row : job)
    (name : string) : M (gmap string value) :=
  storage ← lift (row_storage row);
  resources_obj ← row_resources job_id row;
  let tenancy := getenv_default h "TF_VAR_tenancy_ocid" "" in
  let user := getenv_default h "TF_VAR_user_ocid" "" in
  let fingerprint := getenv_default h "TF_VAR_fingerprint" "" in
  let region := getenv_default h "TF_VAR_region" "" in
  let key_file := getenv_default h "TF_VAR_private_key_path" "" in
  let shape_default := getenv_default h "DEFAULT_SHAPE" "VM.Standard.E3.Flex" in
  cpu_default ← lift (py_int (VStr (getenv_default h "DEFAULT_OCPU" "1")));
  ram_default ← lift (py_int (VStr (getenv_default h "DEFAULT_MEMORY_IN_GB" "2")));
  boot_default ← lift (py_int (VStr (getenv_default h "DEFAULT_BOOTDISK_IN_GB" "1024")));
  '(shape, cpu, ram, boot) ←
    match resources_obj with
    | Some r =>
        ram_norm ← lift (normalize_ram_gb (of_opt_int (V1.ram r)));
        mret (text_or (V1.shape r) shape_default,
              as_int (of_opt_int (V1.cpu r)) cpu_default,
              as_int (of_opt_int ram_norm) ram_default,
              as_int (of_opt_int (V1.disk r)) boot_default)
    | None => mret (shape_default, cpu_default, ram_default, boot_default)
    end;
  s3 ← lift (read_storage storage row);
  let nxf_command := text_or (Some (command row)) "bash .command.run" in
  let nxf_workdir := text_or (Some (workdir row)) "/opt/nxf-work" in
  log ("[executor] job " ++ job_id ++ " resources shape=" ++ shape
       ++ " cpu=" ++ string_of_Z cpu ++ " ram=" ++ string_of_Z ram
       ++ " boot=" ++ string_of_Z boot);;
  log ("[executor] job " ++ job_id ++ " storage: endpoint=" ++ s3_endpoint s3
       ++ " region=" ++ s3_region s3 ++ " bucket=" ++ s3_bucket s3
       ++ " s3_workdir=" ++ s3_workdir_ s3);;
  let env_vars := join nl (env_lines s3 nxf_command nxf_workdir) in
  let cmd_script := make_cmd_script s3 env_vars nxf_command nxf_workdir in
  let bastion_user := getenv_or h "TF_VAR_bastion_user" "BASTION_USER" in
  let cfg :=
    {| tenancy_ocid := tenancy;
       user_ocid := user;
       fingerprint := fingerprint;
       private_key_path := expanduser key_file;
       tf_region := region;
       compartment_id :=
         getenv_default h "COMPARTMENT_ID"
           (getenv_default h "TF_VAR_compartment_id" "");
       subnet_id :=
         getenv_default h "SUBNET_ID" (getenv_default h "TF_VAR_subnet_id" "");
       tf_shape := shape;
       ocpus := cpu;
       memory_gbs := ram;
       image_boot_size := boot;
       cmd_script := cmd_script;
       env_vars := env_vars;
       ssh_authorized_key := getenv_default h "TF_VAR_ssh_authorized_key" "";
       bastion_host := getenv_or h "TF_VAR_bastion_host" "BASTION_IP";
       bastion_user :=
         if String.eqb bastion_user "" then "opc" else bastion_user;
       bastion_private_key_path :=
         getenv_or h "TF_VAR_bastion_private_key_path" "BASTION_SSH_KEY";
       vm_private_key_path :=
         expanduser
           (getenv_or h "TF_VAR_vm_private_key_path" "VM_SSH_PRIVATE_KEY_PATH");
       name := name |} in
  mret (TFVarConfig_dump cfg).


(** ** Store access *)

(** The row [_insert_job] writes; [now] is the store's clock, which gives
    [created_at] its default. *)
Definition queued_row (now : Z) (job_id : string) (submit : JobSubmit) : job :=
  let metadata := submit_metadata submit in
  let metadata :=
    match submit_storage submit with
    | Some storage =>
        match metadata !! "storage" with
        | Some _ => metadata
        | None => <["storage" := VDict (StorageConfig_dict storage)]> metadata
        end
    | None => metadata
    end in
  {| job_id := job_id;
     status := "queued";
     command := submit_command submit;
     workdir := submit_workdir submit;
     env := Some (json_dumps (VDict (VStr <$> submit_env submit)));
     metadata := Some (json_dumps (VDict metadata));
     resources :=
       Some (json_dumps
               (VDict (match submit_resources submit with
                       | Some r => ResourceSpec_dict r
                       | None => ∅
                       end)));
     returncode := None;
     stdout := None;
     stderr := None;
     pid := None;
     created_at := now |}.

Definition _insert_job (now : Z) (job_id : string) (submit : JobSubmit)
    : M unit :=
  t ← get_db;
  t' ← lift (sql_insert (queued_row now job_id submit) t);
  put_db t'.

Definition _fetch_job (job_id : string) : M (option job) :=
  t ← get_db;
  mret (select_by_id job_id t).

Definition reset_running_jobs_to_failed : M Z :=
  affected ← execute_update (has_status "running") (set_status "failed");
  (if negb (affected =? 0) then
     log ("[db] reset " ++ string_of_Z affected
          ++ " running jobs to failed on startup")
   else mret tt);;
  mret affected.

Definition get_job_status_counts (h : host) : M (list (string * Z)) :=
  t ← get_db;
  let count s := (s, count_status s t) in
  u_worker_env ← lift (py_int (of_opt_str (getenv h "UVICORN_WORKERS")));
  e_worker_env ← lift (py_int (of_opt_str (getenv h "EXECUTOR_WORKERS")));
  let worker_env := u_worker_env * e_worker_env in
  mret [count "running"; count "queued"; count "finished"; count "failed";
        ("workers", worker_env)].

(** The first statement of a claim attempt: the id of the oldest queued
    row. *)
Definition claim_select (t : list job) : option string :=
  job_id <$> select_oldest "queued" t.

(** The second statement: the conditional update. *)
Definition claim_update (job_id : string) (t : list job) : list job * Z :=
  sql_update (fun j => has_id job_id j && has_status "queued" j)
    (set_status "running") t.

(** The two statements of one claim attempt, and between them whatever the
    other connections do. *)
Definition _claim_next_job_id (others : list job -> list job)
    : M (option string) :=
  t ← get_db;
  match claim_select t with
  | None => mret None
  | Some job_id =>
      interleave others;;
      t ← get_db;
      let '(t', rowcount) := claim_update job_id t in
      put_db t';;
      if rowcount =? 0 then mret None else mret (Some job_id)
  end.

Definition _update_job_after_run (job_id : string) (returncode : Z)
    (stdout stderr status : string) : M unit :=
  _ ← execute_update (has_id job_id) (set_outcome returncode stdout stderr status);
  log ("job " ++ job_id ++ " status changed " ++ status).

(** ** The provisioning pipeline *)

Definition _run_job_sync (h : host) (work_id : Z) (job_id : string)
    : M (Z * string * string) :=
  row ← _fetch_job job_id;
  match row with
  | None =>
      let err := "[executor] job " ++ job_id ++ " not found in DB" in
      log err;;
      mret (1, "", err)
  | Some row =>
      let name := format_05d work_id ++ "-" ++ take_prefix 8 job_id in
      let script_dir := path_join (app_dir h) "oci" in
      let script_path := path_join script_dir "autorun.sh" in
      if negb (autorun_present h) then
        let err := "[executor] autorun script not found at " ++ script_path in
        log err;;
        mret (1, "", err)
      else
        let run_base := getenv_default h "BOT_RUN_BASE_DIR" "/opt/bot" in
        let run_dir := path_join run_base (".bot" ++ name) in
        call h (Mkdir run_dir);;
        tfvars ← build_tfvars h job_id row name;
        let tfvars_path := path_join run_dir "tfvars.json" in
        call h (WriteText tfvars_path (json_dumps_indent 2 (VDict tfvars)));;
        for_each (tf_files h) (fun f =>
          call h (CopyFile (path_join script_dir f) (path_join run_dir f)));;
        for_each (yml_files h) (fun f =>
          call h (CopyFile (path_join script_dir f) (path_join run_dir f)));;
        let cmd_script_content :=
          py_str (py_or (dict_get tfvars "cmd_script") (VStr "")) in
        let cmd_script_path := path_join run_dir "cmd_script.sh" in
        cmd_script_content ←
          (if negb (String.eqb cmd_script_content "") then
             let content :=
               if ends_with_char "010"%char cmd_script_content
               then cmd_script_content
               else cmd_script_content ++ nl in
             call h (WriteText cmd_script_path content);;
             log ("[executor] job " ++ job_id ++ " wrote cmd_script.sh to "
                  ++ cmd_script_path);;
             mret content
           else
             log ("[executor] job " ++ job_id
                  ++ " has empty cmd_script; no cmd_script.sh written");;
             mret cmd_script_content);
        log ("[executor] job " ++ job_id ++ " cmd_script:" ++ nl
             ++ cmd_script_content);;
        let header :=
          "[executor] job " ++ job_id ++ nl ++ "cmd_script:" ++ nl
          ++ cmd_script_content in
        let stdout_parts := [header] in
        let stderr_parts := [header] in
        let apply_cmd :=
          ["bash"; script_path; run_dir; "apply"; tfvars_path] in
        log ("[executor] job " ++ job_id ++ " applying infra via "
             ++ py_repr (VList (List.map VStr apply_cmd)) ++ nl
             ++ cmd_script_content);;
        call h (Run apply_cmd script_dir);;
        let apply_proc := run h apply_cmd script_dir in
        let stdout_parts := (stdout_parts ++ [proc_stdout apply_proc])%list in
        let success := proc_returncode apply_proc =? 0 in
        let status := if success then "finished" else "failed" in
        let failure_note :=
          "[executor] autorun apply failed (code "
          ++ string_of_Z (proc_returncode apply_proc) ++ ")" ++ nl in
        let stderr_parts :=
          if negb success then (stderr_parts ++ [failure_note])%list
          else stderr_parts in
        log ("[executor] job " ++ job_id ++ " autorun apply " ++ status);;
        let destroy_cmd :=
          ["bash"; script_path; run_dir; "destroy"; tfvars_path] in
        emit (Popen destroy_cmd script_dir);;
        match popen h destroy_cmd script_dir with
        | None =>
            log ("[executor] job " ++ job_id
                 ++ " started background destroy via "
                 ++ py_repr (VList (List.map VStr destroy_cmd)))
        | Some e =>
            log ("[executor] job " ++ job_id
                 ++ " destroy encountered error: " ++ e)
        end;;
        mret (if success then 0 else 1,
              join "" stdout_parts, join "" stderr_parts)
  end.

Definition _claim_and_run_next_job (h : host)
    (others : list job -> list job) (work_id : Z) : M bool :=
  job_id ← _claim_next_job_id others;
  match job_id with
  | None => mret false
  | Some job_id =>
      if String.eqb job_id "" then mret false
      else
        '(returncode, stdout, stderr) ← _run_job_sync h work_id job_id;
        let status := if returncode =? 0 then "finished" else "failed" in
        _update_job_after_run job_id returncode stdout stderr status;;
        log ("[executor] job " ++ job_id ++ " finished status=" ++ status);;
        mret true
  end.

(** One turn of the unbounded loop of [worker_loop]. *)
Definition worker_loop_turn (h : host) (others : list job -> list job)
    (worker_id : Z) : M unit :=
  processed ←
    try_except (_claim_and_run_next_job h others worker_id)
      (fun e =>
         log ("[worker-" ++ string_of_Z worker_id ++ "] exception: "
              ++ exn_str e);;
         mret false);
  if negb processed then emit (Sleep 5) else mret tt.

(** [start_workers], after [init_db] has made sure the table exists. *)
Definition start_workers (h : host) : M unit :=
  _ ← reset_running_jobs_to_failed;
  match getenv h "EXECUTOR_WORKERS" with
  | None =>
      raise (RuntimeError "EXECUTOR_WORKERS environment variable must be set")
  | Some worker_env =>
      if String.eqb worker_env "" then
        raise (RuntimeError "EXECUTOR_WORKERS environment variable must be set")
      else
        worker_count ← lift (py_int (VStr worker_env));
        for_each (range worker_count) (fun i => emit (StartThread i));;
        counts ← get_job_status_counts h;
        log ("[executor] start with " ++ format_counts counts)
  end.

Definition output_visible (status : string) : bool :=
  String.eqb status "finished" || String.eqb status "failed"
  || String.eqb status "killed".

Definition _get_job_status (h : host) (job_id : string) : M JobStatus :=
  row ← _fetch_job job_id;
  match row with
  | None => raise (HTTPException 404 "Job not found")
  | Some row =>
      let status := text_or (Some (status row)) "queued" in
      let stdout := if output_visible status then stdout row else None in
      let stderr := if output_visible status then stderr row else None in
      let metadata := row_metadata row in
      let resources_dict :=
        match resources row with
        | Some raw =>
            if String.eqb raw "" then VNone
            else default VNone (json_loads raw)
        | None => VNone
        end in
      resources ←
        (if truthy resources_dict
         then lift (normalize_resources (Plain resources_dict))
         else mret None);
      counts ← get_job_status_counts h;
      log ("[api] status request for job " ++ take_prefix 8 job_id
           ++ ", status " ++ status ++ ", gateway: " ++ format_counts counts);;
      match metadata with
      | VDict metadata =>
          mret {| js_job_id := job_id; js_status := status;
                  js_returncode := returncode row; js_stdout := stdout;
                  js_stderr := stderr; js_metadata := metadata;
                  js_resources := resources |}
      | _ => raise ValidationError
      end
  end.

(** [kill_job]: nothing happens to a job without a recorded pid; otherwise
    the job is [killed] when the signal could be sent and [failed], with the
    exception appended to [stderr], when it could not. *)
Definition kill_job (h : host) (job_id : string) : M JobStatus :=
  log ("[api] kill request for job " ++ job_id);;
  row ← _fetch_job job_id;
  match row with
  | None => raise (HTTPException 404 "Job not found")
  | Some row =>
      match pid row with
      | None => mret tt
      | Some pid_raw =>
          if pid_raw =? 0 then mret tt
          else
            emit (SigTerm pid_raw);;
            match os_kill h pid_raw with
            | None =>
                _ ← execute_update (has_id job_id) (set_status "killed");
                mret tt
            | Some e =>
                let prev_err :=
                  text_or (stderr row) "" ++ nl ++ "[kill] exception: " ++ e in
                _ ← execute_update (has_id job_id)
                      (set_status_stderr "failed" prev_err);
                mret tt
            end
      end;;
      _get_job_status h job_id
  end.

(** ** Connections racing on the table

    Every statement is committed on its own, so what several worker threads
    and API requests do to the table is an interleaving of single
    statements.  A worker is between the two statements of a claim attempt
    when it has selected a job id and not yet run the update. *)

Inductive pc :=
| Idle
| Selected (job_id : string).

Inductive statement :=
| StInsert (now : Z) (job_id : string) (submit : JobSubmit)
| StReset
| StClaimSelect (worker : Z)
| StClaimUpdate (worker : Z)
| StAfterRun (job_id : string) (returncode : Z) (stdout stderr : string)
| StKilled (job_id : string)
| StKillFailed (job_id : string) (prev_err : string).

(** The table, where each worker stands, and the claims that have returned
    a job id so far (worker, job id), oldest first. *)
Record system := mk_system {
  table : list job;
  workers : gmap Z pc;
  claimed : list (Z * string)
}.

Definition start (t : list job) : system :=
  {| table := t; workers := ∅; claimed := [] |}.

Definition worker_pc (s : system) (worker : Z) : pc :=
  default Idle (workers s !! worker).

(** One statement; [None] when the worker named is not at that point of
    its claim attempt. *)
Definition exec (st : statement) (s : system) : option system :=
  match st with
  | StInsert now job_id submit =>
      let t' :=
        match sql_insert (queued_row now job_id submit) (table s) with
        | Ok t' => t'
        | Raise _ => table s
        end in
      Some {| table := t'; workers := workers s; claimed := claimed s |}
  | StReset =>
      Some {| table :=
                fst (sql_update (has_status "running") (set_status "failed")
                       (table s));
              workers := workers s; claimed := claimed s |}
  | StClaimSelect worker =>
      match worker_pc s worker with
      | Idle =>
          match claim_select (table s) with
          | Some job_id =>
              Some {| table := table s;
                      workers := <[worker := Selected job_id]> (workers s);
                      claimed := claimed s |}
          | None => Some s
          end
      | Selected _ => None
      end
  | StClaimUpdate worker =>
      match worker_pc s worker with
      | Selected job_id =>
          let '(t', rowcount) := claim_update job_id (table s) in
          Some {| table := t';
                  workers := <[worker := Idle]> (workers s);
                  claimed :=
                    if rowcount =? 0 then claimed s
                    else (claimed s ++ [(worker, job_id)])%list |}
      | Idle => None
      end
  | StAfterRun job_id returncode stdout stderr =>
      let status := if returncode =? 0 then "finished" else "failed" in
      Some {| table :=
                fst (sql_update (has_id job_id)
                       (set_outcome returncode stdout stderr status) (table s));
              workers := workers s; claimed := claimed s |}
  | StKilled job_id =>
      Some {| table :=
                fst (sql_update (has_id job_id) (set_status "killed") (table s));
              workers := workers s; claimed := claimed s |}
  | StKillFailed job_id prev_err =>
      Some {| table :=
                fst (sql_update (has_id job_id)
                       (set_status_stderr "failed" prev_err) (table s));
              workers := workers s; claimed := claimed s |}
  end.

(** A schedule, statement after statement. *)
Fixpoint run_schedule (schedule : list statement) (s : system)
    : option system :=
  match schedule with
  | [] => Some s
  | st :: rest =>
      match exec st s with
      | Some s' => run_schedule rest s'
      | None => None
      end
  end.

End Service.
End V1.

(* ===================================================================== *)
(** * The gateway service: [src/nf-server/v2/src/gateway/app.py]          *)
(* ===================================================================== *)

Module V2.

(** [ResourceSpec]; [accelerator] defaults to [0] when a model is built
    without it, and extra fields are kept. *)
Record ResourceSpec := mk_ResourceSpec {
  cpu : option Z;
  ram : option Z;
  accelerator : option Z;
  shape : option string;
  disk : option Z;
  extra : gmap string value
}.

Record JobStatus := mk_JobStatus {
  js_job_id : string;
  js_status : string;
  js_returncode : option Z;
  js_stdout : option string;
  js_stderr : option string;
  js_metadata : gmap string value;
  js_resources : option ResourceSpec
}.

(** [resources.dict()]. *)
Definition ResourceSpec_dict (r : ResourceSpec) : gmap string value :=
  <["cpu" := of_opt_int (cpu r)]>
  (<["ram" := of_opt_int (ram r)]>
  (<["accelerator" := of_opt_int (accelerator r)]>
  (<["shape" := of_opt_str (shape r)]>
  (<["disk" := of_opt_int (disk r)]> (extra r))))).

Inductive resources_arg :=
| Model (r : ResourceSpec)
| Plain (v : value).

(** The inner [get_first]. *)
Fixpoint get_first (data : gmap string value) (keys : list string) : value :=
  match keys with
  | [] => VNone
  | key :: rest =>
      match data !! key with
      | Some v => if is_none v then get_first data rest else v
      | None => get_first data rest
      end
  end.

Definition shape_keys : list string :=
  ["acceleratorShape"; "acceleratorshape"; "accelerator_shape"; "shape";
   "gpushape"].

Definition disk_keys : list string :=
  ["disk"; "disk_size"; "disk_gb"; "image_boot_size"; "boot_disk";
   "bootdisk"; "bootdisk_size"].

Section Service.
Context `{Runtime}.

Definition resources_data (resources : resources_arg)
    : result (gmap string value) :=
  match resources with
  | Model r => Ok (ResourceSpec_dict r)
  | Plain v => py_dict v
  end.

(** The three assignments to [accelerator_raw]. *)
Definition accelerator_raw (data : gmap string value) : value :=
  let raw := dict_get data "accelerator" in
  let raw := if is_none raw then dict_get data "gpu" else raw in
  let raw := if is_none raw then dict_get data "acceleratornum" else raw in
  raw.

(** [int(raw) if raw is not None else 0], and [0] when [int] raises. *)
Definition accelerator_count (raw : value) : Z :=
  if is_none raw then 0
  else
    match py_int raw with
    | Ok z => z
    | Raise _ => 0
    end.

Definition normalize_resources (resources : resources_arg)
    : result (option ResourceSpec) :=
  match resources with
  | Plain VNone => Ok None
  | _ =>
      data ← resources_data resources;
      let accelerator := accelerator_count (accelerator_raw data) in
      let shape := get_first data shape_keys in
      let disk := get_first data disk_keys in
      cpu' ← validate_opt_int (dict_get data "cpu");
      ram' ← validate_opt_int (dict_get data "ram");
      accelerator' ← validate_opt_int (VInt accelerator);
      shape' ← validate_opt_str shape;
      disk' ← validate_opt_int disk;
      Ok (Some {| cpu := cpu'; ram := ram'; accelerator := accelerator';
                  shape := shape'; disk := disk'; extra := ∅ |})
  end.

(** Kept for compatibility only; the gateway never calls it. *)
Definition normalize_ram_gb (value : value) : result (option Z) :=
  Ok None.

Definition text_or (o : option string) (dflt : string) : string :=
  match o with
  | Some s => if String.eqb s "" then dflt else s
  | None => dflt
  end.

Definition _fetch_job (job_id : string) : M (option job) :=
  t ← get_db;
  mret (select_by_id job_id t).

Definition reset_running_jobs_to_failed : M Z :=
  affected ← execute_update (has_status "running") (set_status "failed");
  (if negb (affected =? 0) then
     log ("[db] reset " ++ string_of_Z affected
          ++ " running jobs to failed on startup")
   else mret tt);;
  mret affected.

Definition get_job_status_counts : M (list (string * Z)) :=
  t ← get_db;
  let count s := (s, count_status s t) in
  mret [count "running"; count "queued"; count "pending"; count "finished";
        count "failed"; count "killing"; count "killed"; count "cleaned"].

Definition output_visible (status : string) : bool :=
  String.eqb status "finished" || String.eqb status "failed"
  || String.eqb status "killed" || String.eqb status "cleaned".

Definition _get_job_status (job_id : string) : M JobStatus :=
  row ← _fetch_job job_id;
  match row with
  | None => raise (HTTPException 404 "Job not found")
  | Some row =>
      let status := text_or (Some (status row)) "queued" in
      let stdout := if output_visible status then stdout row else None in
      let stderr := if output_visible status then stderr row else None in
      let metadata :=
        match json_loads (text_or (metadata row) "{}") with
        | Some v => v
        | None => VDict ∅
        end in
      let resources_dict :=
        match resources row with
        | Some raw =>
            if String.eqb raw "" then VNone
            else default VNone (json_loads raw)
        | None => VNone
        end in
      resources ←
        (if truthy resources_dict
         then lift (normalize_resources (Plain resources_dict))
         else mret None);
      counts ← get_job_status_counts;
      log ("[api] job " ++ take_prefix 8 job_id ++ " status " ++ status
           ++ ", " ++ format_counts counts);;
      match metadata with
      | VDict metadata =>
          mret {| js_job_id := job_id; js_status := status;
                  js_returncode := returncode row; js_stdout := stdout;
                  js_stderr := stderr; js_metadata := metadata;
                  js_resources := resources |}
      | _ => raise ValidationError
      end
  end.

(** [kill_job]: mark the job as [killing], whatever it was. *)
Definition kill_job (job_id : string) : M JobStatus :=
  log ("[api] kill request for job " ++ job_id);;
  row ← _fetch_job job_id;
  match row with
  | None => raise (HTTPException 404 "Job not found")
  | Some _ =>
      _ ← execute_update (has_id job_id) (set_status "killing");
      counts ← get_job_status_counts;
      log ("[executor] gateway ready: " ++ format_counts counts);;
      _get_job_status job_id
  end.

(** [start_workers], after [init_db] has made sure the table exists. *)
Definition start_workers : M unit :=
  _ ← reset_running_jobs_to_failed;
  counts ← get_job_status_counts;
  log ("[executor] gateway ready: " ++ format_counts counts).

End Service.
End V2.

(* ===================================================================== *)
(** * Vocabulary of the statements below                                  *)
(* ===================================================================== *)

(** The rows the conditional update of a claim on [id] matches. *)
Definition claimable (id : string) (j : job) : bool :=
  has_id id j && has_status "queued" j.

(** A [SET] clause that keeps the key and never writes [queued]. *)
Definition leaves_queue (set_ : job -> job) : Prop :=
  forall j, job_id (set_ j) = job_id j /\ status (set_ j) <> "queued".

(** A computation that reads the table at most: it leaves the table as it
    found it and only adds to the trace. *)
Definition reads_only {A} (m : M A) : Prop :=
  forall w, exists r later,
    m w = (r, {| db := db w; trace := (trace w ++ later)%list |}).

(** Two rows that differ in [status] at most. *)
Definition same_but_status (j j' : job) : Prop :=
  job_id j' = job_id j /\ command j' = command j /\ workdir j' = workdir j
  /\ env j' = env j /\ metadata j' = metadata j /\ resources j' = resources j
  /\ returncode j' = returncode j /\ stdout j' = stdout j
  /\ stderr j' = stderr j /\ pid j' = pid j /\ created_at j' = created_at j.

(** What the reconciliation statement makes of a table. *)
Definition reconciled (t : list job) : list job :=
  List.map (fun j => if has_status "running" j then set_status "failed" j else j)
    t.

(** While a job waits or runs it has no [returncode] yet. *)
Definition unfinished_without_returncode (j : job) : Prop :=
  status j = "queued" \/ status j = "running" -> returncode j = None.

(** First match wins: the value of the first key of an ordered list that
    the object carries with a value other than [None]. *)
Fixpoint first_match (data : gmap string value) (keys : list string)
    : option value :=
  match keys with
  | [] => None
  | key :: rest =>
      match data !! key with
      | Some VNone | None => first_match data rest
      | Some v => Some v
      end
  end.

(** The precedence of the accelerator count at the gateway, and at the
    executor. *)
Definition accelerator_precedence : list string :=
  ["accelerator"; "gpu"; "acceleratornum"].

Definition gpu_precedence : list string := ["gpu"; "acceleratornum"].

(** What [normalize_resources] answered, handed to it once more. *)
Definition again_v1 (o : option V1.ResourceSpec) : V1.resources_arg :=
  match o with
  | Some r => V1.Model r
  | None => V1.Plain VNone
  end.

Definition again_v2 (o : option V2.ResourceSpec) : V2.resources_arg :=
  match o with
  | Some r => V2.Model r
  | None => V2.Plain VNone
  end.

(** The steps that move data between the object store and the local
    directory, as the generated script spells them. *)
Definition sync_in_step (s : V1.s3_settings) : string :=
  "aws --endpoint-url " ++ V1.s3_endpoint s ++ " s3 sync "
  ++ ("s3:/" ++ V1.s3_workdir_ s) ++ "/ " ++ V1.s3_workdir_ s ++ "/".

Definition sync_out_step (s : V1.s3_settings) : string :=
  "aws --endpoint-url " ++ V1.s3_endpoint s ++ " s3 sync "
  ++ V1.s3_workdir_ s ++ "/ " ++ ("s3:/" ++ V1.s3_workdir_ s) ++ "/".

(** The lines of the script with object storage, and without. *)
Definition storage_script_lines (s : V1.s3_settings)
    (nxf_command nxf_workdir : string) : list string :=
  List.app ["#!/bin/bash"; "set -euo pipefail"]
   (List.app (V1.env_lines s nxf_command nxf_workdir)
      ["export AWS_ACCESS_KEY_ID=" ++ V1.s3_access s;
       "export AWS_SECRET_ACCESS_KEY=" ++ V1.s3_secret s;
       "export AWS_DEFAULT_REGION=" ++ V1.s3_region s;
       "export AWS_S3_FORCE_PATH_STYLE=1";
       "mkdir -p " ++ V1.s3_workdir_ s;
       "cd " ++ V1.s3_workdir_ s;
       sync_in_step s;
       "echo " ++ nxf_command ++ " ";
       "eval " ++ nxf_command;
       V1.marker_ok;
       sync_out_step s;
       V1.marker_done]).

Definition plain_script_lines (s : V1.s3_settings)
    (nxf_command nxf_workdir : string) : list string :=
  List.app ["#!/bin/bash"; "set -euo pipefail"]
   (List.app (V1.env_lines s nxf_command nxf_workdir)
      ["cd " ++ nxf_workdir;
       "echo " ++ nxf_command ++ " ";
       "eval " ++ nxf_command;
       V1.marker_ok;
       V1.marker_done]).

(** A line the generator wrote to run the storage tool. *)
Definition is_sync_step (line : string) : bool :=
  String.prefix "aws " line.

(** The names [_run_job_sync] gives to a job's run directory and to the
    two command lines it builds. *)
Definition job_name (work_id : Z) (job_id : string) : string :=
  format_05d work_id ++ "-" ++ take_prefix 8 job_id.

Definition script_dir (h : host) : string := path_join (app_dir h) "oci".

Definition run_dir (h : host) (work_id : Z) (job_id : string) : string :=
  path_join (getenv_default h "BOT_RUN_BASE_DIR" "/opt/bot")
    (".bot" ++ job_name work_id job_id).

Definition autorun_cmd (h : host) (work_id : Z) (job_id mode : string)
    : list string :=
  ["bash"; path_join (script_dir h) "autorun.sh"; run_dir h work_id job_id;
   mode; path_join (run_dir h work_id job_id) "tfvars.json"].

(** How the apply step of a job turns out on a host. *)
Definition apply_proc (h : host) (work_id : Z) (job_id : string) : completed :=
  run h (autorun_cmd h work_id job_id "apply") (script_dir h).

(** The script as it is written to [cmd_script.sh] and quoted in the
    outputs. *)
Definition script_content `{Runtime} (tfvars : gmap string value) : string :=
  let content := py_str (py_or (dict_get tfvars "cmd_script") (VStr "")) in
  if negb (String.eqb content "") && negb (ends_with_char "010"%char content)
  then content ++ nl
  else content.

(** What both outputs of a job start with. *)
Definition output_header (job_id content : string) : string :=
  "[executor] job " ++ job_id ++ nl ++ "cmd_script:" ++ nl ++ content.

(** The line added to the error output when apply fails. *)
Definition failure_note (code : Z) : string :=
  "[executor] autorun apply failed (code " ++ string_of_Z code ++ ")" ++ nl.

(** The same host, except for what happens when destroy is launched. *)
Definition with_popen (h : host) (p : list string -> string -> option string)
    : host :=
  {| getenv := getenv h; app_dir := app_dir h;
     autorun_present := autorun_present h; tf_files := tf_files h;
     yml_files := yml_files h; fails := fails h; run := run h; popen := p;
     os_kill := os_kill h |}.

(** A character of one byte that is not white space. *)
Definition solid (c : ascii) : bool :=
  negb (is_space c) && (nat_of_ascii c <? 128)%nat.

(** The launch of a subprocess that is not waited for. *)
Definition is_popen (e : event) : bool :=
  match e with
  | Popen _ _ => true
  | _ => false
  end.

(** The calls of a run that may raise. *)
Definition is_call (e : event) : bool :=
  match e with
  | Mkdir _ | WriteText _ _ | CopyFile _ _ | Run _ _ => true
  | _ => false
  end.

(** None of the calls among [events] raises on [h]. *)
Definition go_through (h : host) (events : list event) : Prop :=
  Forall (fun e => is_call e = true -> fails h e = None) events.

(** A storage setting as the metadata of a job gives it: the text stored
    under [key], or [dflt] when there is none or it is empty. *)
Definition stored_text (storage : gmap string value) (key dflt : string)
    : string :=
  match storage !! key with
  | Some (VStr v) => if String.eqb v "" then dflt else v
  | _ => dflt
  end.

(** The six settings a storage section can carry, and a section whose
    settings are texts or null, as the section of a submission is. *)
Definition storage_keys : list string :=
  ["bucket"; "s3_workdir"; "endpoint"; "region"; "accessKey"; "secretKey"].

Definition text_valued (storage : gmap string value) : bool :=
  forallb
    (fun key =>
       match storage !! key with
       | Some (VStr _) | Some VNone | None => true
       | Some _ => false
       end)
    storage_keys.

(** The storage settings of a job, read off the storage section of its
    metadata. *)
Definition settings_of (storage : gmap string value) (row : job)
    : V1.s3_settings :=
  {| V1.s3_bucket := stored_text storage "bucket" "";
     V1.s3_workdir_ := stored_text storage "s3_workdir" (workdir row);
     V1.s3_endpoint := stored_text storage "endpoint" "";
     V1.s3_region := stored_text storage "region" "us-east-1";
     V1.s3_access := stored_text storage "accessKey" "";
     V1.s3_secret := stored_text storage "secretKey" "" |}.

Section PipelineEvents.
Context `{Runtime}.

(** The events of one run after the configuration has been built. *)
Definition run_events (h : host) (work_id : Z) (job_id : string)
    (tfvars : gmap string value) : list event :=
  let dir := run_dir h work_id job_id in
  let raw := py_str (py_or (dict_get tfvars "cmd_script") (VStr "")) in
  let content := script_content tfvars in
  let code := proc_returncode (apply_proc h work_id job_id) in
  (WriteText (path_join dir "tfvars.json") (json_dumps_indent 2 (VDict tfvars))
   :: List.map (fun f => CopyFile (path_join (script_dir h) f) (path_join dir f))
        (tf_files h)
   ++ List.map (fun f => CopyFile (path_join (script_dir h) f) (path_join dir f))
        (yml_files h)
   ++ (if negb (String.eqb raw "")
       then [WriteText (path_join dir "cmd_script.sh") content;
             Log ("[executor] job " ++ job_id ++ " wrote cmd_script.sh to "
                  ++ path_join dir "cmd_script.sh")]
       else [Log ("[executor] job " ++ job_id
                  ++ " has empty cmd_script; no cmd_script.sh written")])
   ++ [Log ("[executor] job " ++ job_id ++ " cmd_script:" ++ nl ++ content);
       Log ("[executor] job " ++ job_id ++ " applying infra via "
            ++ py_repr (VList (List.map VStr
                                 (autorun_cmd h work_id job_id "apply")))
            ++ nl ++ content);
       Run (autorun_cmd h work_id job_id "apply") (script_dir h);
       Log ("[executor] job " ++ job_id ++ " autorun apply "
            ++ (if code =? 0 then "finished" else "failed"));
       Popen (autorun_cmd h work_id job_id "destroy") (script_dir h);
       Log (match popen h (autorun_cmd h work_id job_id "destroy")
                    (script_dir h) with
            | None =>
                "[executor] job " ++ job_id
                ++ " started background destroy via "
                ++ py_repr (VList (List.map VStr
                                     (autorun_cmd h work_id job_id "destroy")))
            | Some e =>
                "[executor] job " ++ job_id
                ++ " destroy encountered error: " ++ e
            end)])%list.

End PipelineEvents.

(** [needle in haystack], decided. *)
Fixpoint occurs (needle haystack : string) : bool :=
  String.prefix needle haystack
  || match haystack with
     | EmptyString => false
     | String _ rest => occurs needle rest
     end.

(** [needle in haystack]. *)
Definition contains (haystack needle : string) : Prop :=
  exists before after, haystack = before ++ needle ++ after.

Section RaceInvariant.
Context `{Runtime}.

(** What holds of every state a schedule can reach: no job id was handed
    out twice, a job id that was handed out names a row, and no row of
    that id is [queued] any more. *)
Record race_inv (s : V1.system) : Prop := {
  inv_nodup : NoDup (List.map snd (V1.claimed s));
  inv_named :
    forall id, In id (List.map snd (V1.claimed s)) ->
      exists j, In j (V1.table s) /\ job_id j = id;
  inv_left_queue :
    forall id j, In id (List.map snd (V1.claimed s)) ->
      In j (V1.table s) -> job_id j = id -> status j <> "queued"
}.

End RaceInvariant.

(* ===================================================================== *)
(** * A small runtime and host to run the services on                     *)
(* ===================================================================== *)

Module Demo.

Fixpoint digits_value (acc : Z) (s : string) : option Z :=
  match s with
  | EmptyString => Some acc
  | String c rest =>
      let n := Z.of_nat (nat_of_ascii c) in
      if (48 <=? n) && (n <=? 57)
      then digits_value (10 * acc + (n - 48)) rest
      else None
  end.

(** Plain decimal numerals. *)
Definition decimal (s : string) : option Z :=
  match s with
  | EmptyString => None
  | _ => digits_value 0 s
  end.

(** The storage section of a submission that names an endpoint and a
    bucket, and the metadata that carries it. *)
Definition storage_section : gmap string value :=
  <["endpoint" := VStr "http://minio:9000"]> {[ "bucket" := VStr "work" ]}.

Definition storage_meta : gmap string value :=
  {[ "storage" := VDict storage_section ]}.

Definition storage_metadata : value := VDict storage_meta.

(** A codec that knows the three documents the examples store. *)
Definition loads (s : string) : option value :=
  if String.eqb s "{}" then Some (VDict ∅)
  else if String.eqb s "<metadata with storage>" then Some storage_metadata
  else if String.eqb s "<resources gpu=2>" then
    Some (VDict {[ "gpu" := VInt 2 ]})
  else None.

#[global] Instance runtime : Runtime := {|
  json_loads := loads;
  json_dumps := fun _ => "{}";
  json_dumps_indent := fun _ _ => "{}";
  int_of_str := decimal;
  float_of_str := fun s => (fun z => FFinite (inject_Z z)) <$> decimal s;
  dict_of_iterable := fun _ => None;
  py_repr := fun _ => "<repr>";
  lax_int := fun v => match v with VStr s => decimal s | _ => None end;
  lax_str := fun _ => None;
  exn_str := fun _ => "<exception>";
  expanduser := fun p => p
|}.

Definition environ (name : string) : option string :=
  if String.eqb name "EXECUTOR_WORKERS" then Some "2"
  else if String.eqb name "UVICORN_WORKERS" then Some "1"
  else None.

(** A host whose apply exits with [code], printing [out] and [err], and
    whose destroy launch fails with [destroy_error] if one is given. *)
Definition host_with (code : Z) (out err : string)
    (destroy_error : option string) : host :=
  {| getenv := environ;
     app_dir := "/srv/app";
     autorun_present := true;
     tf_files := ["main.tf"];
     yml_files := [];
     fails := fun _ => None;
     run := fun _ _ =>
       {| proc_returncode := code; proc_stdout := out; proc_stderr := err |};
     popen := fun _ _ => destroy_error;
     os_kill := fun _ => None |}.

Definition a_job (id st : string) (meta : string) (at_ : Z) : job :=
  {| job_id := id; status := st; command := "echo hi"; workdir := "/work/a";
     env := Some "{}"; metadata := Some meta; resources := Some "{}";
     returncode := None; stdout := None; stderr := None; pid := None;
     created_at := at_ |}.

(** Two workers race for the one queued job: both select it, then both
    run their update. *)
Definition race_table : list job := [a_job "job-a" "queued" "{}" 1].

Definition race_schedule : list V1.statement :=
  [V1.StClaimSelect 0; V1.StClaimSelect 1;
   V1.StClaimUpdate 0; V1.StClaimUpdate 1].

Definition race_final : V1.system :=
  default (V1.start []) (V1.run_schedule race_schedule (V1.start race_table)).

(** A host on which apply fails with code 3 and destroy cannot even be
    launched. *)
Definition failing_host : host :=
  host_with 3 "plan: 1 to add" "Error: quota exceeded"
    (Some "[Errno 2] No such file or directory: 'bash'").

(** A host on which apply exits with code 0 after printing bytes that are
    not text, so that [subprocess.run] raises when it decodes them. *)
Definition undecodable_host : host :=
  {| getenv := environ;
     app_dir := "/srv/app";
     autorun_present := true;
     tf_files := ["main.tf"];
     yml_files := [];
     fails := fun e =>
       match e with
       | Run _ _ => Some UnicodeDecodeError
       | _ => None
       end;
     run := fun _ _ =>
       {| proc_returncode := 0; proc_stdout := ""; proc_stderr := "" |};
     popen := fun _ _ => None;
     os_kill := fun _ => None |}.

Definition world0 : world := {| db := race_table; trace := [] |}.

Definition no_others (t : list job) : list job := t.

Definition claimed_world : world :=
  snd (V1._claim_next_job_id no_others world0).

Definition built : result (gmap string value) * world :=
  V1.build_tfvars failing_host "job-a" (a_job "job-a" "running" "{}" 1)
    (job_name 0 "job-a")
    {| db := db claimed_world;
       trace := (trace claimed_world
                 ++ [Mkdir (run_dir failing_host 0 "job-a")])%list |}.

Definition built_tfvars : gmap string value :=
  match fst built with
  | Ok tfvars => tfvars
  | Raise _ => ∅
  end.

Definition final_world : world :=
  snd (V1._claim_and_run_next_job failing_host no_others 0 world0).

(** The world after one turn of a worker on the host whose apply prints
    what cannot be decoded. *)
Definition stranded_world : world :=
  snd (V1.worker_loop_turn undecodable_host no_others 0 world0).

(** A job submitted with a storage endpoint and a bucket. *)
Definition storage_row : job :=
  a_job "job-s" "running" "<metadata with storage>" 2.

Definition built_with_storage : result (gmap string value) * world :=
  V1.build_tfvars failing_host "job-s" storage_row (job_name 0 "job-s")
    {| db := [storage_row]; trace := [] |}.

Definition storage_tfvars : gmap string value :=
  match fst built_with_storage with
  | Ok tfvars => tfvars
  | Raise _ => ∅
  end.

End Demo.

(* ===================================================================== *)
(** * Code that both services share word for word                         *)
(* ===================================================================== *)

Module Shared.

(** [raw.split(",")]. *)
Fixpoint split_commas (s : string) : list string :=
  match s with
  | EmptyString => [EmptyString]
  | String c rest =>
      let parts := split_commas rest in
      if Ascii.eqb c ","%char then EmptyString :: parts
      else
        match parts with
        | p :: ps => String c p :: ps
        | [] => [String c EmptyString]
        end
  end.

(** The keys one environment value contributes: its comma-separated
    pieces, stripped, the blank ones dropped. *)
Definition keys_of (raw : string) : list string :=
  List.map strip
    (List.filter
       (fun t => negb (String.eqb t "") && negb (String.eqb (strip t) ""))
       (split_commas raw)).

(** The module-level set [API_KEYS]. *)
Definition API_KEYS (h : host) : gset string :=
  list_to_set
    (List.flat_map keys_of
       [getenv_default h "API_KEYS" "";
        getenv_default h "NXF_RES_AUTH_API_KEY" ""]).

(** [a or b] on two optional headers. *)
Definition header_or (a b : option string) : option string :=
  match a with
  | Some s => if String.eqb s "" then b else a
  | None => b
  end.

(** [require_api_key], given the configured keys and the two headers. *)
Definition require_api_key (keys : gset string) (api_key x_api_key : option string)
    : result (option string) :=
  if bool_decide (keys = ∅) then Ok None
  else
    match header_or api_key x_api_key with
    | Some provided =>
        if String.eqb provided "" then
          Raise (HTTPException 401 "invalid api key")
        else if bool_decide (provided ∈ keys) then Ok (Some provided)
        else Raise (HTTPException 401 "invalid api key")
    | None => Raise (HTTPException 401 "invalid api key")
    end.

(** What [init_db] does to the outside, in order. *)
Inductive init_event :=
| InitLog (msg : string)
| CreateTable
| InitSleep (delay : pyfloat).

(** How [init_db] ends: it returns, or the exception of the last attempt
    goes up; an exception is carried as the text it prints as. *)
Inductive init_end :=
| Returned
| Raised (error : string).

(** The loop of [init_db] from attempt number [attempt] on, with
    [remaining] attempts left; [connect k] is [Some e] when connecting and
    creating the table raises [e] at attempt [k], and [pause d] is [Some e]
    when [time.sleep(d)] raises [e], as it does for a negative length, and
    for one that is not a number or is too large. *)
Fixpoint init_loop (connect : Z -> option string)
    (pause : pyfloat -> option string) (max_attempts : Z)
    (delay : pyfloat) (attempt : Z) (remaining : nat)
    : init_end * list init_event :=
  match remaining with
  | O => (Returned, [])
  | S rest =>
      match connect attempt with
      | None => (Returned, [CreateTable; InitLog "[db] jobs table is ready"])
      | Some e =>
          let failed :=
            InitLog ("[db] init attempt " ++ string_of_Z attempt
                     ++ " failed: " ++ e) in
          if attempt =? max_attempts then
            (Raised e, [failed; InitLog "[db] giving up initializing database"])
          else
            match pause delay with
            | Some e' => (Raised e', [failed; InitSleep delay])
            | None =>
                let '(ending, events) :=
                  init_loop connect pause max_attempts delay (attempt + 1)
                    rest in
                (ending, failed :: InitSleep delay :: events)
            end
      end
  end.

Section InitDb.
Context `{Runtime}.

(** [init_db]; the two settings are read before the loop and a setting
    that does not parse raises there. *)
Definition init_db (h : host) (connect : Z -> option string)
    (pause : pyfloat -> option string)
    : result (init_end * list init_event) :=
  max_attempts ← py_int (VStr (getenv_default h "DB_INIT_RETRIES" "30"));
  delay ← py_float (VStr (getenv_default h "DB_INIT_DELAY" "1.0"));
  Ok (init_loop connect pause max_attempts delay 1 (Z.to_nat max_attempts)).

End InitDb.

End Shared.

(* ===================================================================== *)
(** * More vocabulary                                                     *)
(* ===================================================================== *)

(** The statuses the executor writes. *)
Definition executor_status (s : string) : Prop :=
  s = "queued" \/ s = "running" \/ s = "finished" \/ s = "failed"
  \/ s = "killed".

(** The ids of a table, in table order. *)
Definition ids (t : list job) : list string := List.map job_id t.

(** What every statement keeps: the ids stay pairwise distinct, the rows
    carry one of the five statuses, and the ids that were there stay, in
    place. *)
Definition table_well_formed (t0 t : list job) : Prop :=
  NoDup (ids t)
  /\ Forall (fun j => executor_status (status j)) t
  /\ exists added, ids t = (ids t0 ++ added)%list.

(** Every character of [s] passes [p]. *)
Fixpoint all_chars (p : ascii -> bool) (s : string) : bool :=
  match s with
  | EmptyString => true
  | String c rest => p c && all_chars p rest
  end.

(** [s] holds nothing but commas and white space. *)
Fixpoint only_separators (s : string) : bool :=
  match s with
  | String c rest =>
      if is_space c || Ascii.eqb c "," then only_separators rest
      else
        match rest with
        | String d rest1 =>
            if is_space2 c d then only_separators rest1
            else
              match rest1 with
              | String e rest2 => is_space3 c d e && only_separators rest2
              | EmptyString => false
              end
        | EmptyString => false
        end
  | EmptyString => true
  end.

(** [s] does not start with white space. *)
Definition no_space_head (s : string) : bool :=
  match s with
  | String c rest =>
      negb (is_space c)
      && match rest with
         | String d rest1 =>
             negb (is_space2 c d)
             && match rest1 with
                | String e _ => negb (is_space3 c d e)
                | EmptyString => true
                end
         | EmptyString => true
         end
  | EmptyString => true
  end.

Definition not_comma (c : ascii) : bool := negb (Ascii.eqb c ",").

(** The one refusal of [require_api_key]. *)
Definition unauthorized : exn := HTTPException 401 "invalid api key".

(** The attempt numbers [first], [first + 1], ... ([n] of them). *)
Fixpoint attempts_from (first : Z) (n : nat) : list Z :=
  match n with
  | O => []
  | S m => first :: attempts_from (first + 1) m
  end.

(** What a failed attempt of [init_db] that is not the last one leaves:
    its log line, then the pause. *)
Definition failed_attempt (delay : pyfloat) (error : Z -> string) (j : Z)
    : list Shared.init_event :=
  [Shared.InitLog ("[db] init attempt " ++ string_of_Z j ++ " failed: "
                   ++ error j);
   Shared.InitSleep delay].

(* ===================================================================== *)
(** * More rows and worlds to run the services on                         *)
(* ===================================================================== *)

Module Demo2.

(** A job with stored output, in a given status. *)
Definition stored_row (st : string) (rc : option Z) : job :=
  {| job_id := "job-a"; status := st; command := "echo hi";
     workdir := "/work/a"; env := Some "{}"; metadata := Some "{}";
     resources := Some "{}"; returncode := rc;
     stdout := Some "all done"; stderr := Some "warnings"; pid := None;
     created_at := 1 |}.

Definition stored_world (st : string) (rc : option Z) : world :=
  {| db := [stored_row st rc]; trace := [] |}.

(** A host whose default cpu count is not a number. *)
Definition bad_default_host : host :=
  {| getenv := fun name =>
       if String.eqb name "DEFAULT_OCPU" then Some "many"
       else Demo.environ name;
     app_dir := "/srv/app";
     autorun_present := true;
     tf_files := [];
     yml_files := [];
     fails := fun _ => None;
     run := fun _ _ =>
       {| proc_returncode := 0; proc_stdout := ""; proc_stderr := "" |};
     popen := fun _ _ => None;
     os_kill := fun _ => None |}.

(** A host without [autorun.sh]. *)
Definition bare_host : host :=
  {| getenv := Demo.environ;
     app_dir := "/srv/app";
     autorun_present := false;
     tf_files := [];
     yml_files := [];
     fails := fun _ => None;
     run := fun _ _ =>
       {| proc_returncode := 0; proc_stdout := ""; proc_stderr := "" |};
     popen := fun _ _ => None;
     os_kill := fun _ => None |}.

Definition bad_build_world : world :=
  snd (V1.build_tfvars bad_default_host "job-a"
         (Demo.a_job "job-a" "running" "{}" 1) (job_name 0 "job-a")
         {| db := db Demo.claimed_world;
            trace := (trace Demo.claimed_world
                      ++ [Mkdir (run_dir bad_default_host 0 "job-a")])%list |}).

(** A host configured with the given [API_KEYS]. *)
Definition keyed_host (keys : string) : host :=
  {| getenv := fun name =>
       if String.eqb name "API_KEYS" then Some keys else Demo.environ name;
     app_dir := "/srv/app";
     autorun_present := true;
     tf_files := [];
     yml_files := [];
     fails := fun _ => None;
     run := fun _ _ =>
       {| proc_returncode := 0; proc_stdout := ""; proc_stderr := "" |};
     popen := fun _ _ => None;
     os_kill := fun _ => None |}.

(** A host that allows [retries] attempts on the database, two seconds
    apart. *)
Definition db_host (retries : string) : host :=
  {| getenv := fun name =>
       if String.eqb name "DB_INIT_RETRIES" then Some retries
       else if String.eqb name "DB_INIT_DELAY" then Some "2"
       else Demo.environ name;
     app_dir := "/srv/app";
     autorun_present := true;
     tf_files := [];
     yml_files := [];
     fails := fun _ => None;
     run := fun _ _ =>
       {| proc_returncode := 0; proc_stdout := ""; proc_stderr := "" |};
     popen := fun _ _ => None;
     os_kill := fun _ => None |}.

(** A database that refuses connections before attempt [ready]. *)
Definition up_at (ready : Z) (attempt : Z) : option string :=
  if attempt <? ready then Some "connection refused" else None.

(** Pauses that never raise. *)
Definition sound_pause (length : pyfloat) : option string := None.

(** A no-break space, U+00A0, as its two bytes. *)
Definition nbsp : string := String "194" (String "160" EmptyString).

End Demo2.

(* ===================================================================== *)
(** * Properties of the store statements                                  *)
(* ===================================================================== *)

Section StoreFacts.

Lemma sql_update_rows (where_ : job -> bool) (set_ : job -> job) (t : list job) :
  fst (sql_update where_ set_ t)
  = List.map (fun j => if where_ j then set_ j else j) t.
Proof. reflexivity. Qed.

Lemma sql_update_rowcount_zero (where_ : job -> bool) (set_ : job -> job)
    (t : list job) :
  snd (sql_update where_ set_ t) = 0
  <-> Forall (fun j => where_ j = true -> set_ j = j) t.
Proof.
  unfold sql_update; simpl. induction t as [|j t IH]; simpl.
  - split; [constructor | reflexivity].
  - destruct (where_ j) eqn:Hw; simpl.
    + case_bool_decide as Hs; simpl.
      * rewrite IH. split.
        -- intros Ht. constructor; [intros _; exact Hs | exact Ht].
        -- intros Ht. inversion Ht; assumption.
      * split; [lia|]. intros Ht. inversion Ht as [|? ? Hj ?]. subst.
        destruct Hs. apply Hj. exact Hw.
    + rewrite IH. split.
      * intros Ht. constructor; [congruence | exact Ht].
      * intros Ht. inversion Ht; assumption.
Qed.

Lemma sql_update_rowcount_nonneg (where_ : job -> bool) (set_ : job -> job)
    (t : list job) :
  0 <= snd (sql_update where_ set_ t).
Proof. unfold sql_update; simpl. lia. Qed.

Lemma set_status_changes (s : string) (j : job) :
  status j <> s -> set_status s j <> j.
Proof. intros Hne Heq. apply Hne. rewrite <- Heq at 1. reflexivity. Qed.

Lemma has_status_true (s : string) (j : job) :
  has_status s j = true <-> status j = s.
Proof. unfold has_status. apply String.eqb_eq. Qed.

Lemma has_status_false (s : string) (j : job) :
  has_status s j = false <-> status j <> s.
Proof. unfold has_status. apply String.eqb_neq. Qed.

Lemma has_id_true (id : string) (j : job) :
  has_id id j = true <-> job_id j = id.
Proof. unfold has_id. apply String.eqb_eq. Qed.

Lemma map_unchanged (f : job -> job) (t : list job) :
  Forall (fun j => f j = j) t -> List.map f t = t.
Proof.
  induction 1 as [|j t Hj _ IH]; simpl; [reflexivity|].
  rewrite Hj, IH. reflexivity.
Qed.

Lemma oldest_none (l : list job) : oldest l = None <-> l = [].
Proof.
  destruct l as [|j l]; simpl; [tauto|].
  split; [|discriminate].
  destruct (oldest l) as [k|]; [destruct (created_at j <=? created_at k)|];
    discriminate.
Qed.

Lemma oldest_some (l : list job) (r : job) :
  oldest l = Some r ->
  r ∈ l /\ Forall (fun j => created_at r <= created_at j) l.
Proof.
  revert r. induction l as [|j l IH]; simpl; intros r Hr; [discriminate|].
  destruct (oldest l) as [k|] eqn:Hk.
  - destruct (IH k eq_refl) as [Hin Hall].
    destruct (created_at j <=? created_at k) eqn:Hle; inversion Hr; subst.
    + apply Z.leb_le in Hle. split; [left|].
      constructor; [lia|].
      eapply Forall_impl; [exact Hall|]. simpl. intros; lia.
    + apply Z.leb_gt in Hle. split; [right; exact Hin|].
      constructor; [lia | exact Hall].
  - inversion Hr; subst. apply oldest_none in Hk. subst l.
    split; [left | constructor; [lia | constructor]].
Qed.

Lemma select_oldest_none (s : string) (t : list job) :
  select_oldest s t = None <-> Forall (fun j => status j <> s) t.
Proof.
  unfold select_oldest. rewrite oldest_none.
  induction t as [|j t IH]; simpl.
  - split; [constructor | reflexivity].
  - destruct (has_status s j) eqn:Hs.
    + split; [discriminate|]. intros Ht. inversion Ht as [|? ? Hj ?]; subst.
      apply has_status_true in Hs. contradiction.
    + rewrite IH. apply has_status_false in Hs. split.
      * intros Ht; constructor; assumption.
      * intros Ht; inversion Ht; assumption.
Qed.

Lemma select_oldest_some (s : string) (t : list job) (r : job) :
  select_oldest s t = Some r ->
  r ∈ t /\ status r = s
  /\ Forall (fun j => status j = s -> created_at r <= created_at j) t.
Proof.
  unfold select_oldest. intros Hr. apply oldest_some in Hr as [Hin Hall].
  apply list_elem_of_In, filter_In in Hin as [Hin Hs].
  split; [apply list_elem_of_In; exact Hin|].
  split; [apply has_status_true; exact Hs|].
  rewrite List.Forall_forall in Hall |- *. intros j Hj Hsj.
  apply Hall, filter_In. split; [exact Hj | apply has_status_true; exact Hsj].
Qed.

End StoreFacts.

(* ===================================================================== *)
(** * The claim arbiter                                                   *)
(* ===================================================================== *)

Section ClaimArbiter.
Context `{Runtime}.

Lemma claim_update_rowcount_zero (id : string) (t : list job) :
  snd (V1.claim_update id t) = 0 <-> existsb (claimable id) t = false.
Proof.
  unfold V1.claim_update. rewrite sql_update_rowcount_zero.
  fold (claimable id). induction t as [|j t IH]; simpl.
  - split; [reflexivity | constructor].
  - destruct (claimable id j) eqn:Hc; simpl.
    + split; [|discriminate]. intros Ht. inversion Ht as [|? ? Hj ?]; subst.
      pose proof Hc as Hq. apply andb_prop in Hq as [_ Hq].
      apply has_status_true in Hq.
      exfalso. eapply (set_status_changes "running" j); [|apply Hj; exact Hc].
      rewrite Hq. discriminate.
    + rewrite <- IH. split.
      * intros Ht; inversion Ht; assumption.
      * intros Ht; constructor; [unfold claimable in Hc; congruence | exact Ht].
Qed.

Lemma claim_update_no_match (id : string) (t : list job) :
  existsb (claimable id) t = false -> fst (V1.claim_update id t) = t.
Proof.
  intros Hex. unfold V1.claim_update. rewrite sql_update_rows.
  apply map_unchanged.
  induction t as [|j t IH]; [constructor|].
  simpl in Hex. apply orb_false_elim in Hex as [Hj Ht].
  unfold claimable in Hj.
  constructor; [rewrite Hj; reflexivity | apply IH; exact Ht].
Qed.

Lemma claim_next_job_id_unfold (others : list job -> list job) (w : world) :
  V1._claim_next_job_id others w
  = match V1.claim_select (db w) with
    | None => (Ok None, w)
    | Some id =>
        let upd := V1.claim_update id (others (db w)) in
        (if snd upd =? 0 then Ok None else Ok (Some id),
         {| db := fst upd; trace := trace w |})
    end.
Proof.
  unfold V1._claim_next_job_id.
  unfold mbind, M_bind, mret, M_ret, get_db, interleave, put_db.
  cbn [db trace]. destruct (V1.claim_select (db w)) as [id|]; [|reflexivity].
  destruct (V1.claim_update id (others (db w))) as [t' n].
  cbn [fst snd db trace]. destruct (n =? 0); reflexivity.
Qed.

(** C2.  One claim attempt: it selects the queued row of least
    [created_at]; with no queued row it answers "none available" and
    leaves the world alone; otherwise its conditional update flips to
    [running] exactly the rows that carry the selected id and are still
    [queued] when the update runs, answers the id when there was such a
    row and "none available" when the update changed nothing, and in that
    case makes no second attempt: the table is what the other connections
    left. *)
Theorem claim_next_job_id_spec (others : list job -> list job) (w : world) :
  match select_oldest "queued" (db w) with
  | None =>
      Forall (fun j => status j <> "queued") (db w)
      /\ V1._claim_next_job_id others w = (Ok None, w)
  | Some row =>
      row ∈ db w /\ status row = "queued"
      /\ Forall (fun j => status j = "queued" -> created_at row <= created_at j)
           (db w)
      /\ let t := others (db w) in
         let flipped :=
           List.map (fun j => if claimable (job_id row) j
                              then set_status "running" j else j) t in
         if existsb (claimable (job_id row)) t
         then V1._claim_next_job_id others w
              = (Ok (Some (job_id row)), {| db := flipped; trace := trace w |})
         else V1._claim_next_job_id others w
              = (Ok None, {| db := t; trace := trace w |})
  end.
Proof.
  rewrite claim_next_job_id_unfold. unfold V1.claim_select.
  destruct (select_oldest "queued" (db w)) as [row|] eqn:Hsel.
  - destruct (select_oldest_some _ _ _ Hsel) as (Hin & Hq & Hmin).
    repeat split; try assumption. cbn [fmap option_fmap option_map].
    cbv zeta.
    destruct (existsb (claimable (job_id row)) (others (db w))) eqn:Hex.
    + assert (Hn : snd (V1.claim_update (job_id row) (others (db w))) <> 0).
      { intros Hz. apply not_false_iff_true in Hex. apply Hex.
        apply claim_update_rowcount_zero. exact Hz. }
      apply Z.eqb_neq in Hn. rewrite Hn. reflexivity.
    + pose proof Hex as Hn. apply claim_update_rowcount_zero in Hn.
      rewrite Hn, (claim_update_no_match _ _ Hex). reflexivity.
  - split; [apply select_oldest_none; exact Hsel | reflexivity].
Qed.

End ClaimArbiter.

(* ===================================================================== *)
(** * Racing claim attempts                                               *)
(* ===================================================================== *)

Section Race.
Context `{Runtime}.

Lemma race_inv_ext (s s' : V1.system) :
  V1.table s = V1.table s' -> V1.claimed s = V1.claimed s' ->
  race_inv s -> race_inv s'.
Proof.
  intros Ht Hc [Hnd Hnamed Hleft].
  split; rewrite <- ?Ht, <- ?Hc; assumption.
Qed.

Lemma leaves_queue_set_status (s : string) :
  s <> "queued" -> leaves_queue (set_status s).
Proof. intros Hs j. split; [reflexivity | exact Hs]. Qed.

Lemma leaves_queue_set_status_stderr (s err : string) :
  s <> "queued" -> leaves_queue (set_status_stderr s err).
Proof. intros Hs j. split; [reflexivity | exact Hs]. Qed.

Lemma leaves_queue_set_outcome (rc : Z) (out err s : string) :
  s <> "queued" -> leaves_queue (set_outcome rc out err s).
Proof. intros Hs j. split; [reflexivity | exact Hs]. Qed.

Lemma in_updated (where_ : job -> bool) (set_ : job -> job) (t : list job)
    (j' : job) :
  In j' (fst (sql_update where_ set_ t)) ->
  exists j, In j t /\ j' = (if where_ j then set_ j else j).
Proof.
  rewrite sql_update_rows, in_map_iff. intros (j & Hj & Hin). eauto.
Qed.

Lemma updated_in (where_ : job -> bool) (set_ : job -> job) (t : list job)
    (j : job) :
  In j t -> In (if where_ j then set_ j else j) (fst (sql_update where_ set_ t)).
Proof.
  intros Hin. rewrite sql_update_rows.
  apply (in_map (fun j => if where_ j then set_ j else j)). exact Hin.
Qed.

(** An update that never writes [queued] keeps the invariant, whatever
    rows it matches. *)
Lemma race_inv_update (where_ : job -> bool) (set_ : job -> job)
    (s : V1.system) :
  leaves_queue set_ -> race_inv s ->
  race_inv {| V1.table := fst (sql_update where_ set_ (V1.table s));
              V1.workers := V1.workers s; V1.claimed := V1.claimed s |}.
Proof.
  intros Hset [Hnd Hnamed Hleft]. split; cbn [V1.table V1.claimed].
  - exact Hnd.
  - intros id Hid. destruct (Hnamed id Hid) as (j & Hin & Hj).
    exists (if where_ j then set_ j else j).
    split; [apply updated_in; exact Hin|].
    destruct (where_ j); [rewrite (proj1 (Hset j))|]; exact Hj.
  - intros id j' Hid Hin' Hj'. apply in_updated in Hin' as (j & Hin & ->).
    destruct (where_ j).
    + apply (Hset j).
    + eapply Hleft; eauto.
Qed.

Lemma select_by_id_none (id : string) (t : list job) :
  select_by_id id t = None -> forall j, In j t -> job_id j <> id.
Proof.
  unfold select_by_id. intros Hfind j Hin Hj.
  apply (find_none _ _ Hfind) in Hin. apply has_id_true in Hj. congruence.
Qed.

Lemma existsb_claimable (id : string) (t : list job) :
  existsb (claimable id) t = true ->
  exists j, In j t /\ job_id j = id /\ status j = "queued".
Proof.
  intros Hex. apply existsb_exists in Hex as (j & Hin & Hc).
  apply andb_prop in Hc as [Hid Hq].
  exists j. split; [exact Hin|].
  split; [apply has_id_true; exact Hid | apply has_status_true; exact Hq].
Qed.

Lemma race_inv_exec (st : V1.statement) (s s' : V1.system) :
  race_inv s -> V1.exec st s = Some s' -> race_inv s'.
Proof.
  intros Hinv Hexec.
  destruct st as [now id0 submit| |worker|worker|id0 rc out err|id0|id0 perr];
    cbn [V1.exec] in Hexec.
  - (* insert *)
    inversion Hexec; subst s'; clear Hexec.
    unfold sql_insert.
    destruct (select_by_id _ (V1.table s)) eqn:Hfind;
      [destruct Hinv; split; assumption|].
    cbn [V1.queued_row job_id] in Hfind.
    destruct Hinv as [Hnd Hnamed Hleft]. split; cbn [V1.table V1.claimed].
    + exact Hnd.
    + intros id Hid. destruct (Hnamed id Hid) as (j & Hin & Hj).
      exists j. split; [apply in_or_app; left; exact Hin | exact Hj].
    + intros id j Hid Hin Hj. apply in_app_or in Hin as [Hin|Hin].
      * eapply Hleft; eauto.
      * destruct Hin as [<-|[]]. cbn [V1.queued_row job_id] in Hj.
        destruct (Hnamed id Hid) as (k & Hk & Hkid).
        exfalso. eapply select_by_id_none; eauto. congruence.
  - (* reset *)
    inversion Hexec; subst s'.
    apply race_inv_update; [|exact Hinv].
    apply leaves_queue_set_status. discriminate.
  - (* claim: select *)
    destruct (V1.worker_pc s worker); [|discriminate].
    destruct (V1.claim_select (V1.table s)); inversion Hexec; subst s';
      (eapply race_inv_ext; [| |exact Hinv]; reflexivity).
  - (* claim: update *)
    destruct (V1.worker_pc s worker) as [|id]; [discriminate|].
    destruct (V1.claim_update id (V1.table s)) as [t' n] eqn:Hupd.
    inversion Hexec; subst s'; clear Hexec.
    assert (Ht' : t' = fst (V1.claim_update id (V1.table s)))
      by (rewrite Hupd; reflexivity).
    assert (Hn : n = snd (V1.claim_update id (V1.table s)))
      by (rewrite Hupd; reflexivity).
    pose proof (race_inv_update
      (fun j => has_id id j && has_status "queued" j) (set_status "running") s
      (leaves_queue_set_status "running" ltac:(discriminate)) Hinv) as Hupdinv.
    fold (V1.claim_update id (V1.table s)) in Hupdinv. rewrite <- Ht' in Hupdinv.
    destruct (n =? 0) eqn:Hz;
      [eapply race_inv_ext; [| |exact Hupdinv]; reflexivity|].
    apply Z.eqb_neq in Hz.
    assert (Hex : existsb (claimable id) (V1.table s) = true).
    { apply not_false_iff_true. intros Hf. apply Hz. rewrite Hn.
      apply claim_update_rowcount_zero. exact Hf. }
    apply existsb_claimable in Hex as (j0 & Hin0 & Hid0 & Hq0).
    assert (Hfresh : ~ In id (List.map snd (V1.claimed s))).
    { intros Hid. eapply (inv_left_queue s Hinv); eauto. }
    destruct Hupdinv as [Hnd Hnamed Hleft].
    cbn [V1.table V1.claimed] in Hnd, Hnamed, Hleft.
    split; cbn [V1.table V1.claimed]; rewrite List.map_app; cbn [List.map snd].
    + apply NoDup_app. split; [exact Hnd|]. split.
      * intros x Hx Hx'. apply list_elem_of_In in Hx.
        apply list_elem_of_singleton in Hx'. subst x. contradiction.
      * apply NoDup_singleton.
    + intros id' Hid'. apply in_app_or in Hid' as [Hid'|[<-|[]]].
      * apply Hnamed; exact Hid'.
      * exists (if has_id id j0 && has_status "queued" j0
                then set_status "running" j0 else j0).
        split.
        -- rewrite Ht'. unfold V1.claim_update.
           apply (updated_in (fun j => has_id id j && has_status "queued" j)
                    (set_status "running")).
           exact Hin0.
        -- destruct (has_id id j0 && has_status "queued" j0); exact Hid0.
    + intros id' j' Hid' Hin' Hj'. apply in_app_or in Hid' as [Hid'|[<-|[]]].
      * eapply Hleft; eauto.
      * rewrite Ht' in Hin'. unfold V1.claim_update in Hin'.
        apply (in_updated (fun j => has_id id j && has_status "queued" j)
                 (set_status "running")) in Hin' as (j & Hin & ->).
        destruct (has_id id j && has_status "queued" j) eqn:Hc;
          [discriminate|].
        intros Hq. apply has_id_true in Hj'. apply has_status_true in Hq.
        rewrite Hj', Hq in Hc. discriminate.
  - (* after run *)
    inversion Hexec; subst s'.
    apply race_inv_update; [|exact Hinv].
    apply leaves_queue_set_outcome. destruct (rc =? 0); discriminate.
  - (* killed *)
    inversion Hexec; subst s'.
    apply race_inv_update; [|exact Hinv].
    apply leaves_queue_set_status. discriminate.
  - (* kill failed *)
    inversion Hexec; subst s'.
    apply race_inv_update; [|exact Hinv].
    apply leaves_queue_set_status_stderr. discriminate.
Qed.

Lemma race_inv_start (t : list job) : race_inv (V1.start t).
Proof.
  split; cbn.
  - constructor.
  - intros id [].
  - intros id j [].
Qed.

Lemma race_inv_run (schedule : list V1.statement) (s s' : V1.system) :
  race_inv s -> V1.run_schedule schedule s = Some s' -> race_inv s'.
Proof.
  revert s. induction schedule as [|st rest IH]; intros s Hinv Hrun.
  - inversion Hrun; subst; exact Hinv.
  - cbn [V1.run_schedule] in Hrun.
    destruct (V1.exec st s) as [s1|] eqn:Hexec; [|discriminate].
    eapply IH; [|exact Hrun]. eapply race_inv_exec; eauto.
Qed.

Lemma lookup_updated (where_ : job -> bool) (set_ : job -> job)
    (t : list job) (k : nat) (j' : job) :
  fst (sql_update where_ set_ t) !! k = Some j' ->
  exists j, t !! k = Some j /\ j' = (if where_ j then set_ j else j).
Proof.
  rewrite sql_update_rows. revert k.
  induction t as [|j t IH]; intros [|k] Hk; try discriminate.
  - inversion Hk. exists j. split; reflexivity.
  - apply IH. exact Hk.
Qed.

(** A row is [running] after a statement only if it was [running] before
    or the statement was the conditional update of a claim on that row,
    which was [queued] and is now handed to the claiming worker. *)
Lemma running_only_by_claim (st : V1.statement) (s s' : V1.system)
    (k : nat) (j' : job) :
  V1.exec st s = Some s' ->
  V1.table s' !! k = Some j' -> status j' = "running" ->
  exists j, V1.table s !! k = Some j /\ job_id j = job_id j'
    /\ (status j = "running"
        \/ (status j = "queued"
            /\ exists worker, st = V1.StClaimUpdate worker
                 /\ V1.worker_pc s worker = V1.Selected (job_id j)
                 /\ V1.claimed s' = (V1.claimed s ++ [(worker, job_id j)])%list)).
Proof.
  intros Hexec Hk Hrun.
  destruct st as [now id0 submit| |worker|worker|id0 rc out err|id0|id0 perr];
    cbn [V1.exec] in Hexec.
  - inversion Hexec; subst s'; clear Hexec. cbn [V1.table] in Hk.
    unfold sql_insert in Hk.
    destruct (select_by_id _ (V1.table s)); [eauto|].
    apply lookup_app_Some in Hk as [Hk|[_ Hk]]; [eauto|].
    destruct (k - length (V1.table s))%nat; [|discriminate].
    inversion Hk; subst j'. discriminate.
  - inversion Hexec; subst s'; clear Hexec. cbn [V1.table] in Hk.
    apply lookup_updated in Hk as (j & Hj & ->).
    destruct (has_status "running" j); [discriminate|eauto].
  - destruct (V1.worker_pc s worker); [|discriminate].
    destruct (V1.claim_select (V1.table s)); inversion Hexec; subst s'; eauto.
  - destruct (V1.worker_pc s worker) as [|id] eqn:Hpc; [discriminate|].
    destruct (V1.claim_update id (V1.table s)) as [t' n] eqn:Hupd.
    inversion Hexec; subst s'; clear Hexec. cbn [V1.table V1.claimed] in *.
    assert (Ht' : t' = fst (V1.claim_update id (V1.table s)))
      by (rewrite Hupd; reflexivity).
    assert (Hn : n = snd (V1.claim_update id (V1.table s)))
      by (rewrite Hupd; reflexivity).
    rewrite Ht' in Hk. unfold V1.claim_update in Hk.
    apply lookup_updated in Hk as (j & Hj & ->).
    exists j. split; [exact Hj|].
    destruct (has_id id j && has_status "queued" j) eqn:Hc;
      [|split; [reflexivity | left; exact Hrun]].
    split; [reflexivity|]. right.
    apply andb_prop in Hc as [Hid Hq].
    apply has_id_true in Hid. apply has_status_true in Hq.
    split; [exact Hq|]. exists worker. rewrite Hid.
    split; [reflexivity|]. split; [exact Hpc|].
    assert (Hz : n <> 0).
    { rewrite Hn. intros Hz. apply claim_update_rowcount_zero in Hz.
      apply not_true_iff_false in Hz. apply Hz.
      apply existsb_exists. exists j. split.
      - apply list_elem_of_In, list_elem_of_lookup. eauto.
      - unfold claimable. apply andb_true_intro.
        split; [apply has_id_true | apply has_status_true]; assumption. }
    apply Z.eqb_neq in Hz. rewrite Hz. reflexivity.
  - inversion Hexec; subst s'; clear Hexec. cbn [V1.table] in Hk.
    apply lookup_updated in Hk as (j & Hj & ->).
    destruct (has_id id0 j); [|eauto].
    cbn in Hrun. destruct (rc =? 0); discriminate.
  - inversion Hexec; subst s'; clear Hexec. cbn [V1.table] in Hk.
    apply lookup_updated in Hk as (j & Hj & ->).
    destruct (has_id id0 j); [discriminate|eauto].
  - inversion Hexec; subst s'; clear Hexec. cbn [V1.table] in Hk.
    apply lookup_updated in Hk as (j & Hj & ->).
    destruct (has_id id0 j); [discriminate|eauto].
Qed.

(** C1.  Whatever way the statements of workers and API requests
    interleave, no job id is handed out by two successful claim attempts,
    and a row can only become [running] through the conditional update of
    a claim that finds it [queued]. *)
Theorem claims_are_exclusive (t0 : list job) (schedule : list V1.statement)
    (s : V1.system) :
  V1.run_schedule schedule (V1.start t0) = Some s ->
  NoDup (List.map snd (V1.claimed s))
  /\ forall st s' k j',
       V1.exec st s = Some s' ->
       V1.table s' !! k = Some j' -> status j' = "running" ->
       exists j, V1.table s !! k = Some j /\ job_id j = job_id j'
         /\ (status j = "running"
             \/ (status j = "queued"
                 /\ exists worker, st = V1.StClaimUpdate worker
                      /\ V1.worker_pc s worker = V1.Selected (job_id j)
                      /\ V1.claimed s'
                         = (V1.claimed s ++ [(worker, job_id j)])%list)).
Proof.
  intros Hrun. split.
  - apply (inv_nodup s). eapply race_inv_run; [apply race_inv_start|exact Hrun].
  - intros st s' k j'. apply running_only_by_claim.
Qed.

Lemma unfinished_update (where_ : job -> bool) (set_ : job -> job)
    (t : list job) :
  (forall j, where_ j = true -> unfinished_without_returncode j ->
             unfinished_without_returncode (set_ j)) ->
  Forall unfinished_without_returncode t ->
  Forall unfinished_without_returncode (fst (sql_update where_ set_ t)).
Proof.
  intros Hset Ht. rewrite sql_update_rows.
  induction Ht as [|j t Hj _ IH]; cbn [List.map]; constructor; [|exact IH].
  destruct (where_ j) eqn:Hw; [apply Hset|]; assumption.
Qed.

Lemma unfinished_exec (st : V1.statement) (s s' : V1.system) :
  Forall unfinished_without_returncode (V1.table s) ->
  V1.exec st s = Some s' ->
  Forall unfinished_without_returncode (V1.table s').
Proof.
  intros Hinv Hexec.
  destruct st as [now id0 submit| |worker|worker|id0 rc out err|id0|id0 perr];
    cbn [V1.exec] in Hexec.
  - inversion Hexec; subst s'; clear Hexec. cbn [V1.table].
    unfold sql_insert. destruct (select_by_id _ (V1.table s)); [exact Hinv|].
    apply Forall_app. split; [exact Hinv|].
    constructor; [|constructor]. intros _. reflexivity.
  - inversion Hexec; subst s'; clear Hexec. cbn [V1.table].
    apply unfinished_update; [|exact Hinv].
    intros j _ _ [Hs|Hs]; discriminate.
  - destruct (V1.worker_pc s worker); [|discriminate].
    destruct (V1.claim_select (V1.table s)); inversion Hexec; subst s';
      exact Hinv.
  - destruct (V1.worker_pc s worker) as [|id]; [discriminate|].
    destruct (V1.claim_update id (V1.table s)) as [t' n] eqn:Hupd.
    inversion Hexec; subst s'; clear Hexec. cbn [V1.table].
    replace t' with (fst (V1.claim_update id (V1.table s)))
      by (rewrite Hupd; reflexivity).
    unfold V1.claim_update.
    apply (unfinished_update _ (set_status "running")); [|exact Hinv].
    intros j Hw Hj _. cbn [set_status returncode].
    apply Hj. left. apply andb_prop in Hw as [_ Hq].
    apply has_status_true. exact Hq.
  - inversion Hexec; subst s'; clear Hexec. cbn [V1.table].
    apply unfinished_update; [|exact Hinv].
    intros j _ _ [Hs|Hs]; cbn in Hs; destruct (rc =? 0); discriminate.
  - inversion Hexec; subst s'; clear Hexec. cbn [V1.table].
    apply unfinished_update; [|exact Hinv].
    intros j _ _ [Hs|Hs]; discriminate.
  - inversion Hexec; subst s'; clear Hexec. cbn [V1.table].
    apply unfinished_update; [|exact Hinv].
    intros j _ _ [Hs|Hs]; discriminate.
Qed.

(** From an empty table on, a row that is [queued] or [running] has no
    [returncode]: reconciliation always finds it null. *)
Lemma running_rows_have_no_returncode (schedule : list V1.statement)
    (s : V1.system) :
  V1.run_schedule schedule (V1.start []) = Some s ->
  Forall unfinished_without_returncode (V1.table s).
Proof.
  assert (Hgen : forall s0, Forall unfinished_without_returncode (V1.table s0) ->
            V1.run_schedule schedule s0 = Some s ->
            Forall unfinished_without_returncode (V1.table s)).
  { induction schedule as [|st rest IH]; intros s0 Hinv Hrun.
    - inversion Hrun; subst; exact Hinv.
    - cbn [V1.run_schedule] in Hrun.
      destruct (V1.exec st s0) as [s1|] eqn:Hexec; [|discriminate].
      eapply IH; [|exact Hrun]. eapply unfinished_exec; eauto. }
  apply Hgen. constructor.
Qed.

End Race.

Example race_has_one_winner :
  V1.claimed Demo.race_final = [(0, "job-a")].
Proof. vm_compute. reflexivity. Qed.

Lemma claims_are_exclusive_witness :
  V1.run_schedule Demo.race_schedule (V1.start Demo.race_table)
  = Some Demo.race_final
  /\ NoDup (List.map snd (V1.claimed Demo.race_final)).
Proof.
  split; [vm_compute; reflexivity|].
  apply (claims_are_exclusive Demo.race_table Demo.race_schedule).
  vm_compute; reflexivity.
Defined.

(* ===================================================================== *)
(** * Computations that only read the table                               *)
(* ===================================================================== *)

Section ReadsOnly.
Context `{Runtime}.

Lemma reads_only_ret {A} (a : A) : reads_only (mret a).
Proof.
  intros w. exists (Ok a), []. rewrite app_nil_r. destruct w; reflexivity.
Qed.

Lemma reads_only_raise {A} (e : exn) : reads_only (raise (A:=A) e).
Proof.
  intros w. exists (Raise e), []. rewrite app_nil_r. destruct w; reflexivity.
Qed.

Lemma reads_only_lift {A} (r : result A) : reads_only (lift r).
Proof.
  intros w. exists r, []. rewrite app_nil_r. destruct w; reflexivity.
Qed.

Lemma reads_only_get_db : reads_only get_db.
Proof.
  intros w. exists (Ok (db w)), []. rewrite app_nil_r. destruct w; reflexivity.
Qed.

Lemma reads_only_emit (e : event) : reads_only (emit e).
Proof. intros w. exists (Ok tt), [e]. reflexivity. Qed.

Lemma reads_only_log (msg : string) : reads_only (log msg).
Proof. apply reads_only_emit. Qed.

Lemma reads_only_call (h : host) (e : event) : reads_only (call h e).
Proof.
  intros w. unfold call. destruct (fails h e) as [x|].
  - exists (Raise x), [e]. reflexivity.
  - exists (Ok tt), [e]. reflexivity.
Qed.

Lemma reads_only_bind {A B} (m : M A) (k : A -> M B) :
  reads_only m -> (forall a, reads_only (k a)) -> reads_only (m ≫= k).
Proof.
  intros Hm Hk w. destruct (Hm w) as (r & later & Hw).
  unfold mbind, M_bind. rewrite Hw. destruct r as [a|e].
  - destruct (Hk a {| db := db w; trace := (trace w ++ later)%list |})
      as (r' & later' & Hw').
    exists r', (later ++ later')%list. rewrite Hw'. cbn [db trace].
    rewrite app_assoc. reflexivity.
  - exists (Raise e), later. reflexivity.
Qed.

Lemma reads_only_try_except {A} (m : M A) (handler : exn -> M A) :
  reads_only m -> (forall e, reads_only (handler e)) ->
  reads_only (try_except m handler).
Proof.
  intros Hm Hh w. destruct (Hm w) as (r & later & Hw).
  unfold try_except. rewrite Hw. destruct r as [a|e].
  - exists (Ok a), later. reflexivity.
  - destruct (Hh e {| db := db w; trace := (trace w ++ later)%list |})
      as (r' & later' & Hw').
    exists r', (later ++ later')%list. rewrite Hw'. cbn [db trace].
    rewrite app_assoc. reflexivity.
Qed.

Lemma reads_only_for_each {A} (xs : list A) (body : A -> M unit) :
  (forall x, reads_only (body x)) -> reads_only (for_each xs body).
Proof.
  intros Hbody. induction xs as [|x xs IH]; cbn [for_each].
  - apply reads_only_ret.
  - apply reads_only_bind; [apply Hbody | intros _; exact IH].
Qed.

End ReadsOnly.

(** Decompose a computation into its binds and branches. *)
Ltac reads_only_step :=
  first
    [ apply reads_only_ret
    | apply reads_only_raise
    | apply reads_only_lift
    | apply reads_only_get_db
    | apply reads_only_log
    | apply reads_only_emit
    | apply reads_only_call
    | apply reads_only_bind; [|intros ?]
    | apply reads_only_for_each; intros ?
    | apply reads_only_try_except; [|intros ?]
    | match goal with
      | |- reads_only (match ?x with _ => _ end) => destruct x
      | |- reads_only (let '(_, _) := ?x in _) => destruct x
      end ].

Ltac reads_only_auto := repeat reads_only_step.

Section ReadsOnlyServices.
Context `{Runtime}.

Lemma reads_only_fetch_job (id : string) : reads_only (V1._fetch_job id).
Proof. unfold V1._fetch_job. reads_only_auto. Qed.

Lemma reads_only_counts_v1 (h : host) : reads_only (V1.get_job_status_counts h).
Proof. unfold V1.get_job_status_counts. reads_only_auto. Qed.

Lemma reads_only_row_resources (id : string) (row : job) :
  reads_only (V1.row_resources id row).
Proof. unfold V1.row_resources. reads_only_auto. Qed.

Lemma reads_only_build_tfvars (h : host) (id : string) (row : job)
    (name : string) :
  reads_only (V1.build_tfvars h id row name).
Proof.
  unfold V1.build_tfvars.
  apply reads_only_bind; [apply reads_only_lift | intros storage].
  apply reads_only_bind; [apply reads_only_row_resources | intros r].
  reads_only_auto.
Qed.

Lemma reads_only_run_job_sync (h : host) (work_id : Z) (id : string) :
  reads_only (V1._run_job_sync h work_id id).
Proof.
  unfold V1._run_job_sync.
  apply reads_only_bind; [apply reads_only_fetch_job | intros [row|]].
  2: reads_only_auto.
  destruct (negb (autorun_present h)); [reads_only_auto|].
  apply reads_only_bind; [apply reads_only_call | intros _].
  apply reads_only_bind; [apply reads_only_build_tfvars | intros tfvars].
  reads_only_auto.
Qed.

Lemma reads_only_fetch_job_v2 (id : string) : reads_only (V2._fetch_job id).
Proof. unfold V2._fetch_job. reads_only_auto. Qed.

Lemma reads_only_counts_v2 : reads_only V2.get_job_status_counts.
Proof. unfold V2.get_job_status_counts. reads_only_auto. Qed.

Lemma reads_only_get_job_status_v2 (id : string) :
  reads_only (V2._get_job_status id).
Proof.
  unfold V2._get_job_status.
  apply reads_only_bind; [apply reads_only_fetch_job_v2 | intros [row|]].
  2: reads_only_auto.
  apply reads_only_bind; [reads_only_auto | intros r].
  apply reads_only_bind; [apply reads_only_counts_v2 | intros counts].
  reads_only_auto.
Qed.

End ReadsOnlyServices.

(* ===================================================================== *)
(** * Reconciliation on startup                                           *)
(* ===================================================================== *)

Section Reconciliation.
Context `{Runtime}.

Lemma reconciled_rowcount (t : list job) :
  snd (sql_update (has_status "running") (set_status "failed") t)
  = count_status "running" t.
Proof.
  unfold sql_update, count_status; cbn [snd]. f_equal. f_equal.
  induction t as [|j t IH]; cbn [List.filter]; [reflexivity|].
  destruct (has_status "running" j) eqn:Hs; cbn [andb]; [|exact IH].
  apply has_status_true in Hs.
  rewrite bool_decide_eq_false_2; [cbn [negb]; rewrite IH; reflexivity|].
  apply set_status_changes. rewrite Hs. discriminate.
Qed.

Lemma reconciled_none_running (t : list job) :
  Forall (fun j => status j <> "running") (reconciled t).
Proof.
  unfold reconciled. induction t as [|j t IH]; cbn [List.map]; constructor.
  - destruct (has_status "running" j) eqn:Hs; [discriminate|].
    apply has_status_false. exact Hs.
  - exact IH.
Qed.

Lemma reconciled_rows (t : list job) :
  Forall2
    (fun j j' =>
       (status j = "running" -> status j' = "failed")
       /\ (status j <> "running" -> j' = j)
       /\ same_but_status j j'
       /\ (returncode j = None -> returncode j' = None))
    t (reconciled t).
Proof.
  unfold reconciled. induction t as [|j t IH]; cbn [List.map]; constructor.
  - destruct (has_status "running" j) eqn:Hs.
    + apply has_status_true in Hs.
      split; [reflexivity|]. split; [congruence|].
      split; [repeat split | intros Hrc; exact Hrc].
    + apply has_status_false in Hs.
      split; [congruence|]. split; [reflexivity|].
      split; [repeat split | intros Hrc; exact Hrc].
  - exact IH.
Qed.

Lemma reset_running_jobs_to_failed_run (w : world) :
  let n := count_status "running" (db w) in
  V1.reset_running_jobs_to_failed w
  = (Ok n,
     {| db := reconciled (db w);
        trace :=
          (trace w
           ++ (if n =? 0 then []
               else [Log ("[db] reset " ++ string_of_Z n
                          ++ " running jobs to failed on startup")]))%list |}).
Proof.
  cbv zeta. unfold V1.reset_running_jobs_to_failed, execute_update.
  unfold mbind, M_bind, mret, M_ret.
  pose proof (reconciled_rowcount (db w)) as Hn.
  destruct (sql_update (has_status "running") (set_status "failed") (db w))
    as [t' n] eqn:Hupd.
  assert (Ht' : t' = reconciled (db w)).
  { change t' with (fst (t', n)). rewrite <- Hupd. reflexivity. }
  cbn [snd] in Hn. subst n t'.
  destruct (count_status "running" (db w) =? 0); cbn [negb].
  - unfold mret, M_ret. cbn [db trace]. rewrite app_nil_r. reflexivity.
  - reflexivity.
Qed.

(** C3.  The reconciliation step turns every [running] row into a
    [failed] one and touches nothing else of it, so that a [returncode]
    that was null stays null; it answers the number of rows it changed and
    logs it when it is not zero; and [start_workers] runs it first, so
    that the worker threads, the only callers of a claim, are started on a
    table without [running] rows. *)
Theorem reset_running_jobs_to_failed_spec (h : host) (w : world) :
  let n := count_status "running" (db w) in
  let reported :=
    if n =? 0 then []
    else [Log ("[db] reset " ++ string_of_Z n
               ++ " running jobs to failed on startup")] in
  V1.reset_running_jobs_to_failed w
  = (Ok n, {| db := reconciled (db w); trace := (trace w ++ reported)%list |})
  /\ Forall (fun j => status j <> "running") (reconciled (db w))
  /\ Forall2
       (fun j j' =>
          (status j = "running" -> status j' = "failed")
          /\ (status j <> "running" -> j' = j)
          /\ same_but_status j j'
          /\ (returncode j = None -> returncode j' = None))
       (db w) (reconciled (db w))
  /\ exists r later,
       V1.start_workers h w
       = (r, {| db := reconciled (db w);
                trace := ((trace w ++ reported) ++ later)%list |})
       /\ Forall (fun e => forall i, e <> StartThread i) reported.
Proof.
  cbv zeta. split; [apply reset_running_jobs_to_failed_run|].
  split; [apply reconciled_none_running|].
  split; [apply reconciled_rows|].
  unfold V1.start_workers. unfold mbind at 1. unfold M_bind.
  rewrite reset_running_jobs_to_failed_run.
  match goal with
  | |- context [?m {| db := reconciled (db w); trace := ?tr |}] =>
      assert (Hro : reads_only m)
  end.
  { destruct (getenv h "EXECUTOR_WORKERS") as [worker_env|];
      [|apply reads_only_raise].
    destruct (String.eqb worker_env ""); [apply reads_only_raise|].
    apply reads_only_bind; [apply reads_only_lift | intros n].
    apply reads_only_bind.
    - apply reads_only_for_each. intros i. apply reads_only_emit.
    - intros _. apply reads_only_bind; [apply reads_only_counts_v1|].
      intros counts. apply reads_only_log. }
  match goal with
  | |- context [?m {| db := reconciled (db w); trace := ?tr |}] =>
      destruct (Hro {| db := reconciled (db w); trace := tr |})
        as (r & later & Hrun)
  end.
  exists r, later. split; [exact Hrun|].
  destruct (count_status "running" (db w) =? 0); repeat constructor.
  intros i; discriminate.
Qed.

End Reconciliation.

(* ===================================================================== *)
(** * Kill requests at the gateway                                        *)
(* ===================================================================== *)

Section GatewayKill.
Context `{Runtime}.

Lemma run_bind {A B} (m : M A) (k : A -> M B) (w : world) :
  (m ≫= k) w
  = match m w with
    | (Ok a, w') => k a w'
    | (Raise e, w') => (Raise e, w')
    end.
Proof. reflexivity. Qed.

Lemma select_by_id_updated (id : string) (set_ : job -> job) (t : list job) :
  (forall j, job_id (set_ j) = job_id j) ->
  select_by_id id (fst (sql_update (has_id id) set_ t))
  = set_ <$> select_by_id id t.
Proof.
  intros Hkey. rewrite sql_update_rows. unfold select_by_id.
  induction t as [|j t IH]; cbn [List.map List.find]; [reflexivity|].
  destruct (has_id id j) eqn:Hj.
  - unfold has_id in *. rewrite Hkey, Hj. reflexivity.
  - rewrite Hj. exact IH.
Qed.

Lemma bind_ok {A B} (m : M A) (k : A -> M B) (w w' : world) (b : B) :
  (m ≫= k) w = (Ok b, w') ->
  exists a w1, m w = (Ok a, w1) /\ k a w1 = (Ok b, w').
Proof.
  rewrite run_bind. destruct (m w) as [[a|e] w1]; [eauto | discriminate].
Qed.

Lemma get_job_status_v2_reports_status (id : string) (row : job) (w : world)
    (js : V2.JobStatus) (w' : world) :
  select_by_id id (db w) = Some row -> status row <> "" ->
  V2._get_job_status id w = (Ok js, w') ->
  V2.js_status js = status row.
Proof.
  intros Hrow Hne. unfold V2._get_job_status.
  rewrite run_bind. unfold V2._fetch_job. rewrite run_bind.
  unfold get_db at 1. unfold mret at 1, M_ret at 1. rewrite Hrow.
  intros Hrun.
  apply bind_ok in Hrun as (resources & w1 & _ & Hrun).
  apply bind_ok in Hrun as (counts & w2 & _ & Hrun).
  apply bind_ok in Hrun as (u & w3 & _ & Hrun).
  destruct (match json_loads (V2.text_or (metadata row) "{}") with
            | Some v => v
            | None => VDict ∅
            end); try discriminate.
  inversion Hrun. cbn [V2.js_status V2.text_or].
  apply String.eqb_neq in Hne. rewrite Hne. reflexivity.
Qed.

(** C10.  At the gateway a kill request on an existing job writes
    [killing] over whatever status the job had, a terminal one included:
    the row keeps everything but its status, and a status report that
    comes back says [killing]. *)
Theorem kill_job_marks_killing (job_id : string) (row : job) (w : world) :
  select_by_id job_id (db w) = Some row ->
  let t' :=
    List.map (fun j => if has_id job_id j then set_status "killing" j else j)
      (db w) in
  exists r later,
    V2.kill_job job_id w
    = (r, {| db := t'; trace := (trace w ++ later)%list |})
    /\ select_by_id job_id t' = Some (set_status "killing" row)
    /\ Forall2
         (fun j j' =>
            (Store.job_id j = job_id -> status j' = "killing")
            /\ (Store.job_id j <> job_id -> j' = j)
            /\ same_but_status j j')
         (db w) t'
    /\ (forall js, r = Ok js -> V2.js_status js = "killing").
Proof.
  intros Hrow t'.
  assert (Hrow' : select_by_id job_id t' = Some (set_status "killing" row)).
  { subst t'. rewrite <- sql_update_rows.
    rewrite select_by_id_updated by reflexivity. rewrite Hrow. reflexivity. }
  assert (Hrows : Forall2
         (fun j j' =>
            (Store.job_id j = job_id -> status j' = "killing")
            /\ (Store.job_id j <> job_id -> j' = j)
            /\ same_but_status j j')
         (db w) t').
  { subst t'. clear. induction (db w) as [|j t IH]; cbn [List.map]; constructor.
    - destruct (has_id job_id j) eqn:Hj.
      + apply has_id_true in Hj.
        split; [reflexivity|]. split; [congruence|]. repeat split.
      + assert (Store.job_id j <> job_id).
        { intros Hid. apply has_id_true in Hid. congruence. }
        split; [congruence|]. split; [reflexivity|]. repeat split.
    - exact IH. }
  unfold V2.kill_job. rewrite run_bind. unfold log at 1, emit at 1.
  rewrite run_bind. unfold V2._fetch_job at 1. rewrite run_bind.
  unfold get_db at 1. cbn [db trace]. unfold mret at 1, M_ret at 1.
  rewrite Hrow. rewrite run_bind. unfold execute_update at 1. cbn [db trace].
  assert (Hu : fst (sql_update (has_id job_id) (set_status "killing") (db w))
               = t') by reflexivity.
  destruct (sql_update (has_id job_id) (set_status "killing") (db w))
    as [t1 n] eqn:Hupd.
  cbn [fst] in Hu. clearbody t'. subst t1.
  match goal with
  | |- context [?m {| db := t'; trace := ?tr |}] =>
      assert (Hro : reads_only m);
      [| destruct (Hro {| db := t'; trace := tr |}) as (r & later & Hrun) ]
  end.
  { apply reads_only_bind; [apply reads_only_counts_v2 | intros counts].
    apply reads_only_bind; [apply reads_only_log | intros _].
    apply reads_only_get_job_status_v2. }
  eexists r, (_ :: later). split.
  { rewrite Hrun. cbn [db trace]. rewrite <- app_assoc. reflexivity. }
  split; [exact Hrow'|]. split; [exact Hrows|].
  intros js ->.
  apply bind_ok in Hrun as (counts & w1 & Hc & Hrun).
  apply bind_ok in Hrun as (u & w2 & Hl & Hrun).
  destruct (reads_only_counts_v2 {| db := t'; trace := (trace w
     ++ [Log ("[api] kill request for job " ++ job_id)])%list |})
    as (rc & lc & Hc').
  rewrite Hc' in Hc. inversion Hc; subst w1 rc.
  unfold log, emit in Hl. inversion Hl; subst w2. cbn [db trace] in Hrun.
  apply get_job_status_v2_reports_status
    with (row := set_status "killing" row) in Hrun.
  - exact Hrun.
  - exact Hrow'.
  - discriminate.
Qed.

End GatewayKill.

Lemma kill_job_marks_killing_witness :
  let w := {| db := [Demo.a_job "job-a" "finished" "{}" 1]; trace := [] |} in
  select_by_id "job-a" (db w) = Some (Demo.a_job "job-a" "finished" "{}" 1)
  /\ exists r later,
       V2.kill_job "job-a" w
       = (r, {| db := [Demo.a_job "job-a" "killing" "{}" 1];
                trace := (trace w ++ later)%list |}).
Proof.
  split; [reflexivity|].
  destruct (kill_job_marks_killing "job-a"
              (Demo.a_job "job-a" "finished" "{}" 1)
              {| db := [Demo.a_job "job-a" "finished" "{}" 1]; trace := [] |}
              eq_refl) as (r & later & Hrun & _).
  exists r, later. exact Hrun.
Defined.

(* ===================================================================== *)
(** * Resource normalization                                              *)
(* ===================================================================== *)

Section Normalizer.
Context `{Runtime}.

Lemma validate_opt_int_of_opt (o : option Z) :
  validate_opt_int (of_opt_int o) = Ok o.
Proof. destruct o; reflexivity. Qed.

Lemma validate_opt_str_of_opt (o : option string) :
  validate_opt_str (of_opt_str o) = Ok o.
Proof. destruct o; reflexivity. Qed.

Lemma validate_opt_int_ok (v : value) (o : option Z) :
  validate_opt_int v = Ok o -> validate_opt_int (of_opt_int o) = Ok o.
Proof. intros _. apply validate_opt_int_of_opt. Qed.

(** A normalized record of the executor is a fixed point. *)
Lemma normalize_resources_v1_canonical (c r g : option Z) (s : option string)
    (d : option Z) :
  let spec := {| V1.cpu := c; V1.ram := r; V1.gpu := g; V1.shape := s;
                 V1.disk := d; V1.extra := ∅ |} in
  V1.normalize_resources (V1.Model spec) = Ok (Some spec).
Proof.
  cbv zeta. unfold V1.normalize_resources, V1.resources_data.
  destruct c, r, g, s, d; vm_compute; reflexivity.
Qed.

(** A normalized record of the gateway is a fixed point. *)
Lemma normalize_resources_v2_canonical (c r : option Z) (a : Z)
    (s : option string) (d : option Z) :
  let spec := {| V2.cpu := c; V2.ram := r; V2.accelerator := Some a;
                 V2.shape := s; V2.disk := d; V2.extra := ∅ |} in
  V2.normalize_resources (V2.Model spec) = Ok (Some spec).
Proof.
  cbv zeta. unfold V2.normalize_resources, V2.resources_data.
  destruct c, r, s, d; vm_compute; reflexivity.
Qed.

Ltac invert_result_binds H :=
  repeat match type of H with
  | (?m ≫= _) = Ok _ =>
      let r := fresh "r" in
      destruct m as [r|?] eqn:?; cbn [mbind result_bind] in H;
      [|discriminate H]
  end.

Lemma normalize_resources_v1_result (x : V1.resources_arg)
    (spec : V1.ResourceSpec) :
  V1.normalize_resources x = Ok (Some spec) -> V1.extra spec = ∅.
Proof.
  unfold V1.normalize_resources. intros Hx.
  destruct x as [r|[]]; try discriminate Hx;
    invert_result_binds Hx; inversion Hx; reflexivity.
Qed.

Lemma normalize_resources_v2_result (x : V2.resources_arg)
    (spec : V2.ResourceSpec) :
  V2.normalize_resources x = Ok (Some spec) ->
  V2.extra spec = ∅ /\ exists a, V2.accelerator spec = Some a.
Proof.
  unfold V2.normalize_resources. intros Hx.
  destruct x as [r|[]]; try discriminate Hx;
    invert_result_binds Hx; inversion Hx; cbn;
    match goal with
    | Hv : validate_opt_int (VInt _) = Ok _ |- _ => inversion Hv
    end; eauto.
Qed.

(** C7.  In both services, normalizing what normalization returned gives
    it back unchanged; where the first pass raises there is nothing to
    normalize again. *)
Theorem normalize_resources_idempotent :
  (forall x : V1.resources_arg,
     (V1.normalize_resources x ≫= fun o => V1.normalize_resources (again_v1 o))
     = V1.normalize_resources x)
  /\ (forall x : V2.resources_arg,
        (V2.normalize_resources x
           ≫= fun o => V2.normalize_resources (again_v2 o))
        = V2.normalize_resources x).
Proof.
  split; intros x.
  - destruct (V1.normalize_resources x) as [[spec|]|e] eqn:Hx;
      cbn [mbind result_bind again_v1]; try reflexivity.
    apply normalize_resources_v1_result in Hx.
    destruct spec as [c r g s d ex]. cbn in Hx. subst ex.
    apply normalize_resources_v1_canonical.
  - destruct (V2.normalize_resources x) as [[spec|]|e] eqn:Hx;
      cbn [mbind result_bind again_v2]; try reflexivity.
    apply normalize_resources_v2_result in Hx as [Hex [a Ha]].
    destruct spec as [c r acc s d ex]. cbn in Hex, Ha. subst ex acc.
    apply normalize_resources_v2_canonical.
Qed.

(** The three assignments of the gateway are a first-match-wins search. *)
Lemma accelerator_raw_first_match (data : gmap string value) :
  V2.accelerator_raw data
  = default VNone (first_match data accelerator_precedence).
Proof.
  unfold V2.accelerator_raw, dict_get, accelerator_precedence.
  cbn [first_match].
  destruct (data !! "accelerator") as [[]|];
    destruct (data !! "gpu") as [[]|];
    destruct (data !! "acceleratornum") as [[]|]; reflexivity.
Qed.

Lemma first_match_not_none (data : gmap string value) (keys : list string) :
  first_match data keys <> Some VNone.
Proof.
  induction keys as [|k keys IH]; cbn [first_match]; [discriminate|].
  destruct (data !! k) as [[]|]; try discriminate; exact IH.
Qed.

Lemma gpu_first_match (data : gmap string value) :
  (if negb (is_none (dict_get data "gpu")) then dict_get data "gpu"
   else dict_get data "acceleratornum")
  = default VNone (first_match data gpu_precedence).
Proof.
  unfold dict_get, gpu_precedence. cbn [first_match].
  destruct (data !! "gpu") as [[]|];
    destruct (data !! "acceleratornum") as [[]|]; reflexivity.
Qed.

Lemma normalize_resources_v2_unfold (x : V2.resources_arg)
    (data : gmap string value) :
  V2.resources_data x = Ok data -> x <> V2.Plain VNone ->
  V2.normalize_resources x
  = (cpu' ← validate_opt_int (dict_get data "cpu");
     ram' ← validate_opt_int (dict_get data "ram");
     shape' ← validate_opt_str (V2.get_first data V2.shape_keys);
     disk' ← validate_opt_int (V2.get_first data V2.disk_keys);
     Ok (Some {| V2.cpu := cpu'; V2.ram := ram';
                 V2.accelerator :=
                   Some (V2.accelerator_count (V2.accelerator_raw data));
                 V2.shape := shape'; V2.disk := disk'; V2.extra := ∅ |})).
Proof.
  intros Hdata Hx. unfold V2.normalize_resources.
  destruct x as [r|v]; [|destruct v; try contradiction]; rewrite Hdata;
    cbn [mbind result_bind validate_opt_int];
    destruct (validate_opt_int (dict_get data "cpu"));
    cbn [mbind result_bind]; try reflexivity;
    destruct (validate_opt_int (dict_get data "ram"));
    cbn [mbind result_bind]; reflexivity.
Qed.

Lemma normalize_resources_v1_unfold (x : V1.resources_arg)
    (data : gmap string value) :
  V1.resources_data x = Ok data -> x <> V1.Plain VNone ->
  V1.normalize_resources x
  = (cpu' ← validate_opt_int (dict_get data "cpu");
     ram' ← validate_opt_int (dict_get data "ram");
     gpu' ← validate_opt_int (default VNone (first_match data gpu_precedence));
     shape' ← validate_opt_str (V1.get_first data V1.shape_keys);
     disk' ← validate_opt_int (V1.get_first data V1.disk_keys);
     Ok (Some {| V1.cpu := cpu'; V1.ram := ram'; V1.gpu := gpu';
                 V1.shape := shape'; V1.disk := disk'; V1.extra := ∅ |})).
Proof.
  intros Hdata Hx. unfold V1.normalize_resources.
  destruct x as [r|v]; [|destruct v; try contradiction]; rewrite Hdata;
    cbn [mbind result_bind]; rewrite gpu_first_match; reflexivity.
Qed.

(** C8.  At the gateway the accelerator count of a resource object is the
    integer value of the first of [accelerator], [gpu], [acceleratornum]
    that the object carries with a value other than [None]; it is [0] when
    there is none and [0] when that value does not convert to an integer,
    and no accelerator value makes normalization raise: it succeeds as
    soon as cpu, ram, shape and disk validate.  At the executor the count
    is the first of [gpu], [acceleratornum] only, stays unset when there is
    none, and a value that does not validate makes normalization raise. *)
Theorem accelerator_resolution :
  (forall (x : V2.resources_arg) (data : gmap string value),
     V2.resources_data x = Ok data -> x <> V2.Plain VNone ->
     let count :=
       match first_match data accelerator_precedence with
       | None => 0
       | Some v => match py_int v with Ok z => z | Raise _ => 0 end
       end in
     (forall r, V2.normalize_resources x = Ok (Some r) ->
                V2.accelerator r = Some count)
     /\ (forall c m s d,
           validate_opt_int (dict_get data "cpu") = Ok c ->
           validate_opt_int (dict_get data "ram") = Ok m ->
           validate_opt_str (V2.get_first data V2.shape_keys) = Ok s ->
           validate_opt_int (V2.get_first data V2.disk_keys) = Ok d ->
           V2.normalize_resources x
           = Ok (Some {| V2.cpu := c; V2.ram := m;
                         V2.accelerator := Some count; V2.shape := s;
                         V2.disk := d; V2.extra := ∅ |})))
  /\ (forall (x : V1.resources_arg) (data : gmap string value),
        V1.resources_data x = Ok data -> x <> V1.Plain VNone ->
        let found := first_match data gpu_precedence in
        (forall r, V1.normalize_resources x = Ok (Some r) ->
                   validate_opt_int (default VNone found) = Ok (V1.gpu r)
                   /\ (found = None -> V1.gpu r = None))
        /\ (forall e, validate_opt_int (default VNone found) = Raise e ->
                      V1.normalize_resources x = Raise ValidationError)).
Proof.
  split.
  - intros x data Hdata Hx count.
    assert (Hcount : V2.accelerator_count (V2.accelerator_raw data) = count).
    { subst count. rewrite accelerator_raw_first_match.
      unfold V2.accelerator_count.
      destruct (first_match data accelerator_precedence) as [[]|];
        reflexivity. }
    rewrite (normalize_resources_v2_unfold x data Hdata Hx), Hcount.
    split.
    + intros r Hr. invert_result_binds Hr. inversion Hr. reflexivity.
    + intros c m s d -> -> -> ->. reflexivity.
  - intros x data Hdata Hx found.
    rewrite (normalize_resources_v1_unfold x data Hdata Hx). fold found.
    split.
    + intros r Hr. invert_result_binds Hr. inversion Hr. cbn [V1.gpu].
      split; [reflexivity|]. intros Hnone.
      match goal with
      | Hv : validate_opt_int (default VNone found) = Ok _ |- _ =>
          rewrite Hnone in Hv; inversion Hv; reflexivity
      end.
    + intros e He. rewrite He.
      assert (Hraise : forall v e', validate_opt_int v = Raise e' ->
                                    e' = ValidationError).
      { intros v e'. unfold validate_opt_int.
        destruct v; try discriminate;
          match goal with
          | |- context [lax_int ?v] => destruct (lax_int v)
          end; intros Hv; inversion Hv; reflexivity. }
      destruct (validate_opt_int (dict_get data "cpu")) as [c|e1] eqn:Hc;
        cbn [mbind result_bind]; [|rewrite (Hraise _ _ Hc); reflexivity].
      destruct (validate_opt_int (dict_get data "ram")) as [m|e2] eqn:Hm;
        cbn [mbind result_bind]; [|rewrite (Hraise _ _ Hm); reflexivity].
      rewrite (Hraise _ _ He). reflexivity.
Qed.

End Normalizer.

Lemma accelerator_resolution_witness :
  let data : gmap string value := {[ "gpu" := VStr "many" ]} in
  V2.resources_data (V2.Plain (VDict data)) = Ok data
  /\ V2.Plain (VDict data) <> V2.Plain VNone
  /\ V2.normalize_resources (V2.Plain (VDict data))
     = Ok (Some {| V2.cpu := None; V2.ram := None; V2.accelerator := Some 0;
                   V2.shape := None; V2.disk := None; V2.extra := ∅ |}).
Proof.
  cbv zeta. split; [reflexivity|]. split; [discriminate|].
  destruct (proj1 accelerator_resolution
              (V2.Plain (VDict {[ "gpu" := VStr "many" ]}))
              {[ "gpu" := VStr "many" ]} eq_refl ltac:(discriminate))
    as [_ Hok].
  apply (Hok None None None None); reflexivity.
Defined.

(** The executor does not look at [accelerator]: a request that names
    three accelerators under that key comes out with no count at all. *)
Lemma accelerator_key_ignored_by_executor :
  exists r,
    V1.normalize_resources (V1.Plain (VDict {[ "accelerator" := VInt 3 ]}))
    = Ok (Some r)
    /\ V1.gpu r <> Some 3 /\ V1.gpu r <> Some 0.
Proof.
  eexists. split; [vm_compute; reflexivity|].
  split; discriminate.
Qed.

(** A gateway model built from a body that only says [gpu] already carries
    the default [accelerator = 0], which is then the first match. *)
Example gateway_model_default_wins :
  V2.normalize_resources
    (V2.Model {| V2.cpu := None; V2.ram := None; V2.accelerator := Some 0;
                 V2.shape := None; V2.disk := None;
                 V2.extra := {[ "gpu" := VInt 2 ]} |})
  = Ok (Some {| V2.cpu := None; V2.ram := None; V2.accelerator := Some 0;
                V2.shape := None; V2.disk := None; V2.extra := ∅ |}).
Proof. vm_compute. reflexivity. Qed.

Example gateway_gpu_alias :
  V2.normalize_resources
    (V2.Plain (VDict (<["gpu" := VInt 2]> {[ "acceleratornum" := VInt 7 ]})))
  = Ok (Some {| V2.cpu := None; V2.ram := None; V2.accelerator := Some 2;
                V2.shape := None; V2.disk := None; V2.extra := ∅ |}).
Proof. vm_compute. reflexivity. Qed.

Example executor_aliases :
  V1.normalize_resources
    (V1.Plain (VDict (<["acceleratornum" := VInt 2]>
                        (<["gpushape" := VStr "A10"]>
                           (<["cpu" := VStr "4"]>
                              {[ "bootdisk" := VInt 50 ]})))))
  = Ok (Some {| V1.cpu := Some 4; V1.ram := None; V1.gpu := Some 2;
                V1.shape := Some "A10"; V1.disk := Some 50; V1.extra := ∅ |}).
Proof. vm_compute. reflexivity. Qed.

(* ===================================================================== *)
(** * Memory in gigabytes                                                 *)
(* ===================================================================== *)

Section Memory.
Context `{Runtime}.

Lemma Qle_bool_inject (a b : Z) :
  Qle_bool (inject_Z a) (inject_Z b) = (a <=? b).
Proof. unfold Qle_bool, inject_Z; cbn. rewrite !Z.mul_1_r. reflexivity. Qed.

Lemma Qceiling_gigabytes (z : Z) :
  Qceiling (inject_Z z / inject_Z (1024 ^ 3)) = (z + 1073741823) / 1073741824.
Proof.
  change (1024 ^ 3) with 1073741824.
  unfold Qceiling, Qfloor, Qdiv, Qmult, Qinv, Qopp, inject_Z. cbn.
  rewrite Z.mul_1_r. Z.div_mod_to_equations. lia.
Qed.

Lemma Qfloor_inject (z : Z) : Qfloor (inject_Z z) = z.
Proof. unfold Qfloor, inject_Z. apply Z.div_1_r. Qed.

Lemma float_of_int_exact (z : Z) :
  Z.abs z < 2 ^ 53 -> float_of_int z = Ok (FFinite (inject_Z z)).
Proof.
  intros Hz. unfold float_of_int. apply Z.ltb_lt in Hz. rewrite Hz.
  reflexivity.
Qed.

(** C9.  The executor's conversion of an integer amount of memory below
    [2^53] (which [float] represents exactly): above 1,000,000 it is the
    ceiling of the amount over [2^30]; from 1 to 1,000,000 it is the amount
    itself; at zero and below it is unknown.  [None], and whatever [float]
    rejects by type or by value, is unknown as well.  The gateway's
    function of the same name answers unknown for every input. *)
Theorem normalize_ram_gb_spec :
  (forall z, 1000000 < z -> z < 2 ^ 53 ->
     V1.normalize_ram_gb (VInt z) = Ok (Some ((z + 1073741823) / 1073741824)))
  /\ (forall z, 0 < z -> z <= 1000000 ->
        V1.normalize_ram_gb (VInt z) = Ok (Some z))
  /\ (forall z, z <= 0 -> - 2 ^ 53 < z -> V1.normalize_ram_gb (VInt z) = Ok None)
  /\ V1.normalize_ram_gb VNone = Ok None
  /\ (forall s, float_of_str s = None -> V1.normalize_ram_gb (VStr s) = Ok None)
  /\ (forall l, V1.normalize_ram_gb (VList l) = Ok None)
  /\ (forall d, V1.normalize_ram_gb (VDict d) = Ok None)
  /\ V1.normalize_ram_gb (VInt 2147483648) = Ok (Some 2)
  /\ V1.normalize_ram_gb (VInt 4) = Ok (Some 4)
  /\ (forall v, V2.normalize_ram_gb v = Ok None).
Proof.
  assert (Hbig : forall z, 1000000 < z -> z < 2 ^ 53 ->
     V1.normalize_ram_gb (VInt z) = Ok (Some ((z + 1073741823) / 1073741824))).
  { intros z Hlo Hhi. unfold V1.normalize_ram_gb, py_float.
    rewrite float_of_int_exact by lia.
    unfold float_le_0, float_gt. change 0%Q with (inject_Z 0).
    rewrite !Qle_bool_inject.
    destruct (z <=? 0) eqn:H0; [apply Z.leb_le in H0; lia|].
    destruct (z <=? 1000000) eqn:H1; [apply Z.leb_le in H1; lia|].
    cbn [negb float_div math_ceil mbind result_bind].
    rewrite Qceiling_gigabytes. reflexivity. }
  assert (Hsmall : forall z, 0 < z -> z <= 1000000 ->
     V1.normalize_ram_gb (VInt z) = Ok (Some z)).
  { intros z Hlo Hhi. unfold V1.normalize_ram_gb, py_float.
    rewrite float_of_int_exact by lia.
    unfold float_le_0, float_gt. change 0%Q with (inject_Z 0).
    rewrite !Qle_bool_inject.
    destruct (z <=? 0) eqn:H0; [apply Z.leb_le in H0; lia|].
    apply Z.leb_le in Hhi. rewrite Hhi.
    cbn [negb int_of_float mbind result_bind]. unfold Qtrunc.
    change 0%Q with (inject_Z 0). rewrite Qle_bool_inject.
    replace (0 <=? z) with true by (symmetry; apply Z.leb_le; lia).
    rewrite Qfloor_inject. reflexivity. }
  split; [exact Hbig|]. split; [exact Hsmall|]. split.
  { intros z Hz Hlo. unfold V1.normalize_ram_gb, py_float.
    rewrite float_of_int_exact by lia.
    unfold float_le_0. change 0%Q with (inject_Z 0). rewrite Qle_bool_inject.
    apply Z.leb_le in Hz. rewrite Hz. reflexivity. }
  split; [reflexivity|]. split.
  { intros s Hs. unfold V1.normalize_ram_gb, py_float. rewrite Hs.
    reflexivity. }
  split; [reflexivity|]. split; [reflexivity|]. split.
  { rewrite Hbig by lia. reflexivity. }
  split; [apply Hsmall; lia | reflexivity].
Qed.

End Memory.

Lemma normalize_ram_gb_spec_witness :
  1000000 < 5000000000 /\ 5000000000 < 2 ^ 53
  /\ V1.normalize_ram_gb (VInt 5000000000) = Ok (Some 5).
Proof.
  split; [reflexivity|]. split; [reflexivity|].
  apply (proj1 normalize_ram_gb_spec 5000000000); reflexivity.
Defined.

(** The gateway's stub does not convert: two gibibytes in bytes come out
    unknown, not as 2. *)
Lemma gateway_ram_is_unknown :
  V2.normalize_ram_gb (VInt 2147483648) <> Ok (Some 2).
Proof. discriminate. Qed.

(** Beyond [2^53] the conversion to [float] rounds first: one byte above
    [2^60] comes out as [2^30] gigabytes, one short of the ceiling. *)
Example ram_rounds_before_ceiling :
  V1.normalize_ram_gb (VInt (2 ^ 60 + 1)) = Ok (Some (2 ^ 30))
  /\ (2 ^ 60 + 1 + 1073741823) / 1073741824 = 2 ^ 30 + 1.
Proof. split; vm_compute; reflexivity. Qed.

(* ===================================================================== *)
(** * The generated command script                                        *)
(* ===================================================================== *)

Section Script.
Context `{Runtime}.

Lemma append_assoc (a b c : string) : (a ++ b) ++ c = a ++ (b ++ c).
Proof.
  induction a as [|x a IH]; [reflexivity|].
  change (String x ((a ++ b) ++ c) = String x (a ++ (b ++ c))).
  f_equal. exact IH.
Qed.

Lemma append_nil_r (a : string) : a ++ "" = a.
Proof.
  induction a as [|x a IH]; [reflexivity|].
  change (String x (a ++ "") = String x a). f_equal. exact IH.
Qed.

Lemma solid_low (c : ascii) :
  solid c = true -> is_space c = false /\ (nat_of_ascii c < 128)%nat.
Proof.
  unfold solid. intros Hs. apply andb_true_iff in Hs as [Hs Hlow].
  apply negb_true_iff in Hs. apply Nat.ltb_lt in Hlow. split; assumption.
Qed.

(** The white space of more than one byte is made of bytes above 127. *)
Lemma is_space2_high (c d : ascii) :
  is_space2 c d = true ->
  (128 <= nat_of_ascii c)%nat /\ (128 <= nat_of_ascii d)%nat.
Proof.
  unfold is_space2. cbv zeta.
  rewrite andb_true_iff, orb_true_iff, !Nat.eqb_eq. lia.
Qed.

Lemma is_space3_high (c d e : ascii) :
  is_space3 c d e = true ->
  (128 <= nat_of_ascii c)%nat /\ (128 <= nat_of_ascii d)%nat
  /\ (128 <= nat_of_ascii e)%nat.
Proof.
  unfold is_space3. cbv zeta.
  rewrite !orb_true_iff, !andb_true_iff, !orb_true_iff, !andb_true_iff,
    !Nat.eqb_eq, !Nat.leb_le.
  lia.
Qed.

Lemma is_space2_solid (c d : ascii) :
  solid c = true \/ solid d = true -> is_space2 c d = false.
Proof.
  intros Hs. destruct (is_space2 c d) eqn:Hw; [|reflexivity].
  apply is_space2_high in Hw. destruct Hs as [Hs|Hs];
    apply solid_low in Hs; lia.
Qed.

Lemma is_space3_solid (c d e : ascii) :
  solid c = true \/ solid d = true \/ solid e = true ->
  is_space3 c d e = false.
Proof.
  intros Hs. destruct (is_space3 c d e) eqn:Hw; [|reflexivity].
  apply is_space3_high in Hw. destruct Hs as [Hs|[Hs|Hs]];
    apply solid_low in Hs; lia.
Qed.

Lemma lstrip_unfold (c : ascii) (rest : string) :
  lstrip (String c rest)
  = if is_space c then lstrip rest
    else
      match rest with
      | String d rest1 =>
          if is_space2 c d then lstrip rest1
          else
            match rest1 with
            | String e rest2 =>
                if is_space3 c d e then lstrip rest2 else String c rest
            | EmptyString => String c rest
            end
      | EmptyString => String c rest
      end.
Proof. destruct rest as [|d [|e rest2]]; reflexivity. Qed.

Lemma blank_unfold (c : ascii) (rest : string) :
  blank (String c rest)
  = if is_space c then blank rest
    else
      match rest with
      | String d rest1 =>
          if is_space2 c d then blank rest1
          else
            match rest1 with
            | String e rest2 => is_space3 c d e && blank rest2
            | EmptyString => false
            end
      | EmptyString => false
      end.
Proof. destruct rest as [|d [|e rest2]]; reflexivity. Qed.

Lemma rstrip_unfold (c : ascii) (rest : string) :
  rstrip (String c rest)
  = if blank (String c rest) then "" else String c (rstrip rest).
Proof. reflexivity. Qed.

(** A text that starts with a character that is not white space has
    nothing to strip on the left. *)
Lemma lstrip_solid (c : ascii) (rest : string) :
  solid c = true -> lstrip (String c rest) = String c rest.
Proof.
  intros Hc. rewrite lstrip_unfold.
  rewrite (proj1 (solid_low c Hc)).
  destruct rest as [|d [|e rest2]]; try reflexivity.
  - rewrite is_space2_solid by (left; exact Hc). reflexivity.
  - rewrite is_space2_solid by (left; exact Hc).
    rewrite is_space3_solid by (left; exact Hc). reflexivity.
Qed.

(** A text that holds a character that is not white space is not blank. *)
Lemma blank_app_solid (k : ascii) (rest : string) :
  solid k = true ->
  forall (n : nat) (a : string),
    (String.length a <= n)%nat -> blank (a ++ String k rest) = false.
Proof.
  intros Hk.
  assert (Hhead : forall tail, blank (String k tail) = false).
  { intros tail. rewrite blank_unfold. rewrite (proj1 (solid_low k Hk)).
    destruct tail as [|d [|e tail2]]; try reflexivity.
    - rewrite is_space2_solid by (left; exact Hk). reflexivity.
    - rewrite is_space2_solid by (left; exact Hk).
      rewrite is_space3_solid by (left; exact Hk). reflexivity. }
  induction n as [|n IH]; intros a Hlen.
  - destruct a; [apply Hhead | cbn [String.length] in Hlen; lia].
  - destruct a as [|c a]; [apply Hhead|]. cbn [String.length] in Hlen.
    change (String c a ++ String k rest) with (String c (a ++ String k rest)).
    rewrite blank_unfold. destruct (is_space c); [apply IH; lia|].
    destruct a as [|d a].
    + change ("" ++ String k rest) with (String k rest). cbv iota.
      rewrite is_space2_solid by (right; exact Hk).
      destruct rest as [|e rest2]; [reflexivity|].
      rewrite is_space3_solid by (right; left; exact Hk). reflexivity.
    + cbn [String.length] in Hlen.
      change (String d a ++ String k rest)
        with (String d (a ++ String k rest)).
      cbv iota. destruct (is_space2 c d); [apply IH; lia|].
      destruct a as [|e a].
      * change ("" ++ String k rest) with (String k rest). cbv iota.
        rewrite is_space3_solid by (right; right; exact Hk). reflexivity.
      * cbn [String.length] in Hlen.
        change (String e a ++ String k rest)
          with (String e (a ++ String k rest)).
        cbv iota. rewrite IH by lia. apply andb_false_r.
Qed.

(** Stripping on the right leaves what stands before a character that is
    not white space. *)
Lemma rstrip_app_solid (a : string) (k : ascii) (rest : string) :
  solid k = true ->
  rstrip (a ++ String k rest) = a ++ rstrip (String k rest).
Proof.
  intros Hk. induction a as [|c a IH]; [reflexivity|].
  change (String c a ++ String k rest) with (String c (a ++ String k rest)).
  rewrite rstrip_unfold.
  change (String c (a ++ String k rest)) with (String c a ++ String k rest).
  rewrite (blank_app_solid k rest Hk (String.length (String c a)))
    by apply Nat.le_refl.
  rewrite IH. reflexivity.
Qed.

Lemma unlines_app (xs ys : list string) :
  unlines (xs ++ ys) = unlines xs ++ unlines ys.
Proof.
  induction xs as [|x xs IH]; [reflexivity|].
  change (unlines ((x :: xs) ++ ys)%list)
    with (x ++ nl ++ unlines (xs ++ ys)%list).
  change (unlines (x :: xs)) with (x ++ nl ++ unlines xs).
  rewrite IH, !append_assoc. reflexivity.
Qed.

Lemma unlines_join (xs : list string) :
  xs <> [] -> unlines xs = join nl xs ++ nl.
Proof.
  induction xs as [|x [|y ys] IH]; intros Hne; [contradiction| |].
  - cbn. rewrite append_nil_r. reflexivity.
  - change (unlines (x :: y :: ys)) with (x ++ nl ++ unlines (y :: ys)).
    rewrite IH by discriminate.
    change (join nl (x :: y :: ys)) with (x ++ nl ++ join nl (y :: ys)).
    rewrite !append_assoc. reflexivity.
Qed.

Lemma join_cons (x : string) (xs : list string) :
  xs <> [] -> join nl (x :: xs) = x ++ nl ++ join nl xs.
Proof. destruct xs; [contradiction | reflexivity]. Qed.

Lemma unlines_last (xs : list string) (last : string) :
  unlines xs ++ last = join nl (xs ++ [last])%list.
Proof.
  induction xs as [|x xs IH]; [reflexivity|].
  change (unlines (x :: xs)) with (x ++ nl ++ unlines xs).
  change ((x :: xs) ++ [last])%list with (x :: (xs ++ [last])%list).
  rewrite join_cons by (destruct xs; discriminate).
  rewrite !append_assoc, IH. reflexivity.
Qed.

(** Stripping a template whose first line starts and whose last line ends
    with something other than white space leaves its lines, joined. *)
Lemma strip_template (c k : ascii) (first last : string)
    (mid : list string) :
  solid c = true -> solid k = true ->
  rstrip (String k (last ++ nl)) = String k last ->
  strip (nl ++ unlines ((String c first :: mid) ++ [String k last])%list)
  = join nl ((String c first :: mid) ++ [String k last])%list.
Proof.
  intros Hc Hk Hlast. unfold strip.
  change (nl ++ unlines ((String c first :: mid) ++ [String k last])%list)
    with (String "010"
            (String c (first ++ nl
                       ++ unlines (mid ++ [String k last])%list))).
  rewrite lstrip_unfold.
  change (is_space "010") with true. cbv iota.
  rewrite lstrip_solid by exact Hc.
  change (String c (first ++ nl ++ unlines (mid ++ [String k last])%list))
    with (unlines ((String c first :: mid) ++ [String k last])%list).
  rewrite unlines_app.
  change (unlines [String k last]) with (String k (last ++ nl ++ "")).
  rewrite rstrip_app_solid by exact Hk.
  rewrite append_nil_r, Hlast. apply unlines_last.
Qed.

Lemma join_app (xs ys : list string) :
  xs <> [] -> ys <> [] ->
  join nl (xs ++ ys)%list = join nl xs ++ nl ++ join nl ys.
Proof.
  intros Hx Hy. induction xs as [|x xs IH]; [contradiction|].
  destruct xs as [|x' xs].
  - destruct ys; [contradiction | reflexivity].
  - change (join nl ((x :: x' :: xs) ++ ys)%list)
      with (x ++ nl ++ join nl ((x' :: xs) ++ ys)%list).
    rewrite IH by discriminate.
    change (join nl (x :: x' :: xs)) with (x ++ nl ++ join nl (x' :: xs)).
    rewrite !append_assoc. reflexivity.
Qed.

(** A block of lines set into a template as one piece reads the same as
    its lines set in one by one. *)
Lemma join_block (pre block post : list string) :
  block <> [] ->
  join nl (pre ++ join nl block :: post)%list
  = join nl (pre ++ block ++ post)%list.
Proof.
  intros Hb. induction pre as [|x pre IH].
  - cbn [List.app]. destruct post as [|p post].
    + rewrite app_nil_r. reflexivity.
    + rewrite join_app by (assumption || discriminate). reflexivity.
  - change ((x :: pre) ++ join nl block :: post)%list
      with (x :: (pre ++ join nl block :: post)%list).
    change ((x :: pre) ++ block ++ post)%list
      with (x :: (pre ++ block ++ post)%list).
    rewrite !join_cons, IH; [reflexivity | |].
    + destruct pre, block; try discriminate. contradiction.
    + destruct pre; discriminate.
Qed.

Lemma storage_script (s : V1.s3_settings) (cmd wd : string) :
  strip (V1.storage_template s (join nl (V1.env_lines s cmd wd)) cmd)
  = join nl (storage_script_lines s cmd wd).
Proof.
  unfold V1.storage_template.
  match goal with
  | |- strip (nl ++ unlines (String ?c ?first :: ?l2 :: ?ev :: ?rest)) = _ =>
      let done := eval vm_compute in V1.marker_done in
      change (String c first :: l2 :: ev :: rest)
        with ((String c first :: l2 :: ev :: removelast rest)
              ++ [done])%list
  end.
  rewrite strip_template by (vm_compute; reflexivity).
  let done := eval vm_compute in V1.marker_done in
  change done with V1.marker_done.
  cbn [removelast List.app].
  apply (join_block ["#!/bin/bash"; "set -euo pipefail"]).
  discriminate.
Qed.

Lemma plain_script (s : V1.s3_settings) (cmd wd : string) :
  strip (V1.plain_template (join nl (V1.env_lines s cmd wd)) cmd wd)
  = join nl (plain_script_lines s cmd wd).
Proof.
  unfold V1.plain_template.
  match goal with
  | |- strip (nl ++ unlines (String ?c ?first :: ?l2 :: ?ev :: ?rest)) = _ =>
      let done := eval vm_compute in V1.marker_done in
      change (String c first :: l2 :: ev :: rest)
        with ((String c first :: l2 :: ev :: removelast rest)
              ++ [done])%list
  end.
  rewrite strip_template by (vm_compute; reflexivity).
  let done := eval vm_compute in V1.marker_done in
  change done with V1.marker_done.
  cbn [removelast List.app].
  apply (join_block ["#!/bin/bash"; "set -euo pipefail"]).
  discriminate.
Qed.

Lemma lift_ok {A} (r : result A) (a : A) (w w1 : world) :
  lift r w = (Ok a, w1) -> r = Ok a /\ w1 = w.
Proof. unfold lift. intros Heq. inversion Heq. split; reflexivity. Qed.

(** The script that [build_tfvars] puts into its answer. *)
Lemma build_tfvars_cmd_script (h : host) (job_id : string) (row : job)
    (name : string) (w w' : world) (tfvars : gmap string value) :
  V1.build_tfvars h job_id row name w = (Ok tfvars, w') ->
  exists storage s3,
    V1.row_storage row = Ok storage
    /\ V1.read_storage storage row = Ok s3
    /\ let cmd := V1.text_or (Some (command row)) "bash .command.run" in
       let wd := V1.text_or (Some (workdir row)) "/opt/nxf-work" in
       tfvars !! "cmd_script"
       = Some (VStr (V1.make_cmd_script s3 (join nl (V1.env_lines s3 cmd wd))
                       cmd wd)).
Proof.
  unfold V1.build_tfvars. intros Hrun.
  apply bind_ok in Hrun as (storage & w1 & Hst & Hrun).
  apply lift_ok in Hst as [Hst ->].
  apply bind_ok in Hrun as (resources_obj & w2 & _ & Hrun).
  apply bind_ok in Hrun as (cpu_default & w3 & _ & Hrun).
  apply bind_ok in Hrun as (ram_default & w4 & _ & Hrun).
  apply bind_ok in Hrun as (boot_default & w5 & _ & Hrun).
  apply bind_ok in Hrun as ([[[shape cpu] ram] boot] & w6 & _ & Hrun).
  apply bind_ok in Hrun as (s3 & w7 & Hs3 & Hrun).
  apply lift_ok in Hs3 as [Hs3 ->].
  apply bind_ok in Hrun as (u1 & w8 & _ & Hrun).
  apply bind_ok in Hrun as (u2 & w9 & _ & Hrun).
  exists storage, s3. split; [exact Hst|]. split; [exact Hs3|].
  cbv zeta. inversion Hrun. reflexivity.
Qed.

(** The storage section that [build_tfvars] reads off a row. *)
Lemma row_storage_read (row : job) (doc : string)
    (meta storage : gmap string value) :
  metadata row = Some doc -> doc <> "" ->
  json_loads doc = Some (VDict meta) ->
  meta !! "storage" = Some (VDict storage)
  \/ meta !! "storage" = None /\ storage = ∅ ->
  V1.row_storage row = Ok (VDict storage).
Proof.
  intros Hdoc Hne Hloads Hsection.
  unfold V1.row_storage, V1.row_metadata, V1.text_or. rewrite Hdoc.
  apply String.eqb_neq in Hne. rewrite Hne, Hloads.
  cbn [py_get mbind result_bind]. unfold dict_get, py_or.
  destruct Hsection as [Hsome | [Hnone ->]].
  - rewrite Hsome. cbn [default from_option id truthy].
    destruct (Nat.eqb (size storage) 0) eqn:Hsize; [|reflexivity].
    apply Nat.eqb_eq in Hsize. apply map_size_empty_iff in Hsize.
    subst storage. reflexivity.
  - rewrite Hnone. reflexivity.
Qed.

(** A setting that is a text or null reads as the text stored, or as the
    default when there is none or it is empty. *)
Lemma setting_read (storage : gmap string value) (key dflt : string) :
  match storage !! key with
  | Some (VStr _) | Some VNone | None => true
  | Some _ => false
  end = true ->
  py_str (py_or (dict_get storage key) (VStr dflt))
  = stored_text storage key dflt.
Proof.
  unfold dict_get, stored_text, py_or.
  destruct (storage !! key) as [[| | | |v| |]|]; try discriminate; intros _;
    cbn [default from_option id truthy py_str]; try reflexivity.
  destruct (String.eqb v ""); reflexivity.
Qed.

Lemma workdir_setting_read (storage : gmap string value)
    (key wd : string) :
  match storage !! key with
  | Some (VStr _) | Some VNone | None => true
  | Some _ => false
  end = true ->
  py_str (py_or (py_or (dict_get storage key) (VStr wd)) (VStr ""))
  = stored_text storage key wd.
Proof.
  assert (Hwd : py_str (py_or (VStr wd) (VStr "")) = wd).
  { unfold py_or. cbn [truthy]. destruct (String.eqb wd "") eqn:Hw.
    - apply String.eqb_eq in Hw. subst wd. reflexivity.
    - reflexivity. }
  unfold dict_get, stored_text.
  destruct (storage !! key) as [[| | | |v| |]|]; try discriminate; intros _;
    cbn [default from_option id]; try exact Hwd.
  unfold py_or at 2. cbn [truthy].
  destruct (String.eqb v "") eqn:Hv; cbn [negb]; [exact Hwd|].
  unfold py_or. cbn [truthy]. rewrite Hv. reflexivity.
Qed.

Lemma read_storage_settings (storage : gmap string value) (row : job) :
  text_valued storage = true ->
  V1.read_storage (VDict storage) row = Ok (settings_of storage row).
Proof.
  unfold text_valued, storage_keys. cbn [forallb]. intros Htext.
  repeat match type of Htext with
         | (_ && _)%bool = true =>
             let Hk := fresh "Hk" in
             apply andb_true_iff in Htext as [Hk Htext]
         end.
  unfold V1.read_storage. cbn [py_get mbind result_bind].
  unfold settings_of.
  rewrite !setting_read, workdir_setting_read by assumption.
  reflexivity.
Qed.

(** C5.  The command script of a job follows the storage section of its
    metadata.  When the section gives an endpoint and a bucket, both not
    empty, the script is the one that syncs the object store into the
    local directory, then evaluates the job's command, then syncs the
    directory back, with the settings of that section in it.  When the
    metadata has no storage section, or the section lacks one of the two,
    the script changes into the job's working directory and evaluates the
    command, and no line of it runs the storage tool. *)
Theorem cmd_script_follows_storage (h : host) (job_id : string) (row : job)
    (name : string) (w w' : world) (tfvars : gmap string value)
    (doc : string) (meta storage : gmap string value) :
  V1.build_tfvars h job_id row name w = (Ok tfvars, w') ->
  metadata row = Some doc -> doc <> "" ->
  json_loads doc = Some (VDict meta) ->
  meta !! "storage" = Some (VDict storage)
  \/ meta !! "storage" = None /\ storage = ∅ ->
  text_valued storage = true ->
  let s3 := settings_of storage row in
  let cmd :=
    if String.eqb (command row) "" then "bash .command.run"
    else command row in
  let wd :=
    if String.eqb (workdir row) "" then "/opt/nxf-work" else workdir row in
  let configured :=
    stored_text storage "endpoint" "" <> ""
    /\ stored_text storage "bucket" "" <> "" in
  exists script,
    tfvars !! "cmd_script" = Some (VStr script)
    /\ (configured ->
        let lines := storage_script_lines s3 cmd wd in
        script = join nl lines
        /\ exists i j k,
             (i < j < k)%nat
             /\ lines !! i = Some (sync_in_step s3)
             /\ lines !! j = Some ("eval " ++ cmd)
             /\ lines !! k = Some (sync_out_step s3))
    /\ (~ configured ->
        let lines := plain_script_lines s3 cmd wd in
        script = join nl lines
        /\ (exists i,
              lines !! i = Some ("cd " ++ wd)
              /\ lines !! (i + 2)%nat = Some ("eval " ++ cmd))
        /\ Forall (fun line => is_sync_step line = false) lines).
Proof.
  intros Hrun Hdoc Hne Hloads Hsection Htext.
  destruct (build_tfvars_cmd_script _ _ _ _ _ _ _ Hrun)
    as (storage' & s3' & Hst & Hs3 & Hscript).
  rewrite (row_storage_read row doc meta storage Hdoc Hne Hloads Hsection)
    in Hst.
  inversion Hst; subst storage'.
  rewrite (read_storage_settings storage row Htext) in Hs3.
  inversion Hs3; subst s3'.
  cbv zeta in Hscript. unfold V1.text_or in Hscript. cbv zeta.
  eexists. split; [exact Hscript|]. unfold V1.make_cmd_script.
  change (V1.s3_endpoint (settings_of storage row))
    with (stored_text storage "endpoint" "").
  change (V1.s3_bucket (settings_of storage row))
    with (stored_text storage "bucket" "").
  split.
  - intros [He Hb]. apply String.eqb_neq in He, Hb. rewrite He, Hb.
    cbn [negb andb]. split; [apply storage_script|].
    exists 17%nat, 19%nat, 21%nat. repeat split; lia.
  - intros Hnot.
    assert (Hcond : negb (String.eqb (stored_text storage "endpoint" "") "")
                    && negb (String.eqb (stored_text storage "bucket" "") "")
                    = false).
    { destruct (String.eqb (stored_text storage "endpoint" "") "") eqn:He;
        [reflexivity|].
      destruct (String.eqb (stored_text storage "bucket" "") "") eqn:Hb;
        [reflexivity|].
      exfalso. apply Hnot. split; apply String.eqb_neq; assumption. }
    rewrite Hcond. split; [apply plain_script|].
    split; [exists 11%nat; split; reflexivity|].
    repeat constructor.
Qed.

End Script.

(* ===================================================================== *)
(** * The provisioning pipeline                                           *)
(* ===================================================================== *)

Section Pipeline.
Context `{Runtime}.

Lemma append_nil_l (a : string) : "" ++ a = a.
Proof. reflexivity. Qed.

Lemma run_emit (e : event) (w : world) :
  emit e w = (Ok tt, {| db := db w; trace := (trace w ++ [e])%list |}).
Proof. reflexivity. Qed.

Lemma run_log (msg : string) (w : world) :
  log msg w = (Ok tt, {| db := db w; trace := (trace w ++ [Log msg])%list |}).
Proof. reflexivity. Qed.

Lemma run_ret {A} (a : A) (w : world) : (mret a : M A) w = (Ok a, w).
Proof. reflexivity. Qed.

Lemma run_fetch_job (id : string) (w : world) :
  V1._fetch_job id w = (Ok (select_by_id id (db w)), w).
Proof. reflexivity. Qed.

Lemma run_for_each_emit {A} (xs : list A) (f : A -> event) (w : world) :
  for_each xs (fun x => emit (f x)) w
  = (Ok tt, {| db := db w; trace := (trace w ++ List.map f xs)%list |}).
Proof.
  revert w. induction xs as [|x xs IH]; intros w; cbn [for_each List.map].
  - rewrite app_nil_r. destruct w; reflexivity.
  - rewrite run_bind, run_emit, IH. cbn [db trace].
    rewrite <- app_assoc. reflexivity.
Qed.

Lemma run_call_ok (h : host) (e : event) (w : world) :
  fails h e = None ->
  call h e w = (Ok tt, {| db := db w; trace := (trace w ++ [e])%list |}).
Proof. intros He. unfold call. rewrite He. reflexivity. Qed.

Lemma run_call_raise (h : host) (e : event) (x : exn) (w : world) :
  fails h e = Some x ->
  call h e w = (Raise x, {| db := db w; trace := (trace w ++ [e])%list |}).
Proof. intros He. unfold call. rewrite He. reflexivity. Qed.

Lemma run_for_each_call {A} (h : host) (xs : list A) (f : A -> event)
    (w : world) :
  Forall (fun x => fails h (f x) = None) xs ->
  for_each xs (fun x => call h (f x)) w
  = (Ok tt, {| db := db w; trace := (trace w ++ List.map f xs)%list |}).
Proof.
  intros Hall. revert w.
  induction Hall as [|x xs Hx _ IH]; intros w; cbn [for_each List.map].
  - rewrite app_nil_r. destruct w; reflexivity.
  - rewrite run_bind, (run_call_ok h (f x) w Hx), IH. cbn [db trace].
    rewrite <- app_assoc. reflexivity.
Qed.

Lemma go_through_cons (h : host) (e : event) (es : list event) :
  go_through h (e :: es) ->
  (is_call e = true -> fails h e = None) /\ go_through h es.
Proof. intros Hgo. inversion Hgo; subst. split; assumption. Qed.

Lemma go_through_app (h : host) (es fs : list event) :
  go_through h (es ++ fs)%list -> go_through h es /\ go_through h fs.
Proof.
  unfold go_through. induction es as [|e es IH]; cbn [List.app]; intros Hgo.
  - split; [constructor | exact Hgo].
  - inversion Hgo; subst. destruct (IH ltac:(assumption)) as [Hes Hfs].
    split; [constructor; assumption | exact Hfs].
Qed.

Lemma go_through_map {A} (h : host) (f : A -> event) (xs : list A) :
  (forall x, is_call (f x) = true) ->
  go_through h (List.map f xs) -> Forall (fun x => fails h (f x) = None) xs.
Proof.
  intros Hcall. unfold go_through.
  induction xs as [|x xs IH]; cbn [List.map]; intros Hgo; [constructor|].
  inversion Hgo; subst. constructor; [auto | apply IH; assumption].
Qed.

(** What one run does when none of its calls raises. *)
Lemma run_job_sync_run (h : host) (work_id : Z) (job_id : string)
    (w w2 : world) (row : job) (tfvars : gmap string value) :
  select_by_id job_id (db w) = Some row ->
  autorun_present h = true ->
  fails h (Mkdir (run_dir h work_id job_id)) = None ->
  V1.build_tfvars h job_id row (job_name work_id job_id)
    {| db := db w;
       trace := (trace w ++ [Mkdir (run_dir h work_id job_id)])%list |}
  = (Ok tfvars, w2) ->
  go_through h (run_events h work_id job_id tfvars) ->
  let proc := apply_proc h work_id job_id in
  let header := output_header job_id (script_content tfvars) in
  V1._run_job_sync h work_id job_id w
  = (Ok (if proc_returncode proc =? 0 then 0 else 1,
         header ++ proc_stdout proc,
         if proc_returncode proc =? 0 then header
         else header ++ failure_note (proc_returncode proc)),
     {| db := db w2;
        trace := (trace w2 ++ run_events h work_id job_id tfvars)%list |}).
Proof.
  intros Hrow Hpresent Hmk Hbuild Hgo. cbv zeta.
  unfold run_events in Hgo.
  apply go_through_cons in Hgo as [Htfvars Hgo]. specialize (Htfvars eq_refl).
  apply go_through_app in Hgo as [Htf Hgo].
  apply go_through_app in Hgo as [Hyml Hgo].
  apply go_through_app in Hgo as [Hcmd Hgo].
  apply go_through_cons in Hgo as [_ Hgo].
  apply go_through_cons in Hgo as [_ Hgo].
  apply go_through_cons in Hgo as [Hrun _]. specialize (Hrun eq_refl).
  apply go_through_map in Htf; [|reflexivity].
  apply go_through_map in Hyml; [|reflexivity].
  unfold V1._run_job_sync.
  rewrite run_bind, run_fetch_job, Hrow, Hpresent. cbn [negb].
  rewrite run_bind, run_call_ok by exact Hmk.
  rewrite run_bind. fold (job_name work_id job_id).
  fold (script_dir h). fold (run_dir h work_id job_id).
  rewrite Hbuild.
  rewrite run_bind, run_call_ok by exact Htfvars. cbn [db trace].
  rewrite run_bind, run_for_each_call by exact Htf. cbn [db trace].
  rewrite run_bind, run_for_each_call by exact Hyml. cbn [db trace].
  unfold run_events, script_content, apply_proc, output_header, failure_note.
  unfold script_content in Hcmd.
  fold (autorun_cmd h work_id job_id "apply") in *.
  fold (autorun_cmd h work_id job_id "destroy").
  set (raw := py_str (py_or (dict_get tfvars "cmd_script") (VStr ""))) in *.
  rewrite run_bind. unfold mret, M_ret.
  destruct (String.eqb raw "") eqn:Hraw; cbn [negb andb] in *.
  - repeat (rewrite run_bind;
            first [rewrite run_call_ok by exact Hrun
                  | rewrite run_emit | rewrite run_log | rewrite run_ret];
            cbn [db trace]).
    destruct (popen h (autorun_cmd h work_id job_id "destroy") (script_dir h));
      rewrite run_bind, run_log; cbn [db trace];
      destruct (proc_returncode
                  (run h (autorun_cmd h work_id job_id "apply") (script_dir h))
                =? 0);
      cbn [negb]; rewrite <- !app_assoc; cbn [List.app];
      unfold join; cbn [String.concat]; rewrite ?append_nil_l;
      reflexivity.
  - apply go_through_cons in Hcmd as [Hwrite _]. specialize (Hwrite eq_refl).
    destruct (ends_with_char "010" raw); cbn [negb] in *;
    repeat (rewrite run_bind;
            first [rewrite run_call_ok by (first [exact Hwrite | exact Hrun])
                  | rewrite run_emit | rewrite run_log | rewrite run_ret];
            cbn [db trace]);
    destruct (popen h (autorun_cmd h work_id job_id "destroy") (script_dir h));
      rewrite run_bind, run_log; cbn [db trace];
      destruct (proc_returncode
                  (run h (autorun_cmd h work_id job_id "apply") (script_dir h))
                =? 0);
      cbn [negb]; rewrite <- !app_assoc; cbn [List.app];
      unfold join; cbn [String.concat]; rewrite ?append_nil_l;
      reflexivity.
Qed.

Lemma build_tfvars_keeps_db (h : host) (job_id : string) (row : job)
    (name : string) (w w2 : world) (r : result (gmap string value)) :
  V1.build_tfvars h job_id row name w = (r, w2) -> db w2 = db w.
Proof.
  intros Hb. destruct (reads_only_build_tfvars h job_id row name w)
    as (r' & later & Hw).
  rewrite Hw in Hb. inversion Hb. reflexivity.
Qed.

(** A claim that answers a job id leaves a row of that id to fetch. *)
Lemma claimed_job_is_fetched (others : list job -> list job) (w w1 : world)
    (id : string) :
  V1._claim_next_job_id others w = (Ok (Some id), w1) ->
  exists row, select_by_id id (db w1) = Some row.
Proof.
  rewrite claim_next_job_id_unfold.
  destruct (V1.claim_select (db w)) as [id'|]; [|discriminate].
  cbv zeta.
  destruct (snd (V1.claim_update id' (others (db w))) =? 0) eqn:Hz;
    [discriminate|].
  intros Heq. inversion Heq; subst id' w1. cbn [db].
  apply Z.eqb_neq in Hz.
  assert (Hex : existsb (claimable id) (others (db w)) = true).
  { apply not_false_iff_true. intros Hf. apply Hz.
    apply claim_update_rowcount_zero. exact Hf. }
  apply existsb_claimable in Hex as (j & Hin & Hid & _).
  unfold V1.claim_update. rewrite ?sql_update_rows. cbn [fst sql_update].
  unfold select_by_id.
  destruct (List.find (has_id id) _) as [row|] eqn:Hfind; [eauto|].
  exfalso.
  pose proof (find_none _ _ Hfind
           (if has_id id j && has_status "queued" j
            then set_status "running" j else j)) as Hnone.
  assert (Hhas : has_id id (if has_id id j && has_status "queued" j
                            then set_status "running" j else j) = true).
  { destruct (has_id id j && has_status "queued" j); apply has_id_true;
      exact Hid. }
  rewrite Hnone in Hhas; [discriminate|].
  apply (in_map (fun j => if has_id id j && has_status "queued" j
                          then set_status "running" j else j)).
  exact Hin.
Qed.

(** What one claim-and-run cycle does, once its claim has answered a job
    and the configuration of that job could be built. *)
Lemma claim_and_run_next_job_run (h : host) (others : list job -> list job)
    (work_id : Z) (w w1 w2 : world) (id : string) (row : job)
    (tfvars : gmap string value) :
  V1._claim_next_job_id others w = (Ok (Some id), w1) ->
  id <> "" ->
  select_by_id id (db w1) = Some row ->
  autorun_present h = true ->
  fails h (Mkdir (run_dir h work_id id)) = None ->
  V1.build_tfvars h id row (job_name work_id id)
    {| db := db w1;
       trace := (trace w1 ++ [Mkdir (run_dir h work_id id)])%list |}
  = (Ok tfvars, w2) ->
  go_through h (run_events h work_id id tfvars) ->
  let proc := apply_proc h work_id id in
  let code := if proc_returncode proc =? 0 then 0 else 1 in
  let status := if proc_returncode proc =? 0 then "finished" else "failed" in
  let header := output_header id (script_content tfvars) in
  let out := header ++ proc_stdout proc in
  let err := if proc_returncode proc =? 0 then header
             else header ++ failure_note (proc_returncode proc) in
  V1._claim_and_run_next_job h others work_id w
  = (Ok true,
     {| db := List.map (fun j => if has_id id j
                                 then set_outcome code out err status j
                                 else j) (db w1);
        trace :=
          (trace w2 ++ run_events h work_id id tfvars
           ++ [Log ("job " ++ id ++ " status changed " ++ status);
               Log ("[executor] job " ++ id ++ " finished status=" ++ status)]
          )%list |}).
Proof.
  intros Hclaim Hid Hrow Hpresent Hmk Hbuild Hgo. cbv zeta.
  unfold V1._claim_and_run_next_job.
  rewrite run_bind, Hclaim.
  apply String.eqb_neq in Hid. rewrite Hid.
  rewrite run_bind.
  rewrite (run_job_sync_run h work_id id w1 w2 row tfvars Hrow Hpresent Hmk
             Hbuild Hgo).
  rewrite (build_tfvars_keeps_db _ _ _ _ _ _ _ Hbuild). cbn [db].
  destruct (proc_returncode (apply_proc h work_id id) =? 0) eqn:Hcode;
    cbn [Z.eqb];
    unfold V1._update_job_after_run, execute_update;
    rewrite !run_bind; cbn [db trace];
    unfold sql_update, log, emit, mbind, M_bind, mret, M_ret;
    cbn [db trace]; rewrite <- !app_assoc; reflexivity.
Qed.

Lemma contains_failure_code (header : string) (code : Z) :
  contains (header ++ failure_note code) (string_of_Z code).
Proof.
  exists (header ++ "[executor] autorun apply failed (code "), (")" ++ nl).
  unfold failure_note. rewrite !append_assoc. reflexivity.
Qed.

(** Whether destroy can be launched does not change which calls of a run
    go through. *)
Lemma go_through_with_popen (h : host)
    (p : list string -> string -> option string) (work_id : Z) (id : string)
    (tfvars : gmap string value) :
  go_through h (run_events h work_id id tfvars) ->
  go_through (with_popen h p) (run_events (with_popen h p) work_id id tfvars).
Proof.
  unfold run_events, go_through. intros Hgo.
  apply Forall_cons in Hgo as [Hfirst Hgo].
  apply Forall_app in Hgo as [Htf Hgo].
  apply Forall_app in Hgo as [Hyml Hgo].
  apply Forall_app in Hgo as [Hcmd Hgo].
  apply Forall_cons. split; [exact Hfirst|].
  apply Forall_app. split; [exact Htf|].
  apply Forall_app. split; [exact Hyml|].
  apply Forall_app. split; [exact Hcmd|].
  repeat (apply Forall_cons in Hgo as [? Hgo]).
  repeat (apply Forall_cons; split; [first [assumption | discriminate]|]).
  constructor.
Qed.

(** X15.  One claim-and-run cycle on a claimed job whose configuration
    could be built and whose calls to the host all return.  When apply
    exits with code 0 the job ends [finished] with returncode 0; when it
    exits with another code the job ends [failed] and its stored error
    output contains that code.  Either way destroy is launched and only log
    lines and the store update follow the launch; when the launch fails,
    the failure is logged, and whatever the launch does, the cycle answers
    the same and leaves the same table. *)
Theorem apply_outcome_decides_status (h : host)
    (others : list job -> list job) (work_id : Z) (w w1 w2 : world)
    (id : string) (row : job) (tfvars : gmap string value) :
  V1._claim_next_job_id others w = (Ok (Some id), w1) ->
  id <> "" ->
  select_by_id id (db w1) = Some row ->
  autorun_present h = true ->
  fails h (Mkdir (run_dir h work_id id)) = None ->
  V1.build_tfvars h id row (job_name work_id id)
    {| db := db w1;
       trace := (trace w1 ++ [Mkdir (run_dir h work_id id)])%list |}
  = (Ok tfvars, w2) ->
  go_through h (run_events h work_id id tfvars) ->
  let code := proc_returncode (apply_proc h work_id id) in
  let destroy := autorun_cmd h work_id id "destroy" in
  exists w' row',
    V1._claim_and_run_next_job h others work_id w = (Ok true, w')
    /\ select_by_id id (db w') = Some row'
    /\ (code = 0 -> status row' = "finished" /\ returncode row' = Some 0)
    /\ (code <> 0 ->
        status row' = "failed"
        /\ exists err, stderr row' = Some err
                       /\ contains err (string_of_Z code))
    /\ (exists before note l1 l2,
          trace w'
          = (before ++ [Popen destroy (script_dir h); Log note; Log l1; Log l2]
            )%list
          /\ forall e, popen h destroy (script_dir h) = Some e ->
               note = "[executor] job " ++ id
                      ++ " destroy encountered error: " ++ e)
    /\ (forall p, exists w'',
          V1._claim_and_run_next_job (with_popen h p) others work_id w
          = (Ok true, w'')
          /\ db w'' = db w').
Proof.
  intros Hclaim Hid Hrow Hpresent Hmk Hbuild Hgo. cbv zeta.
  pose proof (claim_and_run_next_job_run h others work_id w w1 w2 id row tfvars
                Hclaim Hid Hrow Hpresent Hmk Hbuild Hgo) as Hrun.
  cbv zeta in Hrun.
  eexists. eexists. split; [exact Hrun|]. cbn [db trace].
  split.
  { rewrite <- sql_update_rows.
    rewrite select_by_id_updated by reflexivity. rewrite Hrow. reflexivity. }
  split.
  { intros Hcode. rewrite Hcode. cbn. split; reflexivity. }
  split.
  { intros Hcode. apply Z.eqb_neq in Hcode. rewrite Hcode.
    cbn [set_outcome status stderr]. split; [reflexivity|].
    eexists. split; [reflexivity|]. apply contains_failure_code. }
  split.
  { unfold run_events.
    eexists. eexists. eexists. eexists. split.
    - rewrite !app_comm_cons, !app_assoc.
      match goal with
      | |- ((?pre ++ [?a; ?b; ?c; ?d; ?e; ?f]) ++ [?g; ?i])%list = _ =>
          transitivity ((pre ++ [a; b; c; d]) ++ [e; f; g; i])%list;
          [rewrite <- !app_assoc; reflexivity | reflexivity]
      end.
    - intros e He. rewrite He. reflexivity. }
  intros p.
  pose proof (claim_and_run_next_job_run (with_popen h p) others work_id
                w w1 w2 id row tfvars Hclaim Hid Hrow Hpresent Hmk Hbuild
                (go_through_with_popen h p work_id id tfvars Hgo)) as Hrun'.
  cbv zeta in Hrun'. eexists. split; [exact Hrun'|]. reflexivity.
Qed.

End Pipeline.

Lemma cmd_script_follows_storage_witness :
  V1.build_tfvars Demo.failing_host "job-s" Demo.storage_row
    (job_name 0 "job-s") {| db := [Demo.storage_row]; trace := [] |}
  = (Ok Demo.storage_tfvars, snd Demo.built_with_storage)
  /\ json_loads "<metadata with storage>" = Some (VDict Demo.storage_meta)
  /\ Demo.storage_meta !! "storage" = Some (VDict Demo.storage_section)
  /\ stored_text Demo.storage_section "endpoint" "" = "http://minio:9000"
  /\ stored_text Demo.storage_section "bucket" "" = "work"
  /\ exists script,
       Demo.storage_tfvars !! "cmd_script" = Some (VStr script)
       /\ script
          = join nl (storage_script_lines
                       (settings_of Demo.storage_section Demo.storage_row)
                       "echo hi" "/work/a").
Proof.
  split; [vm_compute; reflexivity|]. split; [reflexivity|].
  split; [vm_compute; reflexivity|]. split; [vm_compute; reflexivity|].
  split; [vm_compute; reflexivity|].
  destruct (cmd_script_follows_storage Demo.failing_host "job-s"
              Demo.storage_row (job_name 0 "job-s")
              {| db := [Demo.storage_row]; trace := [] |}
              (snd Demo.built_with_storage) Demo.storage_tfvars
              "<metadata with storage>" Demo.storage_meta
              Demo.storage_section)
    as (script & Hscript & Hwith & _);
    [vm_compute; reflexivity | reflexivity | discriminate | reflexivity
    | left; vm_compute; reflexivity | vm_compute; reflexivity |].
  exists script. split; [exact Hscript|].
  apply Hwith. split; vm_compute; discriminate.
Defined.

Lemma apply_outcome_decides_status_witness :
  V1._claim_next_job_id Demo.no_others Demo.world0
  = (Ok (Some "job-a"), Demo.claimed_world)
  /\ exists w' row',
       V1._claim_and_run_next_job Demo.failing_host Demo.no_others 0 Demo.world0
       = (Ok true, w')
       /\ select_by_id "job-a" (db w') = Some row'
       /\ status row' = "failed".
Proof.
  split; [vm_compute; reflexivity|].
  destruct (apply_outcome_decides_status Demo.failing_host Demo.no_others 0
              Demo.world0 Demo.claimed_world (snd Demo.built) "job-a"
              (Demo.a_job "job-a" "running" "{}" 1) Demo.built_tfvars)
    as (w' & row' & Hrun & Hrow & _ & Hfail & _);
    try (vm_compute; reflexivity);
    [discriminate | apply Forall_forall; intros e _ _; reflexivity |].
  exists w', row'. split; [exact Hrun|]. split; [exact Hrow|].
  apply Hfail. vm_compute. discriminate.
Defined.

(** C4.  On a host whose apply exits with code 0 after printing bytes
    that cannot be decoded, reading its output raises after the subprocess
    has ended: the cycle stops with that exception, which only the worker
    loop catches.  The job is not [finished]: it stays [running] without a
    returncode, destroy is never launched, and no later claim takes the job
    up, since it is not [queued]. *)
Theorem undecodable_apply_strands_job :
  proc_returncode (apply_proc Demo.undecodable_host 0 "job-a") = 0
  /\ fst (V1._claim_and_run_next_job Demo.undecodable_host Demo.no_others 0
            Demo.world0)
     = Raise UnicodeDecodeError
  /\ V1.worker_loop_turn Demo.undecodable_host Demo.no_others 0 Demo.world0
     = (Ok tt, Demo.stranded_world)
  /\ select_by_id "job-a" (db Demo.stranded_world)
     = Some (Demo.a_job "job-a" "running" "{}" 1)
  /\ existsb is_popen (trace Demo.stranded_world) = false
  /\ (exists before,
        trace Demo.stranded_world
        = (before
           ++ [Run (autorun_cmd Demo.undecodable_host 0 "job-a" "apply")
                 (script_dir Demo.undecodable_host);
               Log "[worker-0] exception: <exception>";
               Sleep 5])%list)
  /\ select_oldest "queued" (db Demo.stranded_world) = None.
Proof.
  split; [reflexivity|].
  split; [vm_compute; reflexivity|].
  split; [vm_compute; reflexivity|].
  split; [vm_compute; reflexivity|].
  split; [vm_compute; reflexivity|].
  split; [|vm_compute; reflexivity].
  exists (firstn (List.length (trace Demo.stranded_world) - 3)
            (trace Demo.stranded_world)).
  vm_compute. reflexivity.
Qed.

(** C6.  On a host whose apply prints to both streams and exits with
    code 3, the stored standard output of the job ends with what apply
    printed to its standard output, while the stored error output holds
    the header, the script and the failure note only: what apply printed
    to its standard error is captured and then left out. *)
Theorem apply_stderr_is_dropped :
  proc_stdout (apply_proc Demo.failing_host 0 "job-a") = "plan: 1 to add"
  /\ proc_stderr (apply_proc Demo.failing_host 0 "job-a")
     = "Error: quota exceeded"
  /\ exists row out err,
       select_by_id "job-a" (db Demo.final_world) = Some row
       /\ stdout row = Some out /\ stderr row = Some err
       /\ occurs "plan: 1 to add" out = true
       /\ occurs "Error: quota exceeded" err = false
       /\ err = output_header "job-a" (script_content Demo.built_tfvars)
                ++ failure_note 3.
Proof.
  split; [reflexivity|]. split; [reflexivity|].
  eexists. eexists. eexists.
  split; [vm_compute; reflexivity|].
  split; [reflexivity|]. split; [reflexivity|].
  split; [vm_compute; reflexivity|].
  split; vm_compute; reflexivity.
Qed.

Lemma claim_next_job_id_spec_witness :
  V1._claim_next_job_id Demo.no_others Demo.world0
  = (Ok (Some "job-a"),
     {| db := [Demo.a_job "job-a" "running" "{}" 1]; trace := [] |}).
Proof.
  pose proof (claim_next_job_id_spec Demo.no_others Demo.world0) as Hspec.
  change (select_oldest "queued" (db Demo.world0))
    with (Some (Demo.a_job "job-a" "queued" "{}" 1)) in Hspec.
  destruct Hspec as (_ & _ & _ & Hrun). exact Hrun.
Defined.

Lemma reset_running_jobs_to_failed_spec_witness :
  V1.reset_running_jobs_to_failed
    {| db := [Demo.a_job "job-r" "running" "{}" 1;
              Demo.a_job "job-q" "queued" "{}" 2];
       trace := [] |}
  = (Ok 1,
     {| db := [Demo.a_job "job-r" "failed" "{}" 1;
               Demo.a_job "job-q" "queued" "{}" 2];
        trace := [Log "[db] reset 1 running jobs to failed on startup"] |}).
Proof.
  exact (proj1 (reset_running_jobs_to_failed_spec Demo.failing_host
                  {| db := [Demo.a_job "job-r" "running" "{}" 1;
                            Demo.a_job "job-q" "queued" "{}" 2];
                     trace := [] |})).
Defined.

(* ===================================================================== *)
(** * Further properties: status reports and kill requests                *)
(* ===================================================================== *)

Section Reports.
Context `{Runtime}.

Lemma select_by_id_absent (id : string) (t : list job) :
  select_by_id id t = None <-> Forall (fun j => job_id j <> id) t.
Proof.
  unfold select_by_id. induction t as [|j t IH]; cbn [List.find].
  - split; [constructor | reflexivity].
  - destruct (has_id id j) eqn:Hj.
    + apply has_id_true in Hj. split; [discriminate|].
      intros Hall. inversion Hall; contradiction.
    + rewrite IH. split.
      * intros Ht. constructor; [|exact Ht].
        intros Hid. apply has_id_true in Hid. congruence.
      * intros Hall. inversion Hall; assumption.
Qed.

Lemma run_raise {A} (e : exn) (w : world) : raise (A:=A) e w = (Raise e, w).
Proof. reflexivity. Qed.

Lemma run_fetch_job_v2 (id : string) (w : world) :
  V2._fetch_job id w = (Ok (select_by_id id (db w)), w).
Proof. reflexivity. Qed.

(** X1.  A status request or a kill request for an id that no row carries
    raises 404 "Job not found" in both services and leaves the table as it
    is, whatever the table holds. *)
Theorem unknown_job_is_not_found (h : host) (id : string) (w : world) :
  Forall (fun j => job_id j <> id) (db w) ->
  let not_found := HTTPException 404 "Job not found" in
  let asked :=
    {| db := db w;
       trace := (trace w ++ [Log ("[api] kill request for job " ++ id)])%list |} in
  V1._get_job_status h id w = (Raise not_found, w)
  /\ V2._get_job_status id w = (Raise not_found, w)
  /\ V1.kill_job h id w = (Raise not_found, asked)
  /\ V2.kill_job id w = (Raise not_found, asked).
Proof.
  intros Habsent. apply select_by_id_absent in Habsent. cbv zeta.
  repeat split.
  - unfold V1._get_job_status. rewrite run_bind, run_fetch_job, Habsent.
    reflexivity.
  - unfold V2._get_job_status. rewrite run_bind, run_fetch_job_v2, Habsent.
    reflexivity.
  - unfold V1.kill_job. rewrite run_bind, run_log, run_bind, run_fetch_job.
    cbn [db trace]. rewrite Habsent. reflexivity.
  - unfold V2.kill_job. rewrite run_bind, run_log, run_bind, run_fetch_job_v2.
    cbn [db trace]. rewrite Habsent. reflexivity.
Qed.

Lemma get_job_status_v1_report (h : host) (id : string) (row : job)
    (w w' : world) (js : V1.JobStatus) :
  select_by_id id (db w) = Some row ->
  V1._get_job_status h id w = (Ok js, w') ->
  V1.js_status js = V1.text_or (Some (status row)) "queued"
  /\ V1.js_returncode js = returncode row
  /\ V1.js_stdout js
     = (if V1.output_visible (V1.js_status js) then stdout row else None)
  /\ V1.js_stderr js
     = (if V1.output_visible (V1.js_status js) then stderr row else None).
Proof.
  intros Hrow. unfold V1._get_job_status.
  rewrite run_bind, run_fetch_job, Hrow. intros Hrun.
  apply bind_ok in Hrun as (resources & w1 & _ & Hrun).
  apply bind_ok in Hrun as (counts & w2 & _ & Hrun).
  apply bind_ok in Hrun as (u & w3 & _ & Hrun).
  destruct (V1.row_metadata row); try discriminate.
  inversion Hrun. cbn. repeat split; reflexivity.
Qed.

Lemma get_job_status_v2_report (id : string) (row : job)
    (w w' : world) (js : V2.JobStatus) :
  select_by_id id (db w) = Some row ->
  V2._get_job_status id w = (Ok js, w') ->
  V2.js_status js = V2.text_or (Some (status row)) "queued"
  /\ V2.js_returncode js = returncode row
  /\ V2.js_stdout js
     = (if V2.output_visible (V2.js_status js) then stdout row else None)
  /\ V2.js_stderr js
     = (if V2.output_visible (V2.js_status js) then stderr row else None).
Proof.
  intros Hrow. unfold V2._get_job_status.
  rewrite run_bind, run_fetch_job_v2, Hrow. intros Hrun.
  apply bind_ok in Hrun as (resources & w1 & _ & Hrun).
  apply bind_ok in Hrun as (counts & w2 & _ & Hrun).
  apply bind_ok in Hrun as (u & w3 & _ & Hrun).
  destruct (match json_loads (V2.text_or (metadata row) "{}") with
            | Some v => v
            | None => VDict ∅
            end); try discriminate.
  inversion Hrun. cbn. repeat split; reflexivity.
Qed.

Lemma output_visible_v1 (s : string) :
  V1.output_visible s = true ->
  s = "finished" \/ s = "failed" \/ s = "killed".
Proof.
  unfold V1.output_visible. intros Hv.
  apply orb_prop in Hv as [Hv|Hv]; [apply orb_prop in Hv as [Hv|Hv]|];
    apply String.eqb_eq in Hv; auto.
Qed.

Lemma output_visible_v2 (s : string) :
  V2.output_visible s = true ->
  s = "finished" \/ s = "failed" \/ s = "killed" \/ s = "cleaned".
Proof.
  unfold V2.output_visible. intros Hv.
  apply orb_prop in Hv as [Hv|Hv];
    [apply orb_prop in Hv as [Hv|Hv]; [apply orb_prop in Hv as [Hv|Hv]|]|];
    apply String.eqb_eq in Hv; auto.
Qed.

(** X2.  A status report never shows stored output of a job that is not in
    a terminal status: when [stdout] or [stderr] is present in the report of
    the executor the row is [finished], [failed] or [killed] (or [cleaned],
    at the gateway), and the returncode reported is the stored one. *)
Theorem outputs_hidden_until_terminal (h : host) (id : string) (row : job)
    (w : world) :
  select_by_id id (db w) = Some row ->
  (forall js w',
     V1._get_job_status h id w = (Ok js, w') ->
     V1.js_returncode js = returncode row
     /\ (V1.js_stdout js <> None \/ V1.js_stderr js <> None ->
         status row = "finished" \/ status row = "failed"
         \/ status row = "killed"))
  /\ (forall js w',
        V2._get_job_status id w = (Ok js, w') ->
        V2.js_returncode js = returncode row
        /\ (V2.js_stdout js <> None \/ V2.js_stderr js <> None ->
            status row = "finished" \/ status row = "failed"
            \/ status row = "killed" \/ status row = "cleaned")).
Proof.
  intros Hrow. split; intros js w' Hrun.
  - destruct (get_job_status_v1_report h id row w w' js Hrow Hrun)
      as (Hst & Hrc & Hout & Herr).
    split; [exact Hrc|]. intros Hshown.
    assert (Hvis : V1.output_visible (V1.js_status js) = true).
    { destruct (V1.output_visible (V1.js_status js)); [reflexivity|].
      rewrite Hout, Herr in Hshown. destruct Hshown; contradiction. }
    rewrite Hst in Hvis. cbn [V1.text_or] in Hvis.
    destruct (String.eqb (status row) ""); [discriminate|].
    apply output_visible_v1. exact Hvis.
  - destruct (get_job_status_v2_report id row w w' js Hrow Hrun)
      as (Hst & Hrc & Hout & Herr).
    split; [exact Hrc|]. intros Hshown.
    assert (Hvis : V2.output_visible (V2.js_status js) = true).
    { destruct (V2.output_visible (V2.js_status js)); [reflexivity|].
      rewrite Hout, Herr in Hshown. destruct Hshown; contradiction. }
    rewrite Hst in Hvis. cbn [V2.text_or] in Hvis.
    destruct (String.eqb (status row) ""); [discriminate|].
    apply output_visible_v2. exact Hvis.
Qed.

End Reports.

Section KillEffects.
Context `{Runtime}.

Lemma reads_only_get_job_status_v1 (h : host) (id : string) :
  reads_only (V1._get_job_status h id).
Proof.
  unfold V1._get_job_status.
  apply reads_only_bind; [apply reads_only_fetch_job | intros [row|]].
  2: reads_only_auto.
  apply reads_only_bind; [reads_only_auto | intros r].
  apply reads_only_bind; [apply reads_only_counts_v1 | intros counts].
  reads_only_auto.
Qed.

Lemma reads_only_db {A} (m : M A) (w : world) :
  reads_only m -> db (snd (m w)) = db w.
Proof. intros Hm. destruct (Hm w) as (r & later & ->). reflexivity. Qed.

Lemma kill_job_v2_run (id : string) (row : job) (w : world) :
  select_by_id id (db w) = Some row ->
  V2.kill_job id w
  = (V2.get_job_status_counts
       ≫= fun counts =>
            log ("[executor] gateway ready: " ++ format_counts counts)
              ≫= fun _ => V2._get_job_status id)
      {| db := fst (sql_update (has_id id) (set_status "killing") (db w));
         trace :=
           (trace w ++ [Log ("[api] kill request for job " ++ id)])%list |}.
Proof.
  intros Hrow. unfold V2.kill_job.
  rewrite run_bind, run_log, run_bind, run_fetch_job_v2. cbn [db trace].
  rewrite Hrow, run_bind. unfold execute_update. cbn [db trace].
  destruct (sql_update (has_id id) (set_status "killing") (db w)) as [t n].
  reflexivity.
Qed.

(** X3.  At the gateway the report that answers a kill request never
    carries the job's stored output: the status it reads back is [killing],
    which is not one of the statuses that show [stdout] and [stderr], so
    killing a finished job hides the outputs it had; the stored returncode
    is still reported. *)
Theorem gateway_kill_hides_outputs (id : string) (row : job) (w w' : world)
    (js : V2.JobStatus) :
  select_by_id id (db w) = Some row ->
  V2.kill_job id w = (Ok js, w') ->
  V2.js_stdout js = None /\ V2.js_stderr js = None
  /\ V2.js_returncode js = returncode row.
Proof.
  intros Hrow. rewrite (kill_job_v2_run id row w Hrow). intros Hrun.
  apply bind_ok in Hrun as (counts & w1 & Hc & Hrun).
  apply bind_ok in Hrun as (u & w2 & Hl & Hrun).
  assert (Hdb : db w2
                = fst (sql_update (has_id id) (set_status "killing") (db w))).
  { pose proof (reads_only_db _ {| db := fst (sql_update (has_id id)
                                      (set_status "killing") (db w));
                                   trace := (trace w ++ [Log
                                      ("[api] kill request for job " ++ id)])%list |}
                  reads_only_counts_v2) as Hdb1.
    rewrite Hc in Hdb1. cbn [snd db] in Hdb1.
    rewrite run_log in Hl. inversion Hl. cbn [db]. exact Hdb1. }
  assert (Hrow' : select_by_id id (db w2) = Some (set_status "killing" row)).
  { rewrite Hdb, select_by_id_updated by reflexivity. rewrite Hrow.
    reflexivity. }
  destruct (get_job_status_v2_report id _ w2 w' js Hrow' Hrun)
    as (Hst & Hrc & Hout & Herr).
  rewrite Hst in Hout, Herr. cbn in Hout, Herr.
  split; [exact Hout|]. split; [exact Herr | exact Hrc].
Qed.

(** X4.  What a kill request does to the table at the executor depends on
    the recorded pid alone: without one (null or zero) the table is left as
    it is, whatever the status of the job; with one, the job becomes
    [killed] when the signal could be sent and [failed], with the
    exception appended to its error output, when sending raised. *)
Theorem executor_kill_effects (h : host) (id : string) (row : job) (w : world) :
  select_by_id id (db w) = Some row ->
  let after := db (snd (V1.kill_job h id w)) in
  match pid row with
  | None => after = db w
  | Some p =>
      if p =? 0 then after = db w
      else
        In (SigTerm p) (trace (snd (V1.kill_job h id w)))
        /\ match os_kill h p with
           | None =>
               after
               = List.map (fun j => if has_id id j
                                    then set_status "killed" j else j) (db w)
           | Some e =>
               after
               = List.map
                   (fun j =>
                      if has_id id j
                      then set_status_stderr "failed"
                             (V1.text_or (stderr row) "" ++ nl
                              ++ "[kill] exception: " ++ e) j
                      else j) (db w)
           end
  end.
Proof.
  intros Hrow. cbv zeta. unfold V1.kill_job.
  rewrite run_bind, run_log, run_bind, run_fetch_job. cbn [db trace].
  rewrite Hrow, run_bind.
  pose proof (reads_only_get_job_status_v1 h id) as Hro.
  destruct (pid row) as [p|].
  - destruct (p =? 0).
    + unfold mret, M_ret. cbn beta iota.
      rewrite (reads_only_db _ _ Hro). reflexivity.
    + rewrite run_bind, run_emit. cbn [db trace].
      destruct (os_kill h p) as [e|]; rewrite run_bind;
        unfold execute_update, sql_update; cbn [db trace];
        unfold mret, M_ret; cbn beta iota;
        match goal with
        | |- context [V1._get_job_status h id ?w0] =>
            destruct (Hro w0) as (r & later & Hrun); rewrite Hrun
        end; cbn [snd db trace]; (split; [|reflexivity]);
        apply in_or_app; left; apply in_or_app; right; apply in_eq.
  - unfold mret, M_ret. cbn beta iota.
    rewrite (reads_only_db _ _ Hro). reflexivity.
Qed.

End KillEffects.

Lemma unknown_job_is_not_found_witness :
  let w := {| db := [Demo.a_job "job-a" "finished" "{}" 1]; trace := [] |} in
  Forall (fun j => job_id j <> "job-z") (db w)
  /\ V2._get_job_status "job-z" w
     = (Raise (HTTPException 404 "Job not found"), w).
Proof.
  cbv zeta. split; [repeat constructor; discriminate|].
  apply (unknown_job_is_not_found Demo.failing_host "job-z").
  repeat constructor; discriminate.
Defined.

Lemma outputs_hidden_until_terminal_witness :
  select_by_id "job-a" (db (Demo2.stored_world "running" None))
  = Some (Demo2.stored_row "running" None)
  /\ exists js w',
       V2._get_job_status "job-a" (Demo2.stored_world "running" None)
       = (Ok js, w')
       /\ V2.js_returncode js = None
       /\ (V2.js_stdout js <> None \/ V2.js_stderr js <> None ->
           "running" = "finished" \/ "running" = "failed"
           \/ "running" = "killed" \/ "running" = "cleaned").
Proof.
  split; [reflexivity|].
  eexists. eexists. split; [vm_compute; reflexivity|].
  eapply (proj2 (outputs_hidden_until_terminal Demo.failing_host "job-a"
                   (Demo2.stored_row "running" None)
                   (Demo2.stored_world "running" None) eq_refl)).
  vm_compute; reflexivity.
Defined.

Lemma gateway_kill_hides_outputs_witness :
  select_by_id "job-a" (db (Demo2.stored_world "finished" (Some 0)))
  = Some (Demo2.stored_row "finished" (Some 0))
  /\ exists js w',
       V2.kill_job "job-a" (Demo2.stored_world "finished" (Some 0))
       = (Ok js, w')
       /\ V2.js_stdout js = None /\ V2.js_stderr js = None
       /\ V2.js_returncode js = Some 0.
Proof.
  split; [reflexivity|].
  eexists. eexists. split; [vm_compute; reflexivity|].
  eapply (gateway_kill_hides_outputs "job-a"
            (Demo2.stored_row "finished" (Some 0))
            (Demo2.stored_world "finished" (Some 0))); [reflexivity|].
  vm_compute; reflexivity.
Defined.

Lemma executor_kill_effects_witness :
  select_by_id "job-a" (db (Demo2.stored_world "running" None))
  = Some (Demo2.stored_row "running" None)
  /\ db (snd (V1.kill_job Demo.failing_host "job-a"
                (Demo2.stored_world "running" None)))
     = db (Demo2.stored_world "running" None).
Proof.
  split; [reflexivity|].
  exact (executor_kill_effects Demo.failing_host "job-a"
           (Demo2.stored_row "running" None)
           (Demo2.stored_world "running" None) eq_refl).
Defined.

(* ===================================================================== *)
(** * Further properties: the worker loop and the runs that stop early    *)
(* ===================================================================== *)

Section WorkerLoop.
Context `{Runtime}.

Lemma run_try_except {A} (m : M A) (handler : exn -> M A) (w : world) :
  try_except m handler w
  = match m w with
    | (Ok a, w') => (Ok a, w')
    | (Raise e, w') => handler e w'
    end.
Proof. reflexivity. Qed.

(** X5.  One turn of the worker loop never raises, whatever the claim and
    the run do; and on a table without a queued job it changes nothing and
    sleeps for 5 seconds. *)
Theorem worker_turn_never_raises (h : host) (others : list job -> list job)
    (worker_id : Z) (w : world) :
  (exists w', V1.worker_loop_turn h others worker_id w = (Ok tt, w'))
  /\ (select_oldest "queued" (db w) = None ->
      V1.worker_loop_turn h others worker_id w
      = (Ok tt, {| db := db w; trace := (trace w ++ [Sleep 5])%list |})).
Proof.
  split.
  - unfold V1.worker_loop_turn. rewrite run_bind, run_try_except.
    destruct (V1._claim_and_run_next_job h others worker_id w)
      as [[processed|e] w1].
    + destruct processed; cbn [negb]; unfold mret, M_ret, emit; eauto.
    + rewrite run_bind, run_log. unfold mret, M_ret, emit. cbn [negb].
      eauto.
  - intros Hnone. unfold V1.worker_loop_turn.
    rewrite run_bind, run_try_except.
    unfold V1._claim_and_run_next_job.
    rewrite run_bind, claim_next_job_id_unfold. unfold V1.claim_select.
    rewrite Hnone. cbn [fmap option_fmap option_map negb].
    unfold mret, M_ret, emit. reflexivity.
Qed.

(** X6.  When the run of a claimed job raises, whatever raises in it
    (making the run directory, building the configuration, writing or
    copying a file, running apply), the cycle stops there: the worker logs
    the exception and sleeps, and the table stays as the claim left it, so
    the job stays [running]; nothing marks it [failed]. *)
Theorem failed_build_leaves_job_running (h : host)
    (others : list job -> list job) (work_id : Z) (w w1 w2 : world)
    (id : string) (row : job) (e : exn) :
  V1._claim_next_job_id others w = (Ok (Some id), w1) ->
  id <> "" ->
  select_by_id id (db w1) = Some row ->
  V1._run_job_sync h work_id id w1 = (Raise e, w2) ->
  V1.worker_loop_turn h others work_id w
  = (Ok tt,
     {| db := db w1;
        trace :=
          (trace w2
           ++ [Log ("[worker-" ++ string_of_Z work_id ++ "] exception: "
                    ++ exn_str e);
               Sleep 5])%list |})
  /\ select_by_id id (db w1) = Some row.
Proof.
  intros Hclaim Hid Hrow Hrun. split; [|exact Hrow].
  assert (Hdb : db w2 = db w1).
  { destruct (reads_only_run_job_sync h work_id id w1) as (r & later & Hw).
    rewrite Hw in Hrun. inversion Hrun. reflexivity. }
  unfold V1.worker_loop_turn. rewrite run_bind, run_try_except.
  unfold V1._claim_and_run_next_job. rewrite run_bind, Hclaim.
  apply String.eqb_neq in Hid. rewrite Hid. rewrite run_bind, Hrun.
  rewrite run_bind, run_log. unfold mret, M_ret, emit. cbn [negb db trace].
  rewrite Hdb, <- app_assoc. reflexivity.
Qed.

(** X7.  When [autorun.sh] is not where the service expects it, a claimed
    job ends [failed] with returncode 1, an empty stored [stdout] and the
    "autorun script not found" message as its [stderr]; no directory is
    made and no subprocess is started: the cycle only logs. *)
Theorem missing_autorun_fails_job (h : host) (others : list job -> list job)
    (work_id : Z) (w w1 : world) (id : string) (row : job) :
  V1._claim_next_job_id others w = (Ok (Some id), w1) ->
  id <> "" ->
  select_by_id id (db w1) = Some row ->
  autorun_present h = false ->
  let err :=
    "[executor] autorun script not found at "
    ++ path_join (script_dir h) "autorun.sh" in
  exists w',
    V1._claim_and_run_next_job h others work_id w = (Ok true, w')
    /\ select_by_id id (db w') = Some (set_outcome 1 "" err "failed" row)
    /\ trace w'
       = (trace w1
          ++ [Log err; Log ("job " ++ id ++ " status changed failed");
              Log ("[executor] job " ++ id ++ " finished status=failed")])%list.
Proof.
  intros Hclaim Hid Hrow Habsent. cbv zeta.
  unfold V1._claim_and_run_next_job. rewrite run_bind, Hclaim.
  apply String.eqb_neq in Hid. rewrite Hid. rewrite run_bind.
  unfold V1._run_job_sync.
  rewrite run_bind, run_fetch_job, Hrow, Habsent. cbn [negb].
  rewrite run_bind, run_log. cbn [db trace]. unfold mret at 1, M_ret at 1.
  cbn [Z.eqb]. unfold V1._update_job_after_run.
  rewrite !run_bind. unfold execute_update. cbn [db trace].
  destruct (sql_update (has_id id) _ (db w1)) as [t n] eqn:Hupd.
  rewrite run_log. cbn [db trace]. rewrite run_bind, run_log. cbn [db trace].
  unfold mret, M_ret. eexists. split; [reflexivity|]. cbn [db trace].
  split.
  - replace t with (fst (sql_update (has_id id)
       (set_outcome 1 ""
          ("[executor] autorun script not found at "
           ++ path_join (path_join (app_dir h) "oci") "autorun.sh") "failed")
       (db w1))) by (rewrite Hupd; reflexivity).
    rewrite select_by_id_updated by reflexivity. rewrite Hrow. reflexivity.
  - rewrite <- !app_assoc. reflexivity.
Qed.

End WorkerLoop.

Lemma worker_turn_never_raises_witness :
  select_oldest "queued" (db (Demo2.stored_world "finished" (Some 0))) = None
  /\ V1.worker_loop_turn Demo.failing_host Demo.no_others 0
       (Demo2.stored_world "finished" (Some 0))
     = (Ok tt, {| db := db (Demo2.stored_world "finished" (Some 0));
                  trace := [Sleep 5] |}).
Proof.
  split; [reflexivity|].
  apply (proj2 (worker_turn_never_raises Demo.failing_host Demo.no_others 0
                  (Demo2.stored_world "finished" (Some 0)))).
  reflexivity.
Defined.

Lemma failed_build_leaves_job_running_witness :
  V1._claim_next_job_id Demo.no_others Demo.world0
  = (Ok (Some "job-a"), Demo.claimed_world)
  /\ V1._run_job_sync Demo2.bad_default_host 0 "job-a" Demo.claimed_world
     = (Raise ValueError, Demo2.bad_build_world)
  /\ db (snd (V1.worker_loop_turn Demo2.bad_default_host Demo.no_others 0
                Demo.world0))
     = [Demo.a_job "job-a" "running" "{}" 1].
Proof.
  split; [vm_compute; reflexivity|]. split; [vm_compute; reflexivity|].
  rewrite (proj1 (failed_build_leaves_job_running Demo2.bad_default_host
                    Demo.no_others 0 Demo.world0 Demo.claimed_world
                    Demo2.bad_build_world "job-a"
                    (Demo.a_job "job-a" "running" "{}" 1) ValueError
                    ltac:(vm_compute; reflexivity) ltac:(discriminate)
                    ltac:(vm_compute; reflexivity)
                    ltac:(vm_compute; reflexivity))).
  vm_compute. reflexivity.
Defined.

Lemma missing_autorun_fails_job_witness :
  V1._claim_next_job_id Demo.no_others Demo.world0
  = (Ok (Some "job-a"), Demo.claimed_world)
  /\ exists w',
       V1._claim_and_run_next_job Demo2.bare_host Demo.no_others 0 Demo.world0
       = (Ok true, w')
       /\ select_by_id "job-a" (db w')
          = Some (set_outcome 1 ""
                    "[executor] autorun script not found at /srv/app/oci/autorun.sh"
                    "failed" (Demo.a_job "job-a" "running" "{}" 1)).
Proof.
  split; [vm_compute; reflexivity|].
  destruct (missing_autorun_fails_job Demo2.bare_host Demo.no_others 0
              Demo.world0 Demo.claimed_world "job-a"
              (Demo.a_job "job-a" "running" "{}" 1)
              ltac:(vm_compute; reflexivity) ltac:(discriminate)
              ltac:(vm_compute; reflexivity) eq_refl)
    as (w' & Hrun & Hrow & _).
  exists w'. split; [exact Hrun | exact Hrow].
Defined.

(* ===================================================================== *)
(** * Further properties: the table                                       *)
(* ===================================================================== *)

Section Table.
Context `{Runtime}.

Lemma select_by_id_app_new (id : string) (t : list job) (row : job) :
  Forall (fun j => job_id j <> id) t -> job_id row = id ->
  select_by_id id (t ++ [row])%list = Some row.
Proof.
  intros Habsent Hid. unfold select_by_id.
  induction Habsent as [|j t Hj _ IH]; cbn [List.app List.find].
  - apply has_id_true in Hid. rewrite Hid. reflexivity.
  - destruct (has_id id j) eqn:Hh; [|exact IH].
    apply has_id_true in Hh. contradiction.
Qed.

Lemma select_by_id_app_other (id : string) (t : list job) (row : job) :
  job_id row <> id ->
  select_by_id id (t ++ [row])%list = select_by_id id t.
Proof.
  intros Hne. unfold select_by_id.
  induction t as [|j t IH]; cbn [List.app List.find].
  - destruct (has_id id row) eqn:Hh; [|reflexivity].
    apply has_id_true in Hh. contradiction.
  - destruct (has_id id j); [reflexivity | exact IH].
Qed.

(** X8.  Inserting a job under an id that no row carries appends one
    [queued] row without returncode, output or pid; fetching that id then
    returns this row, and every other id fetches what it fetched before.
    Inserting under an id that is taken raises [IntegrityError] and leaves
    the table as it is. *)
Theorem insert_then_fetch (now : Z) (id : string) (submit : V1.JobSubmit)
    (w : world) :
  let row := V1.queued_row now id submit in
  let w1 := {| db := (db w ++ [row])%list; trace := trace w |} in
  (Forall (fun j => job_id j <> id) (db w) ->
   V1._insert_job now id submit w = (Ok tt, w1)
   /\ V1._fetch_job id w1 = (Ok (Some row), w1)
   /\ status row = "queued" /\ returncode row = None
   /\ stdout row = None /\ stderr row = None /\ pid row = None
   /\ forall id', id' <> id ->
        V1._fetch_job id' w1 = (Ok (select_by_id id' (db w)), w1))
  /\ (forall j, select_by_id id (db w) = Some j ->
        V1._insert_job now id submit w = (Raise IntegrityError, w)).
Proof.
  cbv zeta. split.
  - intros Habsent.
    pose proof (proj2 (select_by_id_absent id (db w)) Habsent) as Hnone.
    split.
    { unfold V1._insert_job. rewrite run_bind. unfold get_db at 1.
      rewrite run_bind. unfold sql_insert, lift.
      cbn [V1.queued_row job_id]. rewrite Hnone. reflexivity. }
    split.
    { rewrite run_fetch_job. cbn [db].
      rewrite select_by_id_app_new by (assumption || reflexivity).
      reflexivity. }
    repeat (split; [reflexivity|]).
    intros id' Hne. rewrite run_fetch_job. cbn [db].
    rewrite select_by_id_app_other; [reflexivity|].
    cbn [V1.queued_row job_id]. congruence.
  - intros j Hj. unfold V1._insert_job. rewrite run_bind. unfold get_db at 1.
    rewrite run_bind. unfold sql_insert, lift.
    cbn [V1.queued_row job_id]. rewrite Hj. reflexivity.
Qed.

Lemma ids_updated (where_ : job -> bool) (set_ : job -> job) (t : list job) :
  (forall j, job_id (set_ j) = job_id j) ->
  ids (fst (sql_update where_ set_ t)) = ids t.
Proof.
  intros Hkey. rewrite sql_update_rows. unfold ids.
  induction t as [|j t IH]; cbn [List.map]; [reflexivity|].
  rewrite IH. destruct (where_ j); [rewrite Hkey|]; reflexivity.
Qed.

Lemma statuses_updated (where_ : job -> bool) (set_ : job -> job)
    (t : list job) :
  (forall j, executor_status (status (set_ j))) ->
  Forall (fun j => executor_status (status j)) t ->
  Forall (fun j => executor_status (status j))
    (fst (sql_update where_ set_ t)).
Proof.
  intros Hset Ht. rewrite sql_update_rows.
  induction Ht as [|j t Hj _ IH]; cbn [List.map]; constructor; [|exact IH].
  destruct (where_ j); [apply Hset | exact Hj].
Qed.

Lemma well_formed_update (where_ : job -> bool) (set_ : job -> job)
    (t0 t : list job) :
  (forall j, job_id (set_ j) = job_id j) ->
  (forall j, executor_status (status (set_ j))) ->
  table_well_formed t0 t ->
  table_well_formed t0 (fst (sql_update where_ set_ t)).
Proof.
  intros Hkey Hset (Hnd & Hst & Hadd). unfold table_well_formed.
  rewrite ids_updated by exact Hkey.
  split; [exact Hnd|]. split; [|exact Hadd].
  apply statuses_updated; assumption.
Qed.

Lemma well_formed_exec (t0 : list job) (st : V1.statement)
    (s s' : V1.system) :
  table_well_formed t0 (V1.table s) -> V1.exec st s = Some s' ->
  table_well_formed t0 (V1.table s').
Proof.
  intros Hwf Hexec.
  destruct st as [now id0 submit| |worker|worker|id0 rc out err|id0|id0 perr];
    cbn [V1.exec] in Hexec.
  - inversion Hexec; subst s'; clear Hexec. cbn [V1.table].
    unfold sql_insert.
    destruct (select_by_id _ (V1.table s)) eqn:Hfind; [exact Hwf|].
    cbn [V1.queued_row job_id] in Hfind.
    destruct Hwf as (Hnd & Hst & added & Hadd). unfold table_well_formed, ids.
    rewrite List.map_app. cbn [List.map V1.queued_row job_id].
    split; [|split].
    + apply NoDup_app. split; [exact Hnd|]. split; [|apply NoDup_singleton].
      intros x Hx Hx'. apply list_elem_of_singleton in Hx'. subst x.
      apply list_elem_of_In, in_map_iff in Hx as (j & Hj & Hin).
      eapply select_by_id_none; eauto.
    + apply Forall_app. split; [exact Hst|].
      constructor; [left; reflexivity | constructor].
    + exists (added ++ [id0])%list. unfold ids in Hadd. rewrite Hadd.
      rewrite <- app_assoc. reflexivity.
  - inversion Hexec; subst s'; clear Hexec. cbn [V1.table].
    apply well_formed_update; [reflexivity| |exact Hwf].
    intros j. right; right; right; left; reflexivity.
  - destruct (V1.worker_pc s worker); [|discriminate].
    destruct (V1.claim_select (V1.table s)); inversion Hexec; subst s';
      exact Hwf.
  - destruct (V1.worker_pc s worker) as [|id]; [discriminate|].
    destruct (V1.claim_update id (V1.table s)) as [t' n] eqn:Hupd.
    inversion Hexec; subst s'; clear Hexec. cbn [V1.table].
    replace t' with (fst (V1.claim_update id (V1.table s)))
      by (rewrite Hupd; reflexivity).
    unfold V1.claim_update.
    apply well_formed_update; [reflexivity| |exact Hwf].
    intros j. right; left; reflexivity.
  - inversion Hexec; subst s'; clear Hexec. cbn [V1.table].
    apply well_formed_update; [reflexivity| |exact Hwf].
    intros j. cbn [set_outcome status].
    destruct (rc =? 0); [right; right; left | right; right; right; left];
      reflexivity.
  - inversion Hexec; subst s'; clear Hexec. cbn [V1.table].
    apply well_formed_update; [reflexivity| |exact Hwf].
    intros j. right; right; right; right; reflexivity.
  - inversion Hexec; subst s'; clear Hexec. cbn [V1.table].
    apply well_formed_update; [reflexivity| |exact Hwf].
    intros j. right; right; right; left; reflexivity.
Qed.

(** X9.  Whatever way the statements of the executor interleave, a table
    whose ids are pairwise distinct and whose rows carry one of the
    statuses [queued], [running], [finished], [failed], [killed] stays
    such a table, and no row is ever removed: the ids it started with stay
    where they were and new ones are only added behind them. *)
Theorem schedule_keeps_table_well_formed (t0 : list job)
    (schedule : list V1.statement) (s : V1.system) :
  NoDup (ids t0) ->
  Forall (fun j => executor_status (status j)) t0 ->
  V1.run_schedule schedule (V1.start t0) = Some s ->
  NoDup (ids (V1.table s))
  /\ Forall (fun j => executor_status (status j)) (V1.table s)
  /\ exists added, ids (V1.table s) = (ids t0 ++ added)%list.
Proof.
  intros Hnd Hst Hrun.
  assert (Hgen : forall s0, table_well_formed t0 (V1.table s0) ->
            V1.run_schedule schedule s0 = Some s ->
            table_well_formed t0 (V1.table s)).
  { clear Hrun. induction schedule as [|st rest IH]; intros s0 Hwf Hrun.
    - inversion Hrun; subst; exact Hwf.
    - cbn [V1.run_schedule] in Hrun.
      destruct (V1.exec st s0) as [s1|] eqn:Hexec; [|discriminate].
      eapply IH; [|exact Hrun]. eapply well_formed_exec; eauto. }
  apply (Hgen (V1.start t0)); [|exact Hrun].
  split; [exact Hnd|]. split; [exact Hst|].
  exists []. rewrite app_nil_r. reflexivity.
Qed.

End Table.

Lemma insert_then_fetch_witness :
  let submit :=
    {| V1.submit_command := "echo hi"; V1.submit_workdir := "/work/b";
       V1.submit_env := ∅; V1.submit_metadata := ∅;
       V1.submit_resources := None; V1.submit_storage := None |} in
  Forall (fun j => job_id j <> "job-b") (db Demo.world0)
  /\ V1._fetch_job "job-b"
       {| db := (db Demo.world0 ++ [V1.queued_row 5 "job-b" submit])%list;
          trace := trace Demo.world0 |}
     = (Ok (Some (V1.queued_row 5 "job-b" submit)),
        {| db := (db Demo.world0 ++ [V1.queued_row 5 "job-b" submit])%list;
           trace := trace Demo.world0 |}).
Proof.
  cbv zeta. split; [repeat constructor; discriminate|].
  apply (proj1 (insert_then_fetch 5 "job-b" _ Demo.world0)).
  repeat constructor; discriminate.
Defined.

Lemma schedule_keeps_table_well_formed_witness :
  NoDup (ids Demo.race_table)
  /\ Forall (fun j => executor_status (status j)) Demo.race_table
  /\ V1.run_schedule Demo.race_schedule (V1.start Demo.race_table)
     = Some Demo.race_final
  /\ NoDup (ids (V1.table Demo.race_final)).
Proof.
  assert (Hnd : NoDup (ids Demo.race_table)).
  { apply NoDup_singleton. }
  assert (Hst : Forall (fun j => executor_status (status j)) Demo.race_table).
  { repeat constructor. }
  split; [exact Hnd|]. split; [exact Hst|].
  split; [vm_compute; reflexivity|].
  apply (schedule_keeps_table_well_formed Demo.race_table Demo.race_schedule
           Demo.race_final Hnd Hst).
  vm_compute; reflexivity.
Defined.

Section Uncontended.
Context `{Runtime}.

Lemma in_claim_update (id : string) (t : list job) (j' : job) :
  In j' (fst (V1.claim_update id t)) ->
  exists j, In j t /\ j' = (if claimable id j then set_status "running" j else j).
Proof.
  unfold V1.claim_update. intros Hin.
  apply (in_updated (fun j => has_id id j && has_status "queued" j)
           (set_status "running")) in Hin.
  exact Hin.
Qed.

(** X10.  Without interference between its two statements, a claim
    attempt on a table that has a queued job always succeeds, and with the
    oldest one: it answers the id of the queued row of least [created_at],
    no row of that id is [queued] afterwards, and whatever row the next
    attempt would select is another job, not older than this one. *)
Theorem uncontended_claim_takes_oldest (w : world) (row : job) :
  select_oldest "queued" (db w) = Some row ->
  exists w1,
    V1._claim_next_job_id (fun t => t) w = (Ok (Some (job_id row)), w1)
    /\ trace w1 = trace w
    /\ Forall (fun j => job_id j = job_id row -> status j <> "queued") (db w1)
    /\ forall next,
         select_oldest "queued" (db w1) = Some next ->
         job_id next <> job_id row /\ created_at row <= created_at next.
Proof.
  intros Hsel.
  destruct (select_oldest_some _ _ _ Hsel) as (Hin & Hq & Hmin).
  rewrite claim_next_job_id_unfold. unfold V1.claim_select. rewrite Hsel.
  cbn [fmap option_fmap option_map]. cbv zeta.
  assert (Hex : existsb (claimable (job_id row)) (db w) = true).
  { apply existsb_exists. exists row. split; [apply list_elem_of_In; exact Hin|].
    unfold claimable. apply andb_true_intro.
    split; [apply has_id_true; reflexivity | apply has_status_true; exact Hq]. }
  assert (Hn : (snd (V1.claim_update (job_id row) (db w)) =? 0) = false).
  { apply Z.eqb_neq. intros Hz. apply claim_update_rowcount_zero in Hz.
    congruence. }
  rewrite Hn. eexists. split; [reflexivity|]. cbn [db trace].
  split; [reflexivity|]. split.
  - apply List.Forall_forall. intros j' Hj' Hid Hqueued.
    apply in_claim_update in Hj' as (j & Hj & ->).
    destruct (claimable (job_id row) j) eqn:Hc; [discriminate|].
    unfold claimable in Hc. apply has_id_true in Hid.
    apply has_status_true in Hqueued. rewrite Hid, Hqueued in Hc.
    discriminate.
  - intros next Hnext.
    destruct (select_oldest_some _ _ _ Hnext) as (Hin' & Hq' & _).
    apply list_elem_of_In, in_claim_update in Hin' as (j & Hj & ->).
    destruct (claimable (job_id row) j) eqn:Hc; [discriminate|].
    split.
    + intros Hid. unfold claimable in Hc. apply has_id_true in Hid.
      apply has_status_true in Hq'. rewrite Hid, Hq' in Hc. discriminate.
    + rewrite List.Forall_forall in Hmin. apply Hmin; assumption.
Qed.

End Uncontended.

Lemma uncontended_claim_takes_oldest_witness :
  let w :=
    {| db := [Demo.a_job "job-young" "queued" "{}" 7;
              Demo.a_job "job-old" "queued" "{}" 3];
       trace := [] |} in
  select_oldest "queued" (db w) = Some (Demo.a_job "job-old" "queued" "{}" 3)
  /\ exists w1,
       V1._claim_next_job_id (fun t => t) w = (Ok (Some "job-old"), w1).
Proof.
  cbv zeta. split; [reflexivity|].
  destruct (uncontended_claim_takes_oldest
              {| db := [Demo.a_job "job-young" "queued" "{}" 7;
                        Demo.a_job "job-old" "queued" "{}" 3];
                 trace := [] |}
              (Demo.a_job "job-old" "queued" "{}" 3) eq_refl)
    as (w1 & Hrun & _).
  exists w1. exact Hrun.
Defined.

(* ===================================================================== *)
(** * The API keys and the check of a request                             *)
(* ===================================================================== *)

Section Keys.

Lemma split_commas_cons (s : string) :
  exists p ps, Shared.split_commas s = p :: ps.
Proof.
  induction s as [|c rest (p & ps & IH)]; cbn [Shared.split_commas].
  - eauto.
  - rewrite IH. destruct (Ascii.eqb c ","); eauto.
Qed.

Lemma split_commas_no_comma (s : string) :
  Forall (fun t => all_chars not_comma t = true) (Shared.split_commas s).
Proof.
  induction s as [|c rest IH]; cbn [Shared.split_commas].
  - constructor; [reflexivity | constructor].
  - destruct (Ascii.eqb c ",") eqn:Hc.
    + constructor; [reflexivity | exact IH].
    + destruct (Shared.split_commas rest) as [|p ps].
      * constructor; [|constructor].
        cbn [all_chars]. unfold not_comma. rewrite Hc. reflexivity.
      * inversion IH as [|? ? Hp Hps]; subst. constructor; [|exact Hps].
        cbn [all_chars]. unfold not_comma at 1. rewrite Hc. exact Hp.
Qed.

(** Induction on a text that may step over the one, two or three bytes of
    a character. *)
Lemma string_length_ind (P : string -> Prop) :
  (forall s, (forall t, (String.length t < String.length s)%nat -> P t) -> P s) ->
  forall s, P s.
Proof.
  intros Hstep s.
  assert (Hall : forall n t, (String.length t < n)%nat -> P t).
  { induction n as [|n IH]; intros t Hlen; [lia|].
    apply Hstep. intros u Hu. apply IH. lia. }
  apply (Hall (S (String.length s))). lia.
Qed.

Lemma blank_lstrip (s : string) : blank (lstrip s) = blank s.
Proof.
  induction s as [s IH] using string_length_ind.
  destruct s as [|c rest]; [reflexivity|].
  rewrite lstrip_unfold, (blank_unfold c rest).
  destruct (is_space c) eqn:Hc; [apply IH; cbn; lia|].
  destruct rest as [|d rest1].
  - rewrite blank_unfold, Hc. reflexivity.
  - destruct (is_space2 c d) eqn:Hd; [apply IH; cbn; lia|].
    destruct rest1 as [|e rest2].
    + rewrite blank_unfold, Hc, Hd. reflexivity.
    + destruct (is_space3 c d e) eqn:He.
      * cbn [andb]. apply IH. cbn; lia.
      * rewrite blank_unfold, Hc, Hd, He. reflexivity.
Qed.

Lemma rstrip_blank (s : string) : rstrip s = "" <-> blank s = true.
Proof.
  destruct s as [|c rest]; [split; reflexivity|].
  rewrite rstrip_unfold. destruct (blank (String c rest)).
  - split; reflexivity.
  - split; discriminate.
Qed.

Lemma strip_blank (s : string) : strip s = "" <-> blank s = true.
Proof. unfold strip. rewrite rstrip_blank, blank_lstrip. reflexivity. Qed.

Lemma blank_app (a b : string) :
  blank a = true -> blank (a ++ b) = blank b.
Proof.
  induction a as [a IH] using string_length_ind. intros Ha.
  destruct a as [|c a]; [reflexivity|].
  change (String c a ++ b) with (String c (a ++ b)).
  rewrite blank_unfold in Ha. rewrite blank_unfold.
  destruct (is_space c); [apply IH; [cbn; lia | exact Ha]|].
  destruct a as [|d a]; [discriminate|].
  change (String d a ++ b) with (String d (a ++ b)). cbv iota.
  destruct (is_space2 c d); [apply IH; [cbn; lia | exact Ha]|].
  destruct a as [|e a]; [discriminate|].
  change (String e a ++ b) with (String e (a ++ b)). cbv iota.
  apply andb_true_iff in Ha as [He Ha]. rewrite He. cbn [andb].
  apply IH; [cbn; lia | exact Ha].
Qed.

Lemma rstrip_split (s : string) :
  exists q, s = rstrip s ++ q /\ blank q = true.
Proof.
  induction s as [|c s (q & Hq & Hbq)].
  - exists "". split; reflexivity.
  - rewrite rstrip_unfold. destruct (blank (String c s)) eqn:Hb.
    + exists (String c s). split; [reflexivity | exact Hb].
    + exists q. split; [|exact Hbq].
      change (String c (rstrip s) ++ q) with (String c (rstrip s ++ q)).
      f_equal. exact Hq.
Qed.

Lemma blank_rstrip (s : string) : blank (rstrip s) = true -> blank s = true.
Proof.
  intros Hb. destruct (rstrip_split s) as (q & Hq & Hbq).
  rewrite Hq, (blank_app _ _ Hb). exact Hbq.
Qed.

Lemma rstrip_idempotent (s : string) : rstrip (rstrip s) = rstrip s.
Proof.
  induction s as [|c s IH]; [reflexivity|].
  assert (Hkeep : blank (String c s) = false ->
                  rstrip (String c s) = String c (rstrip s)).
  { intros Hb. rewrite rstrip_unfold, Hb. reflexivity. }
  destruct (blank (String c s)) eqn:Hb.
  - rewrite rstrip_unfold, Hb. reflexivity.
  - rewrite (Hkeep eq_refl). rewrite rstrip_unfold.
    destruct (blank (String c (rstrip s))) eqn:Hb2.
    + rewrite <- (Hkeep eq_refl) in Hb2. apply blank_rstrip in Hb2.
      congruence.
    + rewrite IH. reflexivity.
Qed.

Lemma no_space_head_lstrip (s : string) : no_space_head (lstrip s) = true.
Proof.
  induction s as [s IH] using string_length_ind.
  destruct s as [|c rest]; [reflexivity|].
  rewrite lstrip_unfold.
  destruct (is_space c) eqn:Hc; [apply IH; cbn; lia|].
  destruct rest as [|d rest1].
  - cbn [no_space_head]. rewrite Hc. reflexivity.
  - destruct (is_space2 c d) eqn:Hd; [apply IH; cbn; lia|].
    destruct rest1 as [|e rest2].
    + cbn [no_space_head]. rewrite Hc, Hd. reflexivity.
    + destruct (is_space3 c d e) eqn:He; [apply IH; cbn; lia|].
      cbn [no_space_head]. rewrite Hc, Hd, He. reflexivity.
Qed.

Lemma lstrip_no_space_head (s : string) :
  no_space_head s = true -> lstrip s = s.
Proof.
  destruct s as [|c rest]; [reflexivity|]. cbn [no_space_head]. intros Hs.
  apply andb_true_iff in Hs as [Hc Hs]. apply negb_true_iff in Hc.
  rewrite lstrip_unfold, Hc.
  destruct rest as [|d rest1]; [reflexivity|].
  apply andb_true_iff in Hs as [Hd Hs]. apply negb_true_iff in Hd.
  rewrite Hd. destruct rest1 as [|e rest2]; [reflexivity|].
  apply negb_true_iff in Hs. rewrite Hs. reflexivity.
Qed.

Lemma no_space_head_rstrip (s : string) :
  no_space_head s = true -> no_space_head (rstrip s) = true.
Proof.
  destruct s as [|c rest]; [reflexivity|]. intros Hs.
  rewrite rstrip_unfold. destruct (blank (String c rest)); [reflexivity|].
  cbn [no_space_head] in Hs |- *.
  apply andb_true_iff in Hs as [Hc Hs]. rewrite Hc. cbn [andb].
  destruct rest as [|d rest1]; [reflexivity|].
  rewrite rstrip_unfold. destruct (blank (String d rest1)); [reflexivity|].
  apply andb_true_iff in Hs as [Hd Hs]. rewrite Hd. cbn [andb].
  destruct rest1 as [|e rest2]; [reflexivity|].
  rewrite rstrip_unfold. destruct (blank (String e rest2)); [reflexivity|].
  exact Hs.
Qed.

Lemma strip_idempotent (s : string) : strip (strip s) = strip s.
Proof.
  unfold strip.
  rewrite (lstrip_no_space_head (rstrip (lstrip s)))
    by apply no_space_head_rstrip, no_space_head_lstrip.
  apply rstrip_idempotent.
Qed.

Lemma all_chars_lstrip (p : ascii -> bool) (s : string) :
  all_chars p s = true -> all_chars p (lstrip s) = true.
Proof.
  induction s as [s IH] using string_length_ind. intros Hall.
  destruct s as [|c rest]; [reflexivity|]. rewrite lstrip_unfold.
  cbn [all_chars] in Hall. apply andb_true_iff in Hall as [Hc Hrest].
  destruct (is_space c); [apply IH; [cbn; lia | exact Hrest]|].
  destruct rest as [|d rest1].
  - cbn [all_chars]. rewrite Hc. reflexivity.
  - cbn [all_chars] in Hrest. apply andb_true_iff in Hrest as [Hd Hrest1].
    destruct (is_space2 c d); [apply IH; [cbn; lia | exact Hrest1]|].
    destruct rest1 as [|e rest2].
    + cbn [all_chars]. rewrite Hc, Hd. reflexivity.
    + cbn [all_chars] in Hrest1.
      apply andb_true_iff in Hrest1 as [He Hrest2].
      destruct (is_space3 c d e); [apply IH; [cbn; lia | exact Hrest2]|].
      cbn [all_chars]. rewrite Hc, Hd, He, Hrest2. reflexivity.
Qed.

Lemma all_chars_rstrip (p : ascii -> bool) (s : string) :
  all_chars p s = true -> all_chars p (rstrip s) = true.
Proof.
  induction s as [|c rest IH]; [reflexivity|]. intros Hall.
  cbn [all_chars] in Hall. apply andb_true_iff in Hall as [Hc Hall].
  rewrite rstrip_unfold. destruct (blank (String c rest)); [reflexivity|].
  cbn [all_chars]. rewrite Hc, (IH Hall). reflexivity.
Qed.

Lemma in_keys_of (raw k : string) :
  In k (Shared.keys_of raw) ->
  k <> "" /\ strip k = k /\ all_chars not_comma k = true.
Proof.
  unfold Shared.keys_of. intros Hin.
  apply in_map_iff in Hin as (t & <- & Hin).
  apply filter_In in Hin as [Hin Hkeep].
  apply andb_true_iff in Hkeep as [_ Hkeep].
  apply negb_true_iff in Hkeep. apply String.eqb_neq in Hkeep.
  split; [exact Hkeep|]. split; [apply strip_idempotent|].
  unfold strip. apply all_chars_rstrip, all_chars_lstrip.
  pose proof (split_commas_no_comma raw) as Hall.
  rewrite List.Forall_forall in Hall. exact (Hall t Hin).
Qed.

Lemma only_separators_unfold (c : ascii) (rest : string) :
  only_separators (String c rest)
  = if is_space c || Ascii.eqb c "," then only_separators rest
    else
      match rest with
      | String d rest1 =>
          if is_space2 c d then only_separators rest1
          else
            match rest1 with
            | String e rest2 => is_space3 c d e && only_separators rest2
            | EmptyString => false
            end
      | EmptyString => false
      end.
Proof. destruct rest as [|d [|e rest2]]; reflexivity. Qed.

Lemma high_not_comma (c : ascii) :
  (128 <= nat_of_ascii c)%nat -> Ascii.eqb c "," = false.
Proof.
  intros Hc. destruct (Ascii.eqb_spec c ","%char) as [->|]; [|reflexivity].
  vm_compute in Hc. lia.
Qed.

Lemma split_commas_step (c : ascii) (rest : string) :
  Ascii.eqb c "," = false ->
  exists p ps,
    Shared.split_commas rest = p :: ps
    /\ Shared.split_commas (String c rest) = String c p :: ps.
Proof.
  intros Hc. destruct (split_commas_cons rest) as (p & ps & Hrest).
  exists p, ps. split; [exact Hrest|].
  cbn [Shared.split_commas]. rewrite Hc, Hrest. reflexivity.
Qed.

Lemma split_commas_comma (c : ascii) (rest : string) :
  Ascii.eqb c "," = true ->
  Shared.split_commas (String c rest) = "" :: Shared.split_commas rest.
Proof. intros Hc. cbn [Shared.split_commas]. rewrite Hc. reflexivity. Qed.

(** The pieces between the commas are all blank exactly when the text holds
    nothing but commas and white space. *)
Lemma split_commas_blank (s : string) :
  Forall (fun t => blank t = true) (Shared.split_commas s)
  <-> only_separators s = true.
Proof.
  induction s as [s IH] using string_length_ind.
  destruct s as [|c rest].
  - split; [reflexivity|]. intros _. repeat constructor.
  - rewrite only_separators_unfold.
    destruct (Ascii.eqb c ",") eqn:Hcomma.
    + rewrite orb_true_r, (split_commas_comma c rest Hcomma), Forall_cons.
      rewrite <- IH by (cbn; lia). split; [intros [_ Hall]; exact Hall|].
      intros Hall. split; [reflexivity | exact Hall].
    + rewrite orb_false_r.
      destruct (split_commas_step c rest Hcomma) as (p & ps & Hrest & ->).
      rewrite Forall_cons, (blank_unfold c p).
      destruct (is_space c) eqn:Hc.
      { rewrite <- IH by (cbn; lia). rewrite Hrest, Forall_cons.
        reflexivity. }
      destruct rest as [|d rest1].
      { cbn in Hrest. inversion Hrest; subst p ps.
        split; [intros [Hf _]; discriminate Hf | discriminate]. }
      destruct (is_space2 c d) eqn:Hd.
      { pose proof (is_space2_high c d Hd) as [_ Hhigh].
        destruct (split_commas_step d rest1 (high_not_comma d Hhigh))
          as (p1 & ps1 & Hrest1 & Hs1).
        rewrite Hs1 in Hrest. inversion Hrest; subst p ps.
        cbv iota. rewrite Hd. rewrite <- IH by (cbn; lia).
        rewrite Hrest1, Forall_cons. reflexivity. }
      destruct (Ascii.eqb d ",") eqn:Hdc.
      { rewrite (split_commas_comma d rest1 Hdc) in Hrest.
        inversion Hrest; subst p ps.
        split; [intros [Hf _]; discriminate Hf|].
        destruct rest1 as [|e rest2]; [discriminate|].
        intros Hs. apply andb_true_iff in Hs as [Hs _].
        apply is_space3_high in Hs as (_ & Hhigh & _).
        rewrite (high_not_comma d Hhigh) in Hdc. discriminate. }
      destruct (split_commas_step d rest1 Hdc) as (p1 & ps1 & Hrest1 & Hs1).
      rewrite Hs1 in Hrest. inversion Hrest; subst p ps.
      cbv iota. rewrite Hd.
      destruct rest1 as [|e rest2].
      { cbn in Hrest1. inversion Hrest1; subst p1 ps1.
        split; [intros [Hf _]; discriminate Hf | discriminate]. }
      destruct (Ascii.eqb e ",") eqn:Hec.
      { rewrite (split_commas_comma e rest2 Hec) in Hrest1.
        inversion Hrest1; subst p1 ps1.
        split; [intros [Hf _]; discriminate Hf|].
        intros Hs. apply andb_true_iff in Hs as [Hs _].
        apply is_space3_high in Hs as (_ & _ & Hhigh).
        rewrite (high_not_comma e Hhigh) in Hec. discriminate. }
      destruct (split_commas_step e rest2 Hec) as (p2 & ps2 & Hrest2 & Hs2).
      rewrite Hs2 in Hrest1. inversion Hrest1; subst p1 ps1.
      destruct (is_space3 c d e); cbn [andb].
      * rewrite <- IH by (cbn; lia). rewrite Hrest2, Forall_cons.
        reflexivity.
      * split; [intros [Hf _]; discriminate Hf | discriminate].
Qed.

Lemma keys_of_blank (raw : string) :
  Shared.keys_of raw = [] <-> only_separators raw = true.
Proof.
  rewrite <- split_commas_blank. unfold Shared.keys_of.
  induction (Shared.split_commas raw) as [|t ts IH]; cbn [List.filter List.map].
  - split; [constructor | reflexivity].
  - destruct (String.eqb (strip t) "") eqn:Hs.
    + rewrite andb_false_r. rewrite IH.
      apply String.eqb_eq in Hs. apply strip_blank in Hs.
      split; [constructor; assumption|].
      intros Hall. inversion Hall; assumption.
    + assert (Ht : String.eqb t "" = false).
      { destruct t; [discriminate Hs | reflexivity]. }
      rewrite Ht. cbn [negb andb List.map]. split; [discriminate|].
      intros Hall. inversion Hall as [|? ? Hblank _]; subst.
      apply strip_blank in Hblank. rewrite Hblank in Hs. discriminate.
Qed.

Lemma api_keys_elem (h : host) (k : string) :
  k ∈ Shared.API_KEYS h ->
  In k (Shared.keys_of (getenv_default h "API_KEYS" ""))
  \/ In k (Shared.keys_of (getenv_default h "NXF_RES_AUTH_API_KEY" "")).
Proof.
  unfold Shared.API_KEYS. rewrite elem_of_list_to_set, list_elem_of_In.
  cbn [List.flat_map]. rewrite List.app_nil_r. apply in_app_or.
Qed.

Lemma api_keys_empty (h : host) :
  Shared.API_KEYS h = ∅
  <-> only_separators (getenv_default h "API_KEYS" "")
      && only_separators (getenv_default h "NXF_RES_AUTH_API_KEY" "")
      = true.
Proof.
  rewrite andb_true_iff, <- !keys_of_blank. unfold Shared.API_KEYS.
  cbn [List.flat_map]. rewrite List.app_nil_r.
  destruct (Shared.keys_of (getenv_default h "API_KEYS" "")) as [|k ks].
  - destruct (Shared.keys_of (getenv_default h "NXF_RES_AUTH_API_KEY" ""))
      as [|k ks].
    + split; [split; reflexivity | reflexivity].
    + split; [|intros [_ Hno]; discriminate Hno].
      intros Hempty. exfalso.
      assert (Hin : k ∈ (∅ : gset string)).
      { rewrite <- Hempty. apply elem_of_list_to_set. left. }
      exact (not_elem_of_empty _ Hin).
  - split; [|intros [Hno _]; discriminate Hno].
    intros Hempty. exfalso.
    assert (Hin : k ∈ (∅ : gset string)).
    { rewrite <- Hempty. apply elem_of_list_to_set. left. }
    exact (not_elem_of_empty _ Hin).
Qed.

(** X11.  Every configured API key is a non-empty text without a comma
    and without white space at either end, whatever the two settings
    hold. *)
Theorem configured_keys_are_trimmed (h : host) (k : string) :
  k ∈ Shared.API_KEYS h ->
  k <> "" /\ strip k = k /\ all_chars not_comma k = true.
Proof.
  intros Hin. apply api_keys_elem in Hin as [Hin | Hin];
    exact (in_keys_of _ _ Hin).
Qed.

(** X12.  Authentication is off exactly when the two settings hold
    nothing but commas and white space, the white space of Unicode
    included: then every request passes, with or without a key; otherwise
    a request that carries no key is refused with status 401. *)
Theorem blank_settings_disable_auth (h : host) :
  let blank :=
    only_separators (getenv_default h "API_KEYS" "")
    && only_separators (getenv_default h "NXF_RES_AUTH_API_KEY" "") in
  (blank = true ->
   forall api_key x_api_key,
     Shared.require_api_key (Shared.API_KEYS h) api_key x_api_key = Ok None)
  /\ (blank = false ->
      Shared.require_api_key (Shared.API_KEYS h) None None
      = Raise unauthorized).
Proof.
  cbv zeta. split.
  - intros Hblank api_key x_api_key. apply api_keys_empty in Hblank.
    unfold Shared.require_api_key. rewrite Hblank.
    rewrite bool_decide_eq_true_2 by reflexivity. reflexivity.
  - intros Hblank. unfold Shared.require_api_key.
    rewrite bool_decide_eq_false_2; [reflexivity|].
    intros Hempty. apply api_keys_empty in Hempty. congruence.
Qed.

(** X13.  With keys configured, a request passes exactly when the header
    that counts holds one of them, and the key it passes with is that one:
    [api_key] counts when it is present and not empty, [X-API-Key]
    otherwise.  Every other request is refused with status 401. *)
Theorem request_passes_with_configured_key (keys : gset string)
    (api_key x_api_key : option string) :
  keys <> ∅ ->
  (forall answer,
     Shared.require_api_key keys api_key x_api_key = Ok answer
     <-> exists p,
           answer = Some p /\ p <> "" /\ p ∈ keys
           /\ (api_key = Some p
               \/ (api_key = None \/ api_key = Some "") /\ x_api_key = Some p))
  /\ (forall e,
        Shared.require_api_key keys api_key x_api_key = Raise e ->
        e = unauthorized).
Proof.
  intros Hkeys. unfold Shared.require_api_key, Shared.header_or.
  rewrite bool_decide_eq_false_2 by exact Hkeys.
  fold unauthorized.
  assert (Hcheck : forall p answer,
    (if String.eqb p "" then Raise unauthorized
     else if bool_decide (p ∈ keys) then Ok (Some p)
     else Raise unauthorized) = Ok answer
    <-> answer = Some p /\ p <> "" /\ p ∈ keys).
  { intros p answer. destruct (String.eqb p "") eqn:Hp.
    - apply String.eqb_eq in Hp. split; [discriminate|]. tauto.
    - apply String.eqb_neq in Hp. destruct (bool_decide (p ∈ keys)) eqn:Hin.
      + apply bool_decide_eq_true_1 in Hin. split.
        * intros Heq. inversion Heq. tauto.
        * intros [-> _]. reflexivity.
      + apply bool_decide_eq_false_1 in Hin. split; [discriminate|]. tauto. }
  split.
  - intros answer. destruct api_key as [a|].
    + destruct (String.eqb a "") eqn:Ha.
      * apply String.eqb_eq in Ha. subst a. destruct x_api_key as [x|].
        -- rewrite Hcheck. split.
           ++ intros (-> & Hne & Hin). exists x. tauto.
           ++ intros (p & -> & Hne & Hin & [Heq | [_ Heq]]);
                inversion Heq; subst; tauto.
        -- split; [discriminate|].
           intros (p & _ & Hne & _ & [Heq | [_ Heq]]);
             inversion Heq; subst; tauto.
      * apply String.eqb_neq in Ha. rewrite Hcheck. split.
        -- intros (-> & Hne & Hin). exists a. tauto.
        -- intros (p & -> & Hne & Hin & [Heq | [[Heq | Heq] _]]);
             inversion Heq; subst; tauto.
    + destruct x_api_key as [x|].
      * rewrite Hcheck. split.
        -- intros (-> & Hne & Hin). exists x. tauto.
        -- intros (p & -> & Hne & Hin & [Heq | [_ Heq]]);
             inversion Heq; subst; tauto.
      * split; [discriminate|].
        intros (p & _ & _ & _ & [Heq | [_ Heq]]); discriminate.
  - intros e.
    assert (Hraise : forall p,
      (if String.eqb p "" then Raise unauthorized
       else if bool_decide (p ∈ keys) then Ok (Some p)
       else Raise unauthorized) = Raise e -> e = unauthorized).
    { intros p. destruct (String.eqb p ""); [congruence|].
      destruct (bool_decide (p ∈ keys)); congruence. }
    destruct api_key as [a|].
    + destruct (String.eqb a "").
      * destruct x_api_key; [apply Hraise | congruence].
      * apply Hraise.
    + destruct x_api_key; [apply Hraise | congruence].
Qed.

(** X14.  A non-empty [api_key] header that is not a configured key is
    refused whatever [X-API-Key] holds, a configured key included: the
    second header is read only when the first is missing or empty. *)
Theorem api_key_header_shadows (keys : gset string) (sent : string)
    (x_api_key : option string) :
  keys <> ∅ -> sent <> "" -> sent ∉ keys ->
  Shared.require_api_key keys (Some sent) x_api_key = Raise unauthorized.
Proof.
  intros Hkeys Hsent Hout. unfold Shared.require_api_key, Shared.header_or.
  rewrite bool_decide_eq_false_2 by exact Hkeys.
  apply String.eqb_neq in Hsent. rewrite Hsent. cbn beta iota.
  rewrite Hsent. rewrite bool_decide_eq_false_2 by exact Hout. reflexivity.
Qed.

End Keys.

Lemma configured_keys_are_trimmed_witness :
  "alpha" ∈ Shared.API_KEYS (Demo2.keyed_host " alpha , beta,,")
  /\ "alpha" <> "" /\ strip "alpha" = "alpha"
  /\ all_chars not_comma "alpha" = true.
Proof.
  assert (Hin : "alpha" ∈ Shared.API_KEYS (Demo2.keyed_host " alpha , beta,,")).
  { apply (bool_decide_unpack _). vm_compute. exact I. }
  split; [exact Hin|].
  exact (configured_keys_are_trimmed
           (Demo2.keyed_host " alpha , beta,,") "alpha" Hin).
Defined.

Lemma blank_settings_disable_auth_witness :
  Shared.require_api_key
    (Shared.API_KEYS (Demo2.keyed_host (" ," ++ Demo2.nbsp ++ ",")))
    (Some "anything") None = Ok None
  /\ Shared.require_api_key (Shared.API_KEYS (Demo2.keyed_host "alpha"))
       None None = Raise unauthorized.
Proof.
  split.
  - apply (proj1 (blank_settings_disable_auth
                    (Demo2.keyed_host (" ," ++ Demo2.nbsp ++ ",")))).
    vm_compute. reflexivity.
  - apply (proj2 (blank_settings_disable_auth (Demo2.keyed_host "alpha"))).
    vm_compute. reflexivity.
Defined.

Lemma request_passes_with_configured_key_witness :
  ({["alpha"]} : gset string) <> ∅
  /\ Shared.require_api_key {["alpha"]} (Some "") (Some "alpha")
     = Ok (Some "alpha").
Proof.
  assert (Hkeys : ({["alpha"]} : gset string) <> ∅).
  { apply (bool_decide_unpack _). vm_compute. exact I. }
  split; [exact Hkeys|].
  apply (proj1 (request_passes_with_configured_key
                  {["alpha"]} (Some "") (Some "alpha") Hkeys)).
  exists "alpha". split; [reflexivity|]. split; [discriminate|].
  split; [apply (bool_decide_unpack _); vm_compute; exact I|].
  right. split; [right|]; reflexivity.
Defined.

Lemma api_key_header_shadows_witness :
  ({["alpha"]} : gset string) <> ∅
  /\ ("wrong" ∉ ({["alpha"]} : gset string))
  /\ Shared.require_api_key {["alpha"]} (Some "wrong") (Some "alpha")
     = Raise unauthorized.
Proof.
  assert (Hkeys : ({["alpha"]} : gset string) <> ∅).
  { apply (bool_decide_unpack _). vm_compute. exact I. }
  assert (Hout : "wrong" ∉ ({["alpha"]} : gset string)).
  { apply (bool_decide_unpack _). vm_compute. exact I. }
  split; [exact Hkeys|]. split; [exact Hout|].
  apply (api_key_header_shadows {["alpha"]} "wrong" (Some "alpha") Hkeys);
    [discriminate | exact Hout].
Defined.

(* ===================================================================== *)
(** * Waiting for the database                                            *)
(* ===================================================================== *)

Section InitDbFacts.
Context `{Runtime}.

Lemma init_loop_connects (connect : Z -> option string)
    (pause : pyfloat -> option string) (error : Z -> string)
    (max_attempts k : Z) (delay : pyfloat) (n : nat) :
  pause delay = None ->
  forall (attempt : Z) (remaining : nat),
    k = attempt + Z.of_nat n ->
    (n < remaining)%nat ->
    k <= max_attempts ->
    connect k = None ->
    (forall j, attempt <= j < k -> connect j = Some (error j)) ->
    Shared.init_loop connect pause max_attempts delay attempt remaining
    = (Shared.Returned,
       (List.flat_map (failed_attempt delay error) (attempts_from attempt n)
        ++ [Shared.CreateTable; Shared.InitLog "[db] jobs table is ready"])%list).
Proof.
  intros Hpause.
  induction n as [|n IH]; intros attempt remaining Hk Hfuel Hmax Hup Hdown.
  - destruct remaining as [|rest]; [lia|].
    assert (k = attempt) as -> by lia.
    cbn [Shared.init_loop attempts_from List.flat_map List.app].
    rewrite Hup. reflexivity.
  - destruct remaining as [|rest]; [lia|].
    cbn [Shared.init_loop attempts_from List.flat_map].
    rewrite (Hdown attempt) by lia.
    replace (attempt =? max_attempts) with false
      by (symmetry; apply Z.eqb_neq; lia).
    rewrite Hpause.
    rewrite (IH (attempt + 1) rest) by (try lia; try assumption;
      intros j Hj; apply Hdown; lia).
    reflexivity.
Qed.

Lemma init_loop_gives_up (connect : Z -> option string)
    (pause : pyfloat -> option string) (error : Z -> string)
    (max_attempts : Z) (delay : pyfloat) (n : nat) :
  pause delay = None ->
  forall (attempt : Z) (remaining : nat),
    max_attempts = attempt + Z.of_nat n ->
    (n < remaining)%nat ->
    (forall j, attempt <= j <= max_attempts -> connect j = Some (error j)) ->
    Shared.init_loop connect pause max_attempts delay attempt remaining
    = (Shared.Raised (error max_attempts),
       (List.flat_map (failed_attempt delay error) (attempts_from attempt n)
        ++ [Shared.InitLog ("[db] init attempt " ++ string_of_Z max_attempts
                            ++ " failed: " ++ error max_attempts);
            Shared.InitLog "[db] giving up initializing database"])%list).
Proof.
  intros Hpause.
  induction n as [|n IH]; intros attempt remaining Hk Hfuel Hdown.
  - destruct remaining as [|rest]; [lia|].
    assert (max_attempts = attempt) as -> by lia.
    cbn [Shared.init_loop attempts_from List.flat_map List.app].
    rewrite (Hdown attempt) by lia. rewrite Z.eqb_refl. reflexivity.
  - destruct remaining as [|rest]; [lia|].
    cbn [Shared.init_loop attempts_from List.flat_map].
    rewrite (Hdown attempt) by lia.
    replace (attempt =? max_attempts) with false
      by (symmetry; apply Z.eqb_neq; lia).
    rewrite Hpause.
    rewrite (IH (attempt + 1) rest) by (try lia;
      intros j Hj; apply Hdown; lia).
    reflexivity.
Qed.

(** X16.  [init_db] retries until the database answers: if attempt [k]
    (of at most [DB_INIT_RETRIES]) is the first at which connecting and
    creating the table succeeds, it returns, having logged every earlier
    failure and paused [DB_INIT_DELAY] after each, so after exactly
    [k - 1] pauses, and the table is created once, at the end. *)
Theorem init_db_retries_until_connected (h : host)
    (connect : Z -> option string) (pause : pyfloat -> option string)
    (error : Z -> string) (max_attempts k : Z) (delay : pyfloat) :
  py_int (VStr (getenv_default h "DB_INIT_RETRIES" "30")) = Ok max_attempts ->
  py_float (VStr (getenv_default h "DB_INIT_DELAY" "1.0")) = Ok delay ->
  pause delay = None ->
  1 <= k <= max_attempts ->
  connect k = None ->
  (forall j, 1 <= j < k -> connect j = Some (error j)) ->
  Shared.init_db h connect pause
  = Ok (Shared.Returned,
        (List.flat_map (failed_attempt delay error)
           (attempts_from 1 (Z.to_nat (k - 1)))
         ++ [Shared.CreateTable;
             Shared.InitLog "[db] jobs table is ready"])%list).
Proof.
  intros Hmax Hdelay Hpause Hk Hup Hdown. unfold Shared.init_db.
  rewrite Hmax, Hdelay. cbn [mbind result_bind].
  rewrite (init_loop_connects connect pause error max_attempts k delay
             (Z.to_nat (k - 1)) Hpause 1 (Z.to_nat max_attempts));
    try assumption; try lia.
  reflexivity.
Qed.

(** X17.  [init_db] gives up after [DB_INIT_RETRIES] attempts: if every
    one of them fails, the exception of the last attempt goes up, after
    the log line of every failure, a pause after each failure but the
    last, and a final line that says it gives up; the table is never
    created. *)
Theorem init_db_gives_up (h : host)
    (connect : Z -> option string) (pause : pyfloat -> option string)
    (error : Z -> string) (max_attempts : Z) (delay : pyfloat) :
  py_int (VStr (getenv_default h "DB_INIT_RETRIES" "30")) = Ok max_attempts ->
  py_float (VStr (getenv_default h "DB_INIT_DELAY" "1.0")) = Ok delay ->
  pause delay = None ->
  1 <= max_attempts ->
  (forall j, 1 <= j <= max_attempts -> connect j = Some (error j)) ->
  Shared.init_db h connect pause
  = Ok (Shared.Raised (error max_attempts),
        (List.flat_map (failed_attempt delay error)
           (attempts_from 1 (Z.to_nat (max_attempts - 1)))
         ++ [Shared.InitLog ("[db] init attempt " ++ string_of_Z max_attempts
                             ++ " failed: " ++ error max_attempts);
             Shared.InitLog "[db] giving up initializing database"])%list).
Proof.
  intros Hmax Hdelay Hpause Hk Hdown. unfold Shared.init_db.
  rewrite Hmax, Hdelay. cbn [mbind result_bind].
  rewrite (init_loop_gives_up connect pause error max_attempts delay
             (Z.to_nat (max_attempts - 1)) Hpause 1 (Z.to_nat max_attempts));
    try assumption; try lia.
  reflexivity.
Qed.

(** X18.  With [DB_INIT_RETRIES] at zero or below, [init_db] returns
    at once without an error: it never connects, creates no table, logs
    nothing and does not pause, whether the database is up or not. *)
Theorem init_db_without_attempts (h : host) (connect : Z -> option string)
    (pause : pyfloat -> option string) (max_attempts : Z) (delay : pyfloat) :
  py_int (VStr (getenv_default h "DB_INIT_RETRIES" "30")) = Ok max_attempts ->
  py_float (VStr (getenv_default h "DB_INIT_DELAY" "1.0")) = Ok delay ->
  max_attempts <= 0 ->
  Shared.init_db h connect pause = Ok (Shared.Returned, []).
Proof.
  intros Hmax Hdelay Hk. unfold Shared.init_db.
  rewrite Hmax, Hdelay. cbn [mbind result_bind].
  replace (Z.to_nat max_attempts) with O by lia. reflexivity.
Qed.

End InitDbFacts.

Lemma init_db_retries_until_connected_witness :
  Shared.init_db (Demo2.db_host "5") (Demo2.up_at 3) Demo2.sound_pause
  = Ok (Shared.Returned,
        [Shared.InitLog "[db] init attempt 1 failed: connection refused";
         Shared.InitSleep (FFinite (inject_Z 2));
         Shared.InitLog "[db] init attempt 2 failed: connection refused";
         Shared.InitSleep (FFinite (inject_Z 2));
         Shared.CreateTable;
         Shared.InitLog "[db] jobs table is ready"]).
Proof.
  apply (init_db_retries_until_connected (Demo2.db_host "5") (Demo2.up_at 3)
           Demo2.sound_pause (fun _ => "connection refused") 5 3
           (FFinite (inject_Z 2))).
  - vm_compute. reflexivity.
  - vm_compute. reflexivity.
  - reflexivity.
  - lia.
  - vm_compute. reflexivity.
  - intros j Hj. unfold Demo2.up_at.
    replace (j <? 3) with true by (symmetry; apply Z.ltb_lt; lia).
    reflexivity.
Defined.

Lemma init_db_gives_up_witness :
  Shared.init_db (Demo2.db_host "2") (Demo2.up_at 3) Demo2.sound_pause
  = Ok (Shared.Raised "connection refused",
        [Shared.InitLog "[db] init attempt 1 failed: connection refused";
         Shared.InitSleep (FFinite (inject_Z 2));
         Shared.InitLog "[db] init attempt 2 failed: connection refused";
         Shared.InitLog "[db] giving up initializing database"]).
Proof.
  apply (init_db_gives_up (Demo2.db_host "2") (Demo2.up_at 3)
           Demo2.sound_pause (fun _ => "connection refused") 2
           (FFinite (inject_Z 2))).
  - vm_compute. reflexivity.
  - vm_compute. reflexivity.
  - reflexivity.
  - lia.
  - intros j Hj. unfold Demo2.up_at.
    replace (j <? 3) with true by (symmetry; apply Z.ltb_lt; lia).
    reflexivity.
Defined.

Lemma init_db_without_attempts_witness :
  Shared.init_db (Demo2.db_host "0") (Demo2.up_at 1) Demo2.sound_pause
  = Ok (Shared.Returned, []).
Proof.
  apply (init_db_without_attempts (Demo2.db_host "0") (Demo2.up_at 1)
           Demo2.sound_pause 0 (FFinite (inject_Z 2))).
  - vm_compute. reflexivity.
  - vm_compute. reflexivity.
  - lia.
Defined.
